(** * EnerJee: dispatch planning of renewables and battery storage

    A shallow embedding of the dispatch core of the repository:
    - [carbon_intensity.py]    : the time-of-day carbon intensity lookup;
    - [greedy_baseline.py]     : the myopic hour-by-hour heuristic;
    - [optimization.py]        : the single-day linear program;
    - [multiday_optimization.py]: the multi-day linear program;
    - [sensitivity_analysis.py]: the price sweep over both strategies.

    Numbers.  The Python code computes with binary floating point; here
    every quantity is an exact rational ([Q]), so the statements below are
    about the arithmetic the code writes down, not about rounding.
    Equations between computed quantities use [==] ([Qeq]).  This is the
    float model: it reads the columns of a frame as float64.  A frame may
    also hold int64 columns, whose arithmetic wraps around at 2^63; the
    module [Typed] follows the number types through the greedy dispatcher.

    The LP solver (PuLP driving CBC) is an external collaborator.  It is a
    parameter [solve] of the optimizer; every call made to it is recorded in
    a log that the optimizer's monad threads along. *)

From Stdlib Require Import QArith Qminmax Qabs Lqa Lia List String ZArith Bool.
From Stdlib Require Import DecimalString.
Import ListNotations.
Open Scope Q_scope.

(* ================================================================== *)
(** * Python values shared by all modules *)

(** The exceptions the modelled code can raise. *)
Inductive exn : Type :=
| KeyError (key : string).

(** The outcome of running a piece of Python: a value, or an exception. *)
Inductive outcome (A : Type) : Type :=
| Ok (a : A)
| Raise (e : exn).
Arguments Ok {A} a.
Arguments Raise {A} e.

Definition obind {A B} (m : outcome A) (k : A -> outcome B) : outcome B :=
  match m with
  | Ok a => k a
  | Raise e => Raise e
  end.

Declare Scope outcome_scope.
Delimit Scope outcome_scope with outcome.
Notation "x <- m ;; k" := (obind m (fun x => k))
  (at level 61, m at next level, right associativity) : outcome_scope.

(** [d.get(k, default)] on a dict written as a literal. *)
Definition dict_get {V : Type} (d : list (string * V)) (k : string) (default : V) : V :=
  match find (fun kv => String.eqb (fst kv) k) d with
  | Some kv => snd kv
  | None => default
  end.

(** Python's [x > 0] on numbers. *)
Definition gt0 (x : Q) : bool := if Qlt_le_dec 0 x then true else false.

(** Python's [min(a, b, c)]: the first minimal argument. *)
Definition min3 (a b c : Q) : Q := Qmin (Qmin a b) c.

(** [float('inf')] appears as a total of failed runs. *)
Inductive total : Type :=
| Finite (q : Q)
| Infinity.

(** One row of [forecast_df].  [datetime] counts hours from a midnight, so
    that [datetime.hour] is its remainder modulo 24. *)
Record HourRecord : Type := mkHourRecord {
  datetime : Z;
  demand : Q;
  solar_available : Q;
  wind_available : Q;
  hydro_available : Q;
  price : Q
}.

Definition ForecastSeries : Type := list HourRecord.

Definition hour_of (dt : Z) : Z := (dt mod 24)%Z.

(** One entry of [results['hours']]. *)
Record HourResult : Type := mkHourResult {
  hr_hour : nat;
  hr_datetime : Z;
  hr_demand : Q;
  hr_solar_use : Q;
  hr_wind_use : Q;
  hr_hydro_use : Q;
  hr_battery_charge : Q;
  hr_battery_discharge : Q;
  hr_battery_level : Q;
  hr_unmet_demand : Q;
  hr_price : Q
}.

(** The dict every strategy returns.  Keys a strategy does not set are
    [None]. *)
Record Results : Type := mkResults {
  status : string;
  error : option string;
  objective_value : option Q;
  hours : list HourResult;
  total_cost : total;
  total_emissions : total;
  total_unmet : total;
  days : option nat
}.

(** ** The pandas operations used on [results_df] *)

(** [pd.DataFrame(results['hours'])[name]]: a frame built from an empty
    list of dicts has no columns, so the lookup raises [KeyError]. *)
Definition column (results_df : list HourResult) (name : string)
  (field : HourResult -> Q) : outcome (list Q) :=
  match results_df with
  | [] => Raise (KeyError name)
  | _ :: _ => Ok (map field results_df)
  end.

Definition series_mul (a b : list Q) : list Q :=
  map (fun p => fst p * snd p) (combine a b).

Definition series_add (a b : list Q) : list Q :=
  map (fun p => fst p + snd p) (combine a b).

Definition series_scale (a : list Q) (k : Q) : list Q :=
  map (fun x => x * k) a.

Definition series_sum (a : list Q) : Q := fold_left Qplus a 0.

(** [for t in range(len(df))] together with [df.iloc[t]]. *)
Definition enumerate {A : Type} (l : list A) : list (nat * A) :=
  combine (seq 0 (List.length l)) l.

(* ================================================================== *)
(** * carbon_intensity.py *)

Definition base_emissions : list (string * Q) :=
  [("solar"%string, 45); ("wind"%string, 12); ("hydro"%string, 24)].

Definition get_carbon_intensity (hour : Z) (source : string) : Q :=
  let time_multiplier :=
    if ((0 <=? hour) && (hour <? 6))%Z then 0.85
    else if ((6 <=? hour) && (hour <? 9))%Z then 1.0
    else if ((9 <=? hour) && (hour <? 17))%Z then 1.15
    else if ((17 <=? hour) && (hour <? 21))%Z then 1.25
    else 0.95 in
  dict_get base_emissions source 0 * time_multiplier.

(* ================================================================== *)
(** * greedy_baseline.py *)

Definition efficiency : Q := 0.9.

(** The body of the loop of [greedy_energy_mix] for one hour: the hour's
    record and the battery level carried to the next hour. *)
Definition greedy_hour (battery_capacity max_rate battery_level : Q)
  (t : nat) (row : HourRecord) : HourResult * Q :=
  let solar_avail := solar_available row in
  let wind_avail := wind_available row in
  let hydro_avail := hydro_available row in
  let remaining_demand := demand row in
  (* 1. Use solar *)
  let solar_use := Qmin solar_avail remaining_demand in
  let remaining_demand := remaining_demand - solar_use in
  (* 2. Use wind *)
  let '(wind_use, remaining_demand) :=
    if gt0 remaining_demand
    then let wind_use := Qmin wind_avail remaining_demand in
         (wind_use, remaining_demand - wind_use)
    else (0, remaining_demand) in
  (* 3. Use hydro *)
  let '(hydro_use, remaining_demand) :=
    if gt0 remaining_demand
    then let hydro_use := Qmin hydro_avail remaining_demand in
         (hydro_use, remaining_demand - hydro_use)
    else (0, remaining_demand) in
  (* 4. If still short, discharge battery *)
  let '(battery_discharge, battery_level, remaining_demand) :=
    if gt0 remaining_demand
    then let battery_discharge :=
           min3 remaining_demand max_rate battery_level in
         (battery_discharge, battery_level - battery_discharge,
          remaining_demand - battery_discharge)
    else (0, battery_level, remaining_demand) in
  (* 5. Any remaining is unmet demand *)
  let unmet_demand := if gt0 remaining_demand then remaining_demand else 0 in
  (* excess renewable energy that can be stored *)
  let excess_solar := solar_avail - solar_use in
  let excess_wind := wind_avail - wind_use in
  let excess_hydro := hydro_avail - hydro_use in
  let total_excess := excess_solar + excess_wind + excess_hydro in
  let battery_charge :=
    if gt0 total_excess
    then min3 total_excess max_rate
           ((battery_capacity - battery_level) / efficiency)
    else 0 in
  let battery_level :=
    if gt0 total_excess then battery_level + battery_charge * efficiency
    else battery_level in
  let charge_fraction := battery_charge / total_excess in
  let solar_use :=
    if gt0 total_excess then solar_use + excess_solar * charge_fraction
    else solar_use in
  let wind_use :=
    if gt0 total_excess then wind_use + excess_wind * charge_fraction
    else wind_use in
  let hydro_use :=
    if gt0 total_excess then hydro_use + excess_hydro * charge_fraction
    else hydro_use in
  ({| hr_hour := t;
      hr_datetime := datetime row;
      hr_demand := demand row;
      hr_solar_use := solar_use;
      hr_wind_use := wind_use;
      hr_hydro_use := hydro_use;
      hr_battery_charge := battery_charge;
      hr_battery_discharge := battery_discharge;
      hr_battery_level := battery_level;
      hr_unmet_demand := unmet_demand;
      hr_price := price row |},
   battery_level).

(** The loop [for t in range(hours)], with the battery level as the state
    carried from hour to hour. *)
Fixpoint greedy_loop (battery_capacity max_rate battery_level : Q)
  (rows : list (nat * HourRecord)) : list HourResult :=
  match rows with
  | [] => []
  | (t, row) :: rest =>
      let (hour_result, battery_level') :=
        greedy_hour battery_capacity max_rate battery_level t row in
      hour_result :: greedy_loop battery_capacity max_rate battery_level' rest
  end.

(** [emission_factors] as [greedy_baseline.py] writes it. *)
Definition greedy_emission_factors : list (string * Q) :=
  [("solar"%string, 45); ("wind"%string, 12); ("hydro"%string, 24)].

(** [d[key]] for a key the dict literal [d] has. *)
Definition dict_item (d : list (string * Q)) (key : string) : Q :=
  dict_get d key 0.

(** The three [.sum()] terms of [results['total_cost']]. *)
Definition frame_total_cost (results_df : list HourResult) : outcome Q :=
  (solar <- column results_df "solar_use" hr_solar_use ;;
   price_s <- column results_df "price" hr_price ;;
   wind <- column results_df "wind_use" hr_wind_use ;;
   price_w <- column results_df "price" hr_price ;;
   hydro <- column results_df "hydro_use" hr_hydro_use ;;
   price_h <- column results_df "price" hr_price ;;
   Ok (series_sum (series_scale (series_mul solar price_s) 0.5)
       + series_sum (series_scale (series_mul wind price_w) 0.6)
       + series_sum (series_scale (series_mul hydro price_h) 0.7)))%outcome.

(** [results['total_emissions']] with the fixed factors of the dict
    [emission_factors]. *)
Definition frame_fixed_emissions (emission_factors : list (string * Q))
  (results_df : list HourResult) : outcome Q :=
  (solar <- column results_df "solar_use" hr_solar_use ;;
   wind <- column results_df "wind_use" hr_wind_use ;;
   hydro <- column results_df "hydro_use" hr_hydro_use ;;
   Ok (series_sum
         (series_add
            (series_add
               (series_scale solar (dict_item emission_factors "solar"))
               (series_scale wind (dict_item emission_factors "wind")))
            (series_scale hydro (dict_item emission_factors "hydro")))))%outcome.

Definition frame_total_unmet (results_df : list HourResult) : outcome Q :=
  (unmet <- column results_df "unmet_demand" hr_unmet_demand ;;
   Ok (series_sum unmet))%outcome.

Definition greedy_hours (forecast_df : ForecastSeries)
  (battery_capacity battery_initial : Q) : list HourResult :=
  let max_rate := battery_capacity * 0.2 in
  greedy_loop battery_capacity max_rate battery_initial (enumerate forecast_df).

Definition greedy_energy_mix (forecast_df : ForecastSeries)
  (battery_capacity battery_initial : Q) : outcome Results :=
  let results_hours := greedy_hours forecast_df battery_capacity battery_initial in
  let results_df := results_hours in
  (cost <- frame_total_cost results_df ;;
   emissions <- frame_fixed_emissions greedy_emission_factors results_df ;;
   unmet <- frame_total_unmet results_df ;;
   Ok {| status := "Greedy";
         error := None;
         objective_value := None;
         hours := results_hours;
         total_cost := Finite cost;
         total_emissions := Finite emissions;
         total_unmet := Finite unmet;
         days := None |})%outcome.

(* ================================================================== *)
(** * greedy_baseline.py on frames with integer columns *)

(** The columns of a frame are float64 or int64, and the float model above
    reads every number as a float.  With int64 columns the greedy
    dispatcher computes in int64 wherever both operands are integers, and
    int64 arithmetic wraps around at 2^63.  This module follows the number
    types through [greedy_energy_mix]. *)
Module Typed.

(** A number of the frame or of the loop: an int64 (or the Python int 0 the
    loop starts its figures from, which joins an int64 as an int64), or a
    float, read as the exact rational. *)
Inductive number : Type :=
| Int (z : Z)
| Float (q : Q).

Definition to_float (x : number) : Q :=
  match x with
  | Int z => inject_Z z
  | Float q => q
  end.

(** The int64 that an integer result wraps around to. *)
Definition wrap64 (z : Z) : Z := ((z + 2 ^ 63) mod 2 ^ 64 - 2 ^ 63)%Z.

(** [a + b], [a - b], [a * b]: in int64 when both are integers, in floats
    otherwise. *)
Definition arith (on_int : Z -> Z -> Z) (on_float : Q -> Q -> Q)
  (a b : number) : number :=
  match a, b with
  | Int x, Int y => Int (wrap64 (on_int x y))
  | _, _ => Float (on_float (to_float a) (to_float b))
  end.

Definition add : number -> number -> number := arith Z.add Qplus.
Definition sub : number -> number -> number := arith Z.sub Qminus.
Definition mul : number -> number -> number := arith Z.mul Qmult.

(** [a / b] is true division: always a float. *)
Definition div (a b : number) : number := Float (to_float a / to_float b).

(** [x > 0]. *)
Definition gt0 (x : number) : bool :=
  if Qlt_le_dec 0 (to_float x) then true else false.

(** Python's [min(a, b)] and [min(a, b, c)]: the first minimal argument,
    with the type it has. *)
Definition min2 (a b : number) : number :=
  match to_float a ?= to_float b with
  | Gt => b
  | _ => a
  end.

Definition min3 (a b c : number) : number := min2 (min2 a b) c.

(** One row of [forecast_df]. *)
Record HourRecord : Type := mkHourRecord {
  datetime : Z;
  demand : number;
  solar_available : number;
  wind_available : number;
  hydro_available : number;
  price : number
}.

(** One entry of [results['hours']]. *)
Record HourResult : Type := mkHourResult {
  hr_hour : nat;
  hr_datetime : Z;
  hr_demand : number;
  hr_solar_use : number;
  hr_wind_use : number;
  hr_hydro_use : number;
  hr_battery_charge : number;
  hr_battery_discharge : number;
  hr_battery_level : number;
  hr_unmet_demand : number;
  hr_price : number
}.

(** The dict [greedy_energy_mix] returns. *)
Record Results : Type := mkResults {
  status : string;
  hours : list HourResult;
  total_cost : number;
  total_emissions : number;
  total_unmet : number
}.

(** The body of the loop for one hour.  [battery_capacity] and [max_rate]
    are not int64: [max_rate] is a product with the float 0.2, and the
    capacity is a Python number. *)
Definition greedy_hour (battery_capacity max_rate : Q) (battery_level : number)
  (t : nat) (row : HourRecord) : HourResult * number :=
  let solar_avail := solar_available row in
  let wind_avail := wind_available row in
  let hydro_avail := hydro_available row in
  let remaining_demand := demand row in
  (* 1. Use solar *)
  let solar_use := min2 solar_avail remaining_demand in
  let remaining_demand := sub remaining_demand solar_use in
  (* 2. Use wind *)
  let '(wind_use, remaining_demand) :=
    if gt0 remaining_demand
    then let wind_use := min2 wind_avail remaining_demand in
         (wind_use, sub remaining_demand wind_use)
    else (Int 0, remaining_demand) in
  (* 3. Use hydro *)
  let '(hydro_use, remaining_demand) :=
    if gt0 remaining_demand
    then let hydro_use := min2 hydro_avail remaining_demand in
         (hydro_use, sub remaining_demand hydro_use)
    else (Int 0, remaining_demand) in
  (* 4. If still short, discharge battery *)
  let '(battery_discharge, battery_level, remaining_demand) :=
    if gt0 remaining_demand
    then let battery_discharge :=
           min3 remaining_demand (Float max_rate) battery_level in
         (battery_discharge, sub battery_level battery_discharge,
          sub remaining_demand battery_discharge)
    else (Int 0, battery_level, remaining_demand) in
  (* 5. Any remaining is unmet demand *)
  let unmet_demand :=
    if gt0 remaining_demand then remaining_demand else Int 0 in
  (* excess renewable energy that can be stored *)
  let excess_solar := sub solar_avail solar_use in
  let excess_wind := sub wind_avail wind_use in
  let excess_hydro := sub hydro_avail hydro_use in
  let total_excess := add (add excess_solar excess_wind) excess_hydro in
  let battery_charge :=
    if gt0 total_excess
    then min3 total_excess (Float max_rate)
           (div (sub (Float battery_capacity) battery_level)
              (Float efficiency))
    else Int 0 in
  let battery_level :=
    if gt0 total_excess
    then add battery_level (mul battery_charge (Float efficiency))
    else battery_level in
  let charge_fraction := div battery_charge total_excess in
  let solar_use :=
    if gt0 total_excess then add solar_use (mul excess_solar charge_fraction)
    else solar_use in
  let wind_use :=
    if gt0 total_excess then add wind_use (mul excess_wind charge_fraction)
    else wind_use in
  let hydro_use :=
    if gt0 total_excess then add hydro_use (mul excess_hydro charge_fraction)
    else hydro_use in
  ({| hr_hour := t;
      hr_datetime := datetime row;
      hr_demand := demand row;
      hr_solar_use := solar_use;
      hr_wind_use := wind_use;
      hr_hydro_use := hydro_use;
      hr_battery_charge := battery_charge;
      hr_battery_discharge := battery_discharge;
      hr_battery_level := battery_level;
      hr_unmet_demand := unmet_demand;
      hr_price := price row |},
   battery_level).

Fixpoint greedy_loop (battery_capacity max_rate : Q) (battery_level : number)
  (rows : list (nat * HourRecord)) : list HourResult :=
  match rows with
  | [] => []
  | (t, row) :: rest =>
      let (hour_result, battery_level') :=
        greedy_hour battery_capacity max_rate battery_level t row in
      hour_result :: greedy_loop battery_capacity max_rate battery_level' rest
  end.

(** ** The columns of [results_df] *)

(** A column of a frame: int64 or float64. *)
Inductive Series : Type :=
| IntSeries (values : list Z)
| FloatSeries (values : list Q).

(** The integers of a list of numbers that are all integers. *)
Fixpoint as_ints (values : list number) : option (list Z) :=
  match values with
  | [] => Some []
  | Int z :: rest => option_map (cons z) (as_ints rest)
  | Float _ :: _ => None
  end.

(** The column [pd.DataFrame] builds from the values of a key: int64 when
    every value is an integer, float64 otherwise. *)
Definition series_of (values : list number) : Series :=
  match as_ints values with
  | Some ints => IntSeries ints
  | None => FloatSeries (map to_float values)
  end.

(** [pd.DataFrame(results['hours'])[name]]. *)
Definition column (results_df : list HourResult) (name : string)
  (field : HourResult -> number) : outcome Series :=
  match results_df with
  | [] => Raise (KeyError name)
  | _ :: _ => Ok (series_of (map field results_df))
  end.

(** The values of a column as floats. *)
Definition floats (a : Series) : list Q :=
  match a with
  | IntSeries values => map inject_Z values
  | FloatSeries values => values
  end.

(** [a * b] and [a + b] on columns: elementwise, in int64 when both columns
    are int64. *)
Definition series_mul (a b : Series) : Series :=
  match a, b with
  | IntSeries x, IntSeries y =>
      IntSeries (map (fun p => wrap64 (fst p * snd p)) (combine x y))
  | _, _ =>
      FloatSeries (map (fun p => fst p * snd p) (combine (floats a) (floats b)))
  end.

Definition series_add (a b : Series) : Series :=
  match a, b with
  | IntSeries x, IntSeries y =>
      IntSeries (map (fun p => wrap64 (fst p + snd p)) (combine x y))
  | _, _ =>
      FloatSeries (map (fun p => fst p + snd p) (combine (floats a) (floats b)))
  end.

(** A column times a float. *)
Definition series_scale (a : Series) (k : Q) : Series :=
  FloatSeries (map (fun x => x * k) (floats a)).

(** A column times a Python int that fits an int64. *)
Definition series_scale_int (a : Series) (k : Z) : Series :=
  match a with
  | IntSeries x => IntSeries (map (fun z => wrap64 (z * k)) x)
  | FloatSeries x => FloatSeries (map (fun q => q * inject_Z k) x)
  end.

(** [a.sum()]. *)
Definition series_sum (a : Series) : number :=
  match a with
  | IntSeries x => Int (fold_left (fun acc z => wrap64 (acc + z)) x 0%Z)
  | FloatSeries x => Float (fold_left Qplus x 0)
  end.

(** The three [.sum()] terms of [results['total_cost']]. *)
Definition frame_total_cost (results_df : list HourResult) : outcome number :=
  (solar <- column results_df "solar_use" hr_solar_use ;;
   price_s <- column results_df "price" hr_price ;;
   wind <- column results_df "wind_use" hr_wind_use ;;
   price_w <- column results_df "price" hr_price ;;
   hydro <- column results_df "hydro_use" hr_hydro_use ;;
   price_h <- column results_df "price" hr_price ;;
   Ok (add
         (add (series_sum (series_scale (series_mul solar price_s) 0.5))
              (series_sum (series_scale (series_mul wind price_w) 0.6)))
         (series_sum (series_scale (series_mul hydro price_h) 0.7))))%outcome.

(** [results['total_emissions']], with the Python ints 45, 12 and 24 of
    [emission_factors]. *)
Definition frame_fixed_emissions (results_df : list HourResult)
  : outcome number :=
  (solar <- column results_df "solar_use" hr_solar_use ;;
   wind <- column results_df "wind_use" hr_wind_use ;;
   hydro <- column results_df "hydro_use" hr_hydro_use ;;
   Ok (series_sum
         (series_add
            (series_add (series_scale_int solar 45)
                        (series_scale_int wind 12))
            (series_scale_int hydro 24))))%outcome.

Definition frame_total_unmet (results_df : list HourResult) : outcome number :=
  (unmet <- column results_df "unmet_demand" hr_unmet_demand ;;
   Ok (series_sum unmet))%outcome.

Definition greedy_hours (forecast_df : list HourRecord)
  (battery_capacity battery_initial : Q) : list HourResult :=
  let max_rate := battery_capacity * 0.2 in
  greedy_loop battery_capacity max_rate (Float battery_initial)
    (enumerate forecast_df).

Definition greedy_energy_mix (forecast_df : list HourRecord)
  (battery_capacity battery_initial : Q) : outcome Results :=
  let results_hours := greedy_hours forecast_df battery_capacity battery_initial in
  let results_df := results_hours in
  (cost <- frame_total_cost results_df ;;
   emissions <- frame_fixed_emissions results_df ;;
   unmet <- frame_total_unmet results_df ;;
   Ok {| status := "Greedy";
         hours := results_hours;
         total_cost := cost;
         total_emissions := emissions;
         total_unmet := unmet |})%outcome.

End Typed.

(* ================================================================== *)
(** * Specification-side sums *)

(** The sum over the hours of a plan of a per-hour quantity. *)
Definition sum_over (f : HourResult -> Q) (l : list HourResult) : Q :=
  fold_right (fun h acc => f h + acc) 0 l.

(** The realized cost of one hour at the fixed factors 0.5 / 0.6 / 0.7. *)
Definition hour_cost_of (h : HourResult) : Q :=
  hr_solar_use h * hr_price h * 0.5
  + hr_wind_use h * hr_price h * 0.6
  + hr_hydro_use h * hr_price h * 0.7.

(** The emissions of one hour at the fixed base factors. *)
Definition hour_fixed_emissions_of (h : HourResult) : Q :=
  hr_solar_use h * 45 + hr_wind_use h * 12 + hr_hydro_use h * 24.

(** The emissions of one hour at the time-varying intensities. *)
Definition hour_varying_emissions_of (h : HourResult) : Q :=
  hr_solar_use h * get_carbon_intensity (hour_of (hr_datetime h)) "solar"
  + hr_wind_use h * get_carbon_intensity (hour_of (hr_datetime h)) "wind"
  + hr_hydro_use h * get_carbon_intensity (hour_of (hr_datetime h)) "hydro".

(** The battery level carried into hour [t] of a plan. *)
Definition level_before (battery_initial : Q) (plan_hours : list HourResult)
  (t : nat) : Q :=
  match t with
  | O => battery_initial
  | S t' => match nth_error plan_hours t' with
            | Some h => hr_battery_level h
            | None => battery_initial
            end
  end.

(* ================================================================== *)
(** * The PuLP interface used by the optimizers *)

(** The decision variables, one family per [LpVariable.dicts] call, indexed
    by the hour. *)
Inductive LpVariable : Type :=
| solar_use (t : nat)
| wind_use (t : nat)
| hydro_use (t : nat)
| battery_charge (t : nat)
| battery_discharge (t : nat)
| battery_level (t : nat)
| unmet_demand (t : nat).

(** Affine expressions as the code writes them.  [EMul e k] stands for both
    [e * k] and [k * e]. *)
Inductive LpAffineExpression : Type :=
| EVar (v : LpVariable)
| EConst (c : Q)
| EAdd (a b : LpAffineExpression)
| ESub (a b : LpAffineExpression)
| EMul (a : LpAffineExpression) (k : Q).

(** [pulp.lpSum]. *)
Definition lpSum (l : list LpAffineExpression) : LpAffineExpression :=
  fold_left EAdd l (EConst 0).

Inductive LpSense : Type := LpConstraintLE | LpConstraintEQ | LpConstraintGE.

Record LpConstraint : Type := mkLpConstraint {
  c_lhs : LpAffineExpression;
  c_sense : LpSense;
  c_rhs : LpAffineExpression;
  c_name : option string
}.

(** A declared variable with its [lowBound] and [upBound]. *)
Record LpBound : Type := mkLpBound {
  b_var : LpVariable;
  lowBound : option Q;
  upBound : option Q
}.

(** [pulp.LpVariable.dicts(name, range(n), lowBound, upBound)]. *)
Definition LpVariable_dicts (family : nat -> LpVariable) (n : nat)
  (low up : option Q) : list LpBound :=
  map (fun t => mkLpBound (family t) low up) (seq 0 n).

(** An [LpProblem] with sense [LpMinimize]. *)
Record LpProblem : Type := mkLpProblem {
  lp_name : string;
  lp_variables : list LpBound;
  lp_objective : LpAffineExpression;
  lp_constraints : list LpConstraint
}.

Inductive LpStatus : Type :=
| LpStatusNotSolved
| LpStatusOptimal
| LpStatusInfeasible
| LpStatusUnbounded
| LpStatusUndefined.

(** The table [pulp.LpStatus]. *)
Definition LpStatus_name (s : LpStatus) : string :=
  match s with
  | LpStatusNotSolved => "Not Solved"
  | LpStatusOptimal => "Optimal"
  | LpStatusInfeasible => "Infeasible"
  | LpStatusUnbounded => "Unbounded"
  | LpStatusUndefined => "Undefined"
  end.

Definition is_optimal (s : LpStatus) : bool :=
  match s with
  | LpStatusOptimal => true
  | _ => false
  end.

(** What a call of [prob.solve] leaves behind: the status and the value of
    every variable. *)
Record LpSolution : Type := mkLpSolution {
  lp_status : LpStatus;
  varValue : LpVariable -> Q
}.

(** [pulp.value] of an expression under the variables' values. *)
Fixpoint value (x : LpVariable -> Q) (e : LpAffineExpression) : Q :=
  match e with
  | EVar v => x v
  | EConst c => c
  | EAdd a b => value x a + value x b
  | ESub a b => value x a - value x b
  | EMul a k => value x a * k
  end.

(** Python's [str] of a loop index, for the constraint names. *)
Definition str (t : nat) : string := NilEmpty.string_of_uint (Nat.to_uint t).

(** ** Feasibility, up to a tolerance *)

Definition holds (tol : Q) (x : LpVariable -> Q) (c : LpConstraint) : Prop :=
  match c_sense c with
  | LpConstraintLE => value x (c_lhs c) <= value x (c_rhs c) + tol
  | LpConstraintEQ => Qabs (value x (c_lhs c) - value x (c_rhs c)) <= tol
  | LpConstraintGE => value x (c_rhs c) - tol <= value x (c_lhs c)
  end.

Definition within_bounds (tol : Q) (x : LpVariable -> Q) (b : LpBound) : Prop :=
  match lowBound b with
  | Some l => l - tol <= x (b_var b)
  | None => True
  end /\
  match upBound b with
  | Some u => x (b_var b) <= u + tol
  | None => True
  end.

Definition feasible (tol : Q) (x : LpVariable -> Q) (prob : LpProblem) : Prop :=
  Forall (holds tol x) (lp_constraints prob) /\
  Forall (within_bounds tol x) (lp_variables prob).

(** The same, decided. *)
Definition holdsb (tol : Q) (x : LpVariable -> Q) (c : LpConstraint) : bool :=
  match c_sense c with
  | LpConstraintLE => Qle_bool (value x (c_lhs c)) (value x (c_rhs c) + tol)
  | LpConstraintEQ =>
      Qle_bool (Qabs (value x (c_lhs c) - value x (c_rhs c))) tol
  | LpConstraintGE => Qle_bool (value x (c_rhs c) - tol) (value x (c_lhs c))
  end.

Definition within_boundsb (tol : Q) (x : LpVariable -> Q) (b : LpBound) : bool :=
  match lowBound b with
  | Some l => Qle_bool (l - tol) (x (b_var b))
  | None => true
  end &&
  match upBound b with
  | Some u => Qle_bool (x (b_var b)) (u + tol)
  | None => true
  end.

Definition feasibleb (tol : Q) (x : LpVariable -> Q) (prob : LpProblem) : bool :=
  forallb (holdsb tol x) (lp_constraints prob) &&
  forallb (within_boundsb tol x) (lp_variables prob).

(** Two problems are the same model when they agree on everything but the
    labels: the problem's name and the names of its constraints. *)
Definition unlabelled (c : LpConstraint) : LpConstraint :=
  mkLpConstraint (c_lhs c) (c_sense c) (c_rhs c) None.

Definition same_model (p q : LpProblem) : Prop :=
  lp_variables p = lp_variables q /\
  lp_objective p = lp_objective q /\
  map unlabelled (lp_constraints p) = map unlabelled (lp_constraints q).

(** ** Running code that calls the solver *)

(** A computation that may call the solver and may raise: it maps the log
    of the problems solved so far to its outcome and the extended log. *)
Definition run (A : Type) : Type :=
  list LpProblem -> outcome A * list LpProblem.

Definition ret {A : Type} (a : A) : run A := fun log => (Ok a, log).

Definition bind {A B : Type} (m : run A) (k : A -> run B) : run B :=
  fun log =>
    match m log with
    | (Ok a, log') => k a log'
    | (Raise e, log') => (Raise e, log')
    end.

Definition lift {A : Type} (o : outcome A) : run A := fun log => (o, log).

Declare Scope run_scope.
Delimit Scope run_scope with run.
Notation "x <- m ;; k" := (bind m (fun x => k))
  (at level 61, m at next level, right associativity) : run_scope.

(* ================================================================== *)
(** * optimization.py and multiday_optimization.py: the model *)

(** [emission_factors] as the two optimizers write it. *)
Definition emission_factors : list (string * Q) :=
  [("solar"%string, 45); ("wind"%string, 12); ("hydro"%string, 24);
   ("battery"%string, 0)].

(** [hour_cost] of the objective loop. *)
Definition hour_cost (t : nat) (row : HourRecord) : LpAffineExpression :=
  EAdd (EAdd (EMul (EMul (EVar (solar_use t)) (price row)) 0.5)
             (EMul (EMul (EVar (wind_use t)) (price row)) 0.6))
       (EMul (EMul (EVar (hydro_use t)) (price row)) 0.7).

(** [hour_emissions] of the objective loop, under the accounting mode of
    the call. *)
Definition hour_emissions (use_time_varying_carbon : bool) (t : nat)
  (row : HourRecord) : LpAffineExpression :=
  let hour_of_day := hour_of (datetime row) in
  let solar_intensity :=
    if use_time_varying_carbon then get_carbon_intensity hour_of_day "solar"
    else dict_item emission_factors "solar" in
  let wind_intensity :=
    if use_time_varying_carbon then get_carbon_intensity hour_of_day "wind"
    else dict_item emission_factors "wind" in
  let hydro_intensity :=
    if use_time_varying_carbon then get_carbon_intensity hour_of_day "hydro"
    else dict_item emission_factors "hydro" in
  EAdd (EAdd (EMul (EVar (solar_use t)) solar_intensity)
             (EMul (EVar (wind_use t)) wind_intensity))
       (EMul (EVar (hydro_use t)) hydro_intensity).

(** The objective handed to [prob +=]; both optimizers write the same. *)
Definition objective (forecast_df : ForecastSeries)
  (cost_weight emission_weight : Q) (use_time_varying_carbon : bool)
  : LpAffineExpression :=
  let hours := List.length forecast_df in
  let total_cost :=
    fold_left (fun acc tr => EAdd acc (hour_cost (fst tr) (snd tr)))
      (enumerate forecast_df) (EConst 0) in
  let total_emissions :=
    fold_left
      (fun acc tr =>
         EAdd acc (hour_emissions use_time_varying_carbon (fst tr) (snd tr)))
      (enumerate forecast_df) (EConst 0) in
  let carbon_price := 0.1 in
  EAdd (EAdd (EMul total_cost cost_weight)
             (EMul (EMul total_emissions emission_weight) carbon_price))
       (EMul (lpSum (map (fun t => EVar (unmet_demand t)) (seq 0 hours))) 10000).

(** The seven [LpVariable.dicts] calls; both optimizers write the same. *)
Definition variables (hours : nat) (battery_capacity : Q) : list LpBound :=
  LpVariable_dicts solar_use hours (Some 0) None
  ++ LpVariable_dicts wind_use hours (Some 0) None
  ++ LpVariable_dicts hydro_use hours (Some 0) None
  ++ LpVariable_dicts battery_charge hours (Some 0) None
  ++ LpVariable_dicts battery_discharge hours (Some 0) None
  ++ LpVariable_dicts battery_level (hours + 1) (Some 0) (Some battery_capacity)
  ++ LpVariable_dicts unmet_demand hours (Some 0) None.

(** [prob += battery_level[0] == battery_initial]. *)
Definition initial_level_constraint (battery_initial : Q) : LpConstraint :=
  mkLpConstraint (EVar (battery_level 0)) LpConstraintEQ (EConst battery_initial)
    None.

(** The constraints one hour adds.  The two optimizers differ in three of
    the names only, which are the parameters [demand_name], [dynamics_name]
    and [exclusive_name]. *)
Definition hour_constraints (demand_name dynamics_name exclusive_name : string)
  (battery_capacity : Q) (t : nat) (row : HourRecord) : list LpConstraint :=
  let efficiency := 0.9 in
  let max_rate := battery_capacity * 0.2 in
  [ mkLpConstraint
      (EAdd (ESub (EAdd (EAdd (EAdd (EVar (solar_use t)) (EVar (wind_use t)))
                              (EVar (hydro_use t)))
                        (EVar (battery_discharge t)))
                  (EVar (battery_charge t)))
            (EVar (unmet_demand t)))
      LpConstraintEQ (EConst (demand row))
      (Some (demand_name ++ str t)%string);
    mkLpConstraint (EVar (solar_use t)) LpConstraintLE
      (EConst (solar_available row)) (Some ("Solar_limit_" ++ str t)%string);
    mkLpConstraint (EVar (wind_use t)) LpConstraintLE
      (EConst (wind_available row)) (Some ("Wind_limit_" ++ str t)%string);
    mkLpConstraint (EVar (hydro_use t)) LpConstraintLE
      (EConst (hydro_available row)) (Some ("Hydro_limit_" ++ str t)%string);
    mkLpConstraint (EVar (battery_level (t + 1))) LpConstraintEQ
      (ESub (EAdd (EVar (battery_level t))
                  (EMul (EVar (battery_charge t)) efficiency))
            (EVar (battery_discharge t)))
      (Some (dynamics_name ++ str t)%string);
    mkLpConstraint (EVar (battery_charge t)) LpConstraintLE (EConst max_rate)
      (Some ("Charge_rate_" ++ str t)%string);
    mkLpConstraint (EVar (battery_discharge t)) LpConstraintLE (EConst max_rate)
      (Some ("Discharge_rate_" ++ str t)%string);
    mkLpConstraint (EAdd (EVar (battery_charge t)) (EVar (battery_discharge t)))
      LpConstraintLE (EConst max_rate) (Some (exclusive_name ++ str t)%string) ].

(** The model [optimize_energy_mix] has built when it calls the solver. *)
Definition energy_mix_problem (forecast_df : ForecastSeries)
  (battery_capacity battery_initial cost_weight emission_weight : Q)
  (use_time_varying_carbon : bool) : LpProblem :=
  let hours := List.length forecast_df in
  {| lp_name := "Energy_Mix_Optimization";
     lp_variables := variables hours battery_capacity;
     lp_objective :=
       objective forecast_df cost_weight emission_weight use_time_varying_carbon;
     lp_constraints :=
       initial_level_constraint battery_initial
       :: flat_map
            (fun tr =>
               hour_constraints "Demand_constraint_" "Battery_dynamics_"
                 "No_simultaneous_" battery_capacity (fst tr) (snd tr))
            (enumerate forecast_df) |}.

(** The two constraints [Min_end_battery] and [Max_end_battery]. *)
Definition terminal_band (hours : nat) (battery_capacity : Q)
  : list LpConstraint :=
  [ mkLpConstraint (EVar (battery_level hours)) LpConstraintGE
      (EConst (battery_capacity * 0.2)) (Some "Min_end_battery"%string);
    mkLpConstraint (EVar (battery_level hours)) LpConstraintLE
      (EConst (battery_capacity * 0.8)) (Some "Max_end_battery"%string) ].

(** The constraints of the multi-day model that come before the terminal
    band. *)
Definition multiday_hourly_constraints (forecast_df : ForecastSeries)
  (battery_capacity battery_initial : Q) : list LpConstraint :=
  initial_level_constraint battery_initial
  :: flat_map
       (fun tr =>
          hour_constraints "Demand_" "Battery_" "No_simul_" battery_capacity
            (fst tr) (snd tr))
       (enumerate forecast_df).

(** The model [optimize_multiday_energy_mix] has built when it calls the
    solver. *)
Definition multiday_problem (forecast_df : ForecastSeries)
  (battery_capacity battery_initial cost_weight emission_weight : Q)
  (use_time_varying_carbon : bool) : LpProblem :=
  let hours := List.length forecast_df in
  {| lp_name := "Multi_Day_Energy_Optimization";
     lp_variables := variables hours battery_capacity;
     lp_objective :=
       objective forecast_df cost_weight emission_weight use_time_varying_carbon;
     lp_constraints :=
       multiday_hourly_constraints forecast_df battery_capacity battery_initial
       ++ terminal_band hours battery_capacity |}.

(** The multi-day model with the terminal band left out, for the comparison
    with the single-day model. *)
Definition multiday_problem_without_band (forecast_df : ForecastSeries)
  (battery_capacity battery_initial cost_weight emission_weight : Q)
  (use_time_varying_carbon : bool) : LpProblem :=
  let hours := List.length forecast_df in
  {| lp_name := "Multi_Day_Energy_Optimization";
     lp_variables := variables hours battery_capacity;
     lp_objective :=
       objective forecast_df cost_weight emission_weight use_time_varying_carbon;
     lp_constraints :=
       multiday_hourly_constraints forecast_df battery_capacity battery_initial |}.

(** ** Reading the plan off the solved model *)

(** One [hour_result] of the extraction loop. *)
Definition hour_result (x : LpVariable -> Q) (t : nat) (row : HourRecord)
  : HourResult :=
  {| hr_hour := t;
     hr_datetime := datetime row;
     hr_demand := demand row;
     hr_solar_use := x (solar_use t);
     hr_wind_use := x (wind_use t);
     hr_hydro_use := x (hydro_use t);
     hr_battery_charge := x (battery_charge t);
     hr_battery_discharge := x (battery_discharge t);
     hr_battery_level := x (battery_level (t + 1));
     hr_unmet_demand := x (unmet_demand t);
     hr_price := price row |}.

Definition extract_hours (x : LpVariable -> Q) (forecast_df : ForecastSeries)
  : list HourResult :=
  map (fun tr => hour_result x (fst tr) (snd tr)) (enumerate forecast_df).

(** The dict returned on a status other than optimal. *)
Definition failure (message : string) (s : LpStatus) : Results :=
  {| status := LpStatus_name s;
     error := Some (message ++ LpStatus_name s)%string;
     objective_value := None;
     hours := [];
     total_cost := Infinity;
     total_emissions := Infinity;
     total_unmet := Infinity;
     days := None |}.

(** The loop over [results_df.iterrows()] of the multi-day optimizer. *)
Definition iterrows_emissions (results_df : list HourResult) : Q :=
  fold_left
    (fun emissions row =>
       let hour_of_day := hour_of (hr_datetime row) in
       emissions
       + (hr_solar_use row * get_carbon_intensity hour_of_day "solar"
          + hr_wind_use row * get_carbon_intensity hour_of_day "wind"
          + hr_hydro_use row * get_carbon_intensity hour_of_day "hydro"))
    results_df 0.

Section Optimizer.

(** [prob.solve(pulp.PULP_CBC_CMD(msg=False))]. *)
Variable solve : LpProblem -> LpSolution.

Definition prob_solve (prob : LpProblem) : run LpSolution :=
  fun log => (Ok (solve prob), log ++ [prob]).

Definition optimize_energy_mix (forecast_df : ForecastSeries)
  (battery_capacity battery_initial cost_weight emission_weight : Q)
  (use_time_varying_carbon : bool) : run Results :=
  let prob :=
    energy_mix_problem forecast_df battery_capacity battery_initial
      cost_weight emission_weight use_time_varying_carbon in
  (solution <- prob_solve prob ;;
   if negb (is_optimal (lp_status solution))
   then ret (failure "Optimization failed with status: " (lp_status solution))
   else
     let results_hours := extract_hours (varValue solution) forecast_df in
     let results_df := results_hours in
     cost <- lift (frame_total_cost results_df) ;;
     emissions <- lift (frame_fixed_emissions emission_factors results_df) ;;
     unmet <- lift (frame_total_unmet results_df) ;;
     ret {| status := LpStatus_name (lp_status solution);
            error := None;
            objective_value :=
              Some (value (varValue solution) (lp_objective prob));
            hours := results_hours;
            total_cost := Finite cost;
            total_emissions := Finite emissions;
            total_unmet := Finite unmet;
            days := None |})%run.

(** What the multi-day optimizer does once its model is built; [prob] is
    the model. *)
Definition multiday_solve_and_report (prob : LpProblem)
  (forecast_df : ForecastSeries) (days_arg : nat)
  (use_time_varying_carbon : bool) : run Results :=
  (solution <- prob_solve prob ;;
   if negb (is_optimal (lp_status solution))
   then ret (failure "Multi-day optimization failed: " (lp_status solution))
   else
     let results_hours := extract_hours (varValue solution) forecast_df in
     let results_df := results_hours in
     cost <- lift (frame_total_cost results_df) ;;
     emissions <-
       (if use_time_varying_carbon
        then ret (iterrows_emissions results_df)
        else lift (frame_fixed_emissions emission_factors results_df)) ;;
     unmet <- lift (frame_total_unmet results_df) ;;
     ret {| status := LpStatus_name (lp_status solution);
            error := None;
            objective_value :=
              Some (value (varValue solution) (lp_objective prob));
            hours := results_hours;
            total_cost := Finite cost;
            total_emissions := Finite emissions;
            total_unmet := Finite unmet;
            days := Some days_arg |})%run.

Definition optimize_multiday_energy_mix (forecast_df : ForecastSeries)
  (days_arg : nat)
  (battery_capacity battery_initial cost_weight emission_weight : Q)
  (use_time_varying_carbon : bool) : run Results :=
  multiday_solve_and_report
    (multiday_problem forecast_df battery_capacity battery_initial
       cost_weight emission_weight use_time_varying_carbon)
    forecast_df days_arg use_time_varying_carbon.

(** The multi-day optimizer with the terminal band removed. *)
Definition optimize_multiday_without_band (forecast_df : ForecastSeries)
  (days_arg : nat)
  (battery_capacity battery_initial cost_weight emission_weight : Q)
  (use_time_varying_carbon : bool) : run Results :=
  multiday_solve_and_report
    (multiday_problem_without_band forecast_df battery_capacity battery_initial
       cost_weight emission_weight use_time_varying_carbon)
    forecast_df days_arg use_time_varying_carbon.

End Optimizer.

(* ================================================================== *)
(** * sensitivity_analysis.py *)

Record Scenario : Type := mkScenario {
  sc_multiplier : Q;
  sc_label : string
}.

(** One entry of [results['optimized']] or [results['greedy']]. *)
Record Entry : Type := mkEntry {
  multiplier : Q;
  entry_total_cost : total;
  entry_total_emissions : total;
  entry_total_unmet : total
}.

Record SensitivityResults : Type := mkSensitivityResults {
  scenarios : list Scenario;
  optimized : list Entry;
  greedy : list Entry
}.

(** Python's [int] of a number: truncation towards zero, here of the exact
    product [multiplier * 100]. *)
Definition int (q : Q) : Z := Z.quot (Qnum q) (Zpos (Qden q)).

Definition label_of (multiplier : Q) : string :=
  (NilEmpty.string_of_int (Z.to_int (int (multiplier * 100))) ++ "% Price")%string.

(** [scenario_df = forecast_df.copy()] followed by
    [scenario_df['price'] = scenario_df['price'] * multiplier]. *)
Definition scenario_of (forecast_df : ForecastSeries) (multiplier : Q)
  : ForecastSeries :=
  map (fun row =>
         {| datetime := datetime row;
            demand := demand row;
            solar_available := solar_available row;
            wind_available := wind_available row;
            hydro_available := hydro_available row;
            price := price row * multiplier |})
      forecast_df.

Definition entry_of (m : Q) (r : Results) : Entry :=
  {| multiplier := m;
     entry_total_cost := total_cost r;
     entry_total_emissions := total_emissions r;
     entry_total_unmet := total_unmet r |}.

Section Sensitivity.

Variable solve : LpProblem -> LpSolution.

(** The loop [for multiplier in price_scenarios], with [results] as the
    dict the iterations append to. *)
Fixpoint sweep (forecast_df : ForecastSeries)
  (battery_capacity battery_initial cost_weight emission_weight : Q)
  (use_time_varying_carbon : bool) (price_scenarios : list Q)
  (results : SensitivityResults) : run SensitivityResults :=
  match price_scenarios with
  | [] => ret results
  | m :: rest =>
      let scenario_df := scenario_of forecast_df m in
      (opt_result <-
         optimize_energy_mix solve scenario_df battery_capacity
           battery_initial cost_weight emission_weight
           use_time_varying_carbon ;;
       greedy_result <-
         lift (greedy_energy_mix scenario_df battery_capacity battery_initial) ;;
       sweep forecast_df battery_capacity battery_initial cost_weight
         emission_weight use_time_varying_carbon rest
         {| scenarios := scenarios results ++ [mkScenario m (label_of m)];
            optimized :=
              match error opt_result with
              | None => optimized results ++ [entry_of m opt_result]
              | Some _ => optimized results
              end;
            greedy := greedy results ++ [entry_of m greedy_result] |})%run
  end.

Definition run_price_sensitivity (forecast_df : ForecastSeries)
  (battery_capacity battery_initial cost_weight emission_weight : Q)
  (price_scenarios : option (list Q)) (use_time_varying_carbon : bool)
  : run SensitivityResults :=
  let price_scenarios :=
    match price_scenarios with
    | None => [0.5; 0.75; 1.0; 1.25; 1.5]
    | Some l => l
    end in
  sweep forecast_df battery_capacity battery_initial cost_weight
    emission_weight use_time_varying_carbon price_scenarios
    {| scenarios := []; optimized := []; greedy := [] |}.

End Sensitivity.

(* ================================================================== *)
(** * Specification-side notions *)

(** A series whose demand and availabilities are nonnegative. *)
Definition nonneg_row (row : HourRecord) : Prop :=
  0 <= demand row /\ 0 <= solar_available row /\
  0 <= wind_available row /\ 0 <= hydro_available row.

(** A dict with the three base factors. *)
Definition base_factors (d : list (string * Q)) : Prop :=
  dict_item d "solar" = 45 /\ dict_item d "wind" = 12 /\
  dict_item d "hydro" = 24.

(** The left-hand side of the demand balance, read off a plan's hour. *)
Definition supplied (h : HourResult) : Q :=
  hr_solar_use h + hr_wind_use h + hr_hydro_use h
  + hr_battery_discharge h - hr_battery_charge h + hr_unmet_demand h.

(** The terminal band of a battery of capacity [cap]. *)
Definition in_band (cap level : Q) : Prop :=
  cap * 0.2 <= level /\ level <= cap * 0.8.

(** A total that is the finite number [q]. *)
Definition total_is (t : total) (q : Q) : Prop :=
  match t with
  | Finite x => x == q
  | Infinity => False
  end.

(** The model the sweep solves for the multiplier [m]. *)
Definition scenario_problem (df : ForecastSeries) (cap init cw ew : Q)
  (tv : bool) (m : Q) : LpProblem :=
  energy_mix_problem (scenario_of df m) cap init cw ew tv.

(** Whether the optimizer run of the multiplier [m] succeeds. *)
Definition scenario_optimal (solve : LpProblem -> LpSolution)
  (df : ForecastSeries) (cap init cw ew : Q) (tv : bool) (m : Q) : bool :=
  is_optimal (lp_status (solve (scenario_problem df cap init cw ew tv m))).

(** The greedy entry of the multiplier [m]. *)
Definition greedy_entry (df : ForecastSeries) (cap init : Q) (m : Q)
  : option Entry :=
  match greedy_energy_mix (scenario_of df m) cap init with
  | Ok r => Some (entry_of m r)
  | Raise _ => None
  end.

(** The multipliers of a call of the sweep. *)
Definition multipliers_of (price_scenarios : option (list Q)) : list Q :=
  match price_scenarios with
  | None => [0.5; 0.75; 1.0; 1.25; 1.5]
  | Some l => l
  end.

(* ================================================================== *)
(** * Concrete inputs *)

(** One hour at noon: demand 150, 150 of solar available, no wind or hydro,
    price 50. *)
Definition noon_series : ForecastSeries :=
  [ {| datetime := 12; demand := 150; solar_available := 150;
       wind_available := 0; hydro_available := 0; price := 50 |} ].

(** The optimum of the models of [noon_series] with capacity 500 and initial
    charge 250: discharge the battery at its rate limit 100 and take the
    remaining 50 from solar. *)
Definition noon_values (v : LpVariable) : Q :=
  match v with
  | solar_use 0 => 50
  | battery_discharge 0 => 100
  | battery_level 0 => 250
  | battery_level 1 => 150
  | _ => 0
  end.

(** A solver at work on [noon_series]: it reports the optimum. *)
Definition noon_solver (prob : LpProblem) : LpSolution :=
  {| lp_status := LpStatusOptimal; varValue := noon_values |}.

(** [n] idle hours: no demand, nothing available, price 50. *)
Definition idle_series (n : nat) : ForecastSeries :=
  map (fun t =>
         {| datetime := Z.of_nat t; demand := 0; solar_available := 0;
            wind_available := 0; hydro_available := 0; price := 50 |})
      (seq 0 n).

(** Doing nothing with an empty battery. *)
Definition idle_values (v : LpVariable) : Q := 0.


(** A malformed series: the timestamps decrease and the first demand is
    negative. *)
Definition malformed_series : ForecastSeries :=
  [ {| datetime := 5; demand := -10; solar_available := 0;
       wind_available := 0; hydro_available := 0; price := 50 |};
    {| datetime := 3; demand := 0; solar_available := 0;
       wind_available := 0; hydro_available := 0; price := 50 |} ].

(** Values that satisfy the models of [malformed_series] at no cost: the
    negative demand is absorbed by charging the battery. *)
Definition absorb_values (v : LpVariable) : Q :=
  match v with
  | battery_charge 0 => 10
  | battery_level 0 => 250
  | battery_level 1 => 259
  | battery_level 2 => 259
  | _ => 0
  end.

Definition absorb_solver (prob : LpProblem) : LpSolution :=
  {| lp_status := LpStatusOptimal; varValue := absorb_values |}.

(** A series no plan can serve within the availability caps: the solar
    availability is negative. *)
Definition impossible_series : ForecastSeries :=
  [ {| datetime := 0; demand := 10; solar_available := -1;
       wind_available := 0; hydro_available := 0; price := 50 |} ].

Definition infeasible_solver (prob : LpProblem) : LpSolution :=
  {| lp_status := LpStatusInfeasible; varValue := fun _ => 0 |}.

(** Three hours for the greedy dispatcher: a shortage, a surplus, a
    balance. *)
Definition mixed_series : ForecastSeries :=
  [ {| datetime := 0; demand := 400; solar_available := 100;
       wind_available := 50; hydro_available := 50; price := 40 |};
    {| datetime := 1; demand := 50; solar_available := 120;
       wind_available := 30; hydro_available := 10; price := 45 |};
    {| datetime := 2; demand := 60; solar_available := 20;
       wind_available := 20; hydro_available := 20; price := 50 |} ].

(* ================================================================== *)
(** * Further notions *)

(** The net energy the battery takes in over some hours of a plan: the
    charges at the round-trip efficiency, less the discharges. *)
Definition battery_net (plan_hours : list HourResult) : Q :=
  sum_over (fun h => hr_battery_charge h * 0.9 - hr_battery_discharge h)
    plan_hours.

(** The values of the decision variables that a plan's hours stand for:
    the inverse of reading a plan off the variables.  [battery_level 0] is
    the initial charge; variables beyond the plan are 0. *)
Definition plan_values (battery_initial : Q) (plan_hours : list HourResult)
  (v : LpVariable) : Q :=
  let field (f : HourResult -> Q) (t : nat) :=
    match nth_error plan_hours t with
    | Some h => f h
    | None => 0
    end in
  match v with
  | solar_use t => field hr_solar_use t
  | wind_use t => field hr_wind_use t
  | hydro_use t => field hr_hydro_use t
  | battery_charge t => field hr_battery_charge t
  | battery_discharge t => field hr_battery_discharge t
  | battery_level O => battery_initial
  | battery_level (S t) => field hr_battery_level t
  | unmet_demand t => field hr_unmet_demand t
  end.

(** A model that contains, for every hour of the series, the eight
    constraints of that hour under some labels, the initial-level
    constraint, and the variable bounds: both optimizers' models do. *)
Definition dispatch_model (prob : LpProblem) (df : ForecastSeries)
  (cap init : Q) : Prop :=
  lp_variables prob = variables (List.length df) cap /\
  In (initial_level_constraint init) (lp_constraints prob) /\
  exists d b e,
    forall t row c,
      nth_error df t = Some row ->
      In c (hour_constraints d b e cap t row) -> In c (lp_constraints prob).

(** The emissions of one hour under the accounting mode of a call. *)
Definition mode_emissions_of (use_time_varying_carbon : bool)
  (h : HourResult) : Q :=
  if use_time_varying_carbon then hour_varying_emissions_of h
  else hour_fixed_emissions_of h.

(** The weighted objective of a plan's hours: what the optimizers
    minimize. *)
Definition weighted_objective (cw ew : Q) (tv : bool)
  (plan_hours : list HourResult) : Q :=
  sum_over hour_cost_of plan_hours * cw
  + sum_over (mode_emissions_of tv) plan_hours * ew * 0.1
  + sum_over hr_unmet_demand plan_hours * 10000.

(** Values that satisfy a model exactly and minimize its objective among
    the values that do. *)
Definition lp_optimal (x : LpVariable -> Q) (prob : LpProblem) : Prop :=
  feasible 0 x prob /\
  forall y, feasible 0 y prob ->
            value x (lp_objective prob) <= value y (lp_objective prob).

(** A natural number as a quantity. *)
Definition Qnat (n : nat) : Q := inject_Z (Z.of_nat n).

(** An hour of a plan with its price scaled by [m]. *)
Definition scale_hour_price (m : Q) (h : HourResult) : HourResult :=
  {| hr_hour := hr_hour h;
     hr_datetime := hr_datetime h;
     hr_demand := hr_demand h;
     hr_solar_use := hr_solar_use h;
     hr_wind_use := hr_wind_use h;
     hr_hydro_use := hr_hydro_use h;
     hr_battery_charge := hr_battery_charge h;
     hr_battery_discharge := hr_battery_discharge h;
     hr_battery_level := hr_battery_level h;
     hr_unmet_demand := hr_unmet_demand h;
     hr_price := hr_price h * m |}.

(** One row of a scenario: the price scaled, the rest unchanged. *)
Definition scenario_row (m : Q) (row : HourRecord) : HourRecord :=
  {| datetime := datetime row;
     demand := demand row;
     solar_available := solar_available row;
     wind_available := wind_available row;
     hydro_available := hydro_available row;
     price := price row * m |}.

(* ================================================================== *)
(** * sensitivity_analysis.py: calculate_elasticity *)

(** The exceptions of the functions modelled from here on. *)
Inductive exception : Type :=
| Exn (e : exn)
| ZeroDivisionError
| IndexError
| ValueError (message : string).

Inductive result (A : Type) : Type :=
| Returns (a : A)
| Raises (e : exception).
Arguments Returns {A} a.
Arguments Raises {A} e.

(** A numpy float: a number, or one of inf, -inf and nan, which are not
    told apart. *)
Inductive float64 : Type :=
| Real (q : Q)
| NotFinite.

(** [(curr['total_cost'] - prev['total_cost']) / prev['total_cost']] on
    the numpy floats the sweep stores: dividing by zero gives inf or nan
    and raises nothing, and so does any operand that is infinite. *)
Definition cost_change_of (prev curr : total) : float64 :=
  match prev, curr with
  | Finite p, Finite c =>
      if Qeq_bool p 0 then NotFinite else Real ((c - p) / p)
  | _, _ => NotFinite
  end.

(** [cost_change / price_change] for a price change that is not zero. *)
Definition elasticity_of (cost_change : float64) (price_change : Q)
  : float64 :=
  match cost_change with
  | Real a => Real (a / price_change)
  | NotFinite => NotFinite
  end.

(** The loop [for i in range(1, len(data))] over consecutive entries.
    The multipliers are Python numbers: dividing by a zero multiplier
    raises. *)
Fixpoint elasticities (data : list Entry) : result (list float64) :=
  match data with
  | prev :: (curr :: _) as rest =>
      if Qeq_bool (multiplier prev) 0 then Raises ZeroDivisionError
      else
        let price_change :=
          (multiplier curr - multiplier prev) / multiplier prev in
        let cost_change :=
          cost_change_of (entry_total_cost prev) (entry_total_cost curr) in
        match elasticities rest with
        | Raises e => Raises e
        | Returns later =>
            if negb (Qeq_bool price_change 0)
            then Returns (elasticity_of cost_change price_change :: later)
            else Returns later
        end
  | _ => Returns []
  end.

(** Addition of numpy floats. *)
Definition np_add (a b : float64) : float64 :=
  match a, b with
  | Real x, Real y => Real (x + y)
  | _, _ => NotFinite
  end.

(** [np.mean] of a nonempty list: the sum over the length. *)
Definition np_mean (l : list float64) : float64 :=
  match fold_left np_add l (Real 0) with
  | Real s => Real (s / Qnat (List.length l))
  | NotFinite => NotFinite
  end.

Definition elasticity_of_entries (data : list Entry) : result float64 :=
  if (List.length data <? 2)%nat then Returns (Real 0)
  else
    match elasticities data with
    | Raises e => Raises e
    | Returns [] => Returns (Real 0)
    | Returns (x :: l) => Returns (np_mean (x :: l))
    end.

(** [calculate_elasticity].  The report has the keys 'scenarios',
    'optimized' and 'greedy'; the entries of 'scenarios' have no
    'total_cost'. *)
Definition calculate_elasticity (sensitivity_results : SensitivityResults)
  (strategy : string) : result float64 :=
  if String.eqb strategy "optimized"
  then elasticity_of_entries (optimized sensitivity_results)
  else if String.eqb strategy "greedy"
  then elasticity_of_entries (greedy sensitivity_results)
  else if String.eqb strategy "scenarios"
  then
    match scenarios sensitivity_results with
    | prev :: _ :: _ =>
        if Qeq_bool (sc_multiplier prev) 0 then Raises ZeroDivisionError
        else Raises (Exn (KeyError "total_cost"))
    | _ => Returns (Real 0)
    end
  else Raises (Exn (KeyError strategy)).

(** A float that is the number [q]. *)
Definition float_is (x : float64) (q : Q) : Prop :=
  match x with
  | Real a => a == q
  | NotFinite => False
  end.

(** No two neighbours of a list of multipliers are equal. *)
Fixpoint consecutive_distinct (l : list Q) : Prop :=
  match l with
  | a :: (b :: _) as rest => ~ a == b /\ consecutive_distinct rest
  | _ => True
  end.

(** Entries whose total cost is [C] times their multiplier. *)
Definition proportional_cost (C : Q) (e : Entry) : Prop :=
  exists c, entry_total_cost e = Finite c /\ c == C * multiplier e.

(* ================================================================== *)
(** * forecasting.py *)

Definition rbind {A B : Type} (m : result A) (k : A -> result B) : result B :=
  match m with
  | Returns a => k a
  | Raises e => Raises e
  end.

Declare Scope result_scope.
Delimit Scope result_scope with result.
Notation "x <- m ;; k" := (rbind m (fun x => k))
  (at level 61, m at next level, right associativity) : result_scope.

(** A loop that builds a list and stops at the first exception. *)
Fixpoint for_each {A B : Type} (f : A -> result B) (l : list A)
  : result (list B) :=
  match l with
  | [] => Returns []
  | a :: rest =>
      (b <- f a ;;
       bs <- for_each f rest ;;
       Returns (b :: bs))%result
  end.

(** [df.tail(n)] for [n >= 0]. *)
Definition tail {A : Type} (n : nat) (l : list A) : list A :=
  skipn (List.length l - n) l.

(** [df['datetime'].iloc[-1]]. *)
Definition last_timestamp (df : ForecastSeries) : result Z :=
  match nth_error df (List.length df - 1) with
  | Some row => Returns (datetime row)
  | None => Raises IndexError
  end.

(** [pd.date_range(start=last + 1 hour, periods=n, freq='H')]. *)
Definition date_range (last : Z) (n : nat) : list Z :=
  map (fun i => (last + 1 + Z.of_nat i)%Z) (seq 0 n).

(** The mean of a column of a frame with at least one row. *)
Definition mean (values : list Q) : Q :=
  fold_left Qplus values 0 / Qnat (List.length values).

(** The rows of a frame whose hour of day is [hour]. *)
Definition at_hour (hour : Z) (df : ForecastSeries) : ForecastSeries :=
  filter (fun row => (hour_of (datetime row) =? hour)%Z) df.

(** A forecast row at [ts] whose five data columns are computed by
    [col] from the column's projection. *)
Definition forecast_row (ts : Z) (col : (HourRecord -> Q) -> Q) : HourRecord :=
  {| datetime := ts;
     demand := col demand;
     solar_available := col solar_available;
     wind_available := col wind_available;
     hydro_available := col hydro_available;
     price := col price |}.

(** [hourly_avg[hourly_avg['hour'] == hour].iloc[0]] and the row built from
    it, [source] being the frame the hourly averages were grouped from. *)
Definition hourly_average_row (source : ForecastSeries) (ts : Z)
  : result HourRecord :=
  match at_hour (hour_of ts) source with
  | [] => Raises IndexError
  | group => Returns (forecast_row ts (fun f => mean (map f group)))
  end.

Definition alpha : Q := 0.3.

(** Simple exponential smoothing of a nonempty array: start from the most
    recent value and fold the earlier ones in, latest first. *)
Definition smooth (values : list Q) : Q :=
  match rev values with
  | [] => 0
  | latest :: earlier =>
      fold_left (fun smoothed_value v => alpha * v + (1 - alpha) * smoothed_value)
        earlier latest
  end.

Definition smoothed_row (df : ForecastSeries) (ts : Z) : HourRecord :=
  let hour_data := tail 7 (at_hour (hour_of ts) df) in
  let hour_data :=
    match hour_data with
    | [] => at_hour (hour_of ts) df
    | _ => hour_data
    end in
  forecast_row ts
    (fun f =>
       match map f hour_data with
       | [] => mean (map f df)
       | values => smooth values
       end).

Definition with_datetime (ts : Z) (row : HourRecord) : HourRecord :=
  {| datetime := ts;
     demand := demand row;
     solar_available := solar_available row;
     wind_available := wind_available row;
     hydro_available := hydro_available row;
     price := price row |}.

(** [forecast_next_24h]; [window] and [forecast_hours] are counts. *)
Definition forecast_next_24h (df : ForecastSeries) (method : string)
  (window forecast_hours : nat) : result ForecastSeries :=
  if String.eqb method "last_day" then
    let pattern_length := Nat.min forecast_hours (List.length df) in
    let pattern := tail pattern_length df in
    (last <- last_timestamp df ;;
     for_each
       (fun its =>
          let '(i, ts) := its in
          match List.length pattern with
          | O => Raises ZeroDivisionError
          | S _ =>
              match nth_error pattern (i mod List.length pattern) with
              | Some row => Returns (with_datetime ts row)
              | None => Raises IndexError
              end
          end)
       (enumerate (date_range last forecast_hours)))%result
  else if String.eqb method "average" then
    (last <- last_timestamp df ;;
     for_each (hourly_average_row df) (date_range last forecast_hours))%result
  else if String.eqb method "moving_average" then
    let recent_data := tail (window * 24) df in
    (last <- last_timestamp df ;;
     for_each (hourly_average_row recent_data)
       (date_range last forecast_hours))%result
  else if String.eqb method "exponential_smoothing" then
    (last <- last_timestamp df ;;
     for_each (fun ts => Returns (smoothed_row df ts))
       (date_range last forecast_hours))%result
  else Raises (ValueError ("Unknown forecasting method: " ++ method)).

(** One row of [add_forecast_uncertainty]: the forecast row and the lower
    and upper bound of each of its four quantity columns. *)
Record UncertainRow : Type := mkUncertainRow {
  u_row : HourRecord;
  demand_lower : Q;
  demand_upper : Q;
  solar_available_lower : Q;
  solar_available_upper : Q;
  wind_available_lower : Q;
  wind_available_upper : Q;
  hydro_available_lower : Q;
  hydro_available_upper : Q
}.

Definition add_forecast_uncertainty (forecast_df : ForecastSeries)
  (uncertainty : Q) : list UncertainRow :=
  map (fun row =>
         {| u_row := row;
            demand_lower := demand row * (1 - uncertainty);
            demand_upper := demand row * (1 + uncertainty);
            solar_available_lower := solar_available row * (1 - uncertainty);
            solar_available_upper := solar_available row * (1 + uncertainty);
            wind_available_lower := wind_available row * (1 - uncertainty);
            wind_available_upper := wind_available row * (1 + uncertainty);
            hydro_available_lower := hydro_available row * (1 - uncertainty);
            hydro_available_upper := hydro_available row * (1 + uncertainty) |})
      forecast_df.

(** The five data columns of a series. *)
Definition data_columns : list (HourRecord -> Q) :=
  [demand; solar_available; wind_available; hydro_available; price].

(** The forecasting methods the code knows. *)
Definition known_method (method : string) : Prop :=
  method = "last_day"%string \/ method = "average"%string \/
  method = "moving_average"%string \/
  method = "exponential_smoothing"%string.

(** The frame the hourly averages of a method are grouped from. *)
Definition averaged_frame (method : string) (window : nat)
  (df : ForecastSeries) : ForecastSeries :=
  if String.eqb method "average" then df else tail (window * 24) df.

(* ================================================================== *)
(** * carbon_intensity.py: get_all_carbon_intensities *)

Record IntensityRow : Type := mkIntensityRow {
  ci_hour : Z;
  solar_intensity : Q;
  wind_intensity : Q;
  hydro_intensity : Q
}.

(** [range(hours)] is empty for a negative [hours]. *)
Definition get_all_carbon_intensities (hours : Z) : list IntensityRow :=
  map (fun hour =>
         let h := (Z.of_nat hour mod 24)%Z in
         {| ci_hour := h;
            solar_intensity := get_carbon_intensity h "solar";
            wind_intensity := get_carbon_intensity h "wind";
            hydro_intensity := get_carbon_intensity h "hydro" |})
      (seq 0 (Z.to_nat hours)).

(** ** The float model and the frames with number types *)










(* ================================================================== *)
(** * Theorems *)

(** ** Arithmetic helpers *)

Lemma gt0_spec (x : Q) : BoolSpec (0 < x) (x <= 0) (gt0 x).
Proof. unfold gt0. destruct (Qlt_le_dec 0 x); constructor; assumption. Qed.

Lemma Qmin_cases (x y : Q) :
  (x <= y /\ Qmin x y = x) \/ (y < x /\ Qmin x y = y).
Proof.
  unfold Qmin, GenericMinMax.gmin.
  destruct (x ?= y) eqn:E.
  - left. split; [apply Qeq_alt in E; lra | reflexivity].
  - left. split; [apply Qlt_alt in E; lra | reflexivity].
  - right. split; [apply Qgt_alt in E; lra | reflexivity].
Qed.

Lemma div_efficiency (y : Q) : y / efficiency * efficiency == y.
Proof. unfold efficiency. field. Qed.

Lemma share_bounds (e c t : Q) :
  0 <= e -> 0 <= c -> c <= t -> 0 < t -> 0 <= e * (c / t) /\ e * (c / t) <= e.
Proof.
  intros He Hc Hct Ht.
  assert (H1 : c / t <= 1) by (apply Qle_shift_div_r; lra).
  assert (H0 : 0 <= c / t) by (apply Qle_shift_div_l; lra).
  split; nra.
Qed.

Lemma shares_total (a b c ch : Q) :
  0 < a + b + c ->
  a * (ch / (a + b + c)) + b * (ch / (a + b + c)) + c * (ch / (a + b + c)) == ch.
Proof. intros H. field. lra. Qed.

(** Case analysis on the tests and minima of one greedy hour, innermost
    first, closing the branches whose tests contradict each other. *)
Ltac greedy_split :=
  repeat (first
    [ match goal with
      | |- context [Qmin ?x ?y] =>
          lazymatch x with
          | context [Qmin _ _] => fail
          | context [gt0 _] => fail
          | _ => lazymatch y with
                 | context [Qmin _ _] => fail
                 | context [gt0 _] => fail
                 | _ => let H := fresh "Hmin" in
                        destruct (Qmin_cases x y) as [[H ->] | [H ->]]
                 end
          end
      end
    | match goal with
      | |- context [gt0 ?x] =>
          lazymatch x with
          | context [Qmin _ _] => fail
          | context [gt0 _] => fail
          | _ => destruct (gt0_spec x)
          end
      end ];
    cbv beta iota; try (exfalso; lra)).

Lemma greedy_hour_balance (cap mr lvl : Q) (t : nat) (row : HourRecord) :
  let h := fst (greedy_hour cap mr lvl t row) in
  hr_solar_use h + hr_wind_use h + hr_hydro_use h
  + hr_battery_discharge h - hr_battery_charge h + hr_unmet_demand h
  == demand row.
Proof.
  unfold greedy_hour, min3. cbv zeta.
  destruct row as [dt dem sa wa ha pr]; cbn [demand solar_available wind_available hydro_available price datetime].
  greedy_split.
  all: cbn [fst hr_solar_use hr_wind_use hr_hydro_use hr_battery_discharge
         hr_battery_charge hr_unmet_demand].
  all: try lra.
  all: match goal with
       | |- context [?a * (?ch / (?a + ?b + ?c))] =>
           pose proof (shares_total a b c ch ltac:(lra))
       end.
  all: lra.
Qed.

(** Replace the quotients of a goal by fresh variables carrying the facts
    linear arithmetic needs about them. *)
Ltac name_quotients :=
  repeat match goal with
    | |- context [?y / efficiency] =>
        let z := fresh "z" in
        pose proof (div_efficiency y);
        set (z := y / efficiency) in *; clearbody z
    | _ : context [?y / efficiency] |- _ =>
        let z := fresh "z" in
        pose proof (div_efficiency y);
        set (z := y / efficiency) in *; clearbody z
    end;
  unfold efficiency in *;
  repeat match goal with
    | |- context [?e * (?c / ?t)] =>
        let v := fresh "v" in
        pose proof (share_bounds e c t ltac:(lra) ltac:(lra) ltac:(lra) ltac:(lra));
        set (v := e * (c / t)) in *; clearbody v
    end.

Lemma greedy_hour_ceilings (cap mr lvl : Q) (t : nat) (row : HourRecord) :
  0 <= demand row -> 0 <= solar_available row ->
  0 <= wind_available row -> 0 <= hydro_available row ->
  0 <= mr -> 0 <= lvl -> lvl <= cap ->
  let h := fst (greedy_hour cap mr lvl t row) in
  (0 <= hr_solar_use h /\ hr_solar_use h <= solar_available row) /\
  (0 <= hr_wind_use h /\ hr_wind_use h <= wind_available row) /\
  (0 <= hr_hydro_use h /\ hr_hydro_use h <= hydro_available row) /\
  (0 <= hr_battery_charge h /\ hr_battery_charge h <= mr) /\
  (0 <= hr_battery_discharge h /\ hr_battery_discharge h <= mr) /\
  (0 <= hr_battery_level h /\ hr_battery_level h <= cap) /\
  (0 <= hr_unmet_demand h) /\
  (0 < hr_unmet_demand h ->
   hr_solar_use h == solar_available row /\
   hr_wind_use h == wind_available row /\
   hr_hydro_use h == hydro_available row /\
   hr_battery_discharge h == Qmin mr lvl).
Proof.
  unfold greedy_hour, min3. cbv zeta.
  destruct row as [dt dem sa wa ha pr];
    cbn [demand solar_available wind_available hydro_available price datetime].
  intros Hdem Hsa Hwa Hha Hmr Hlvl Hcap.
  greedy_split.
  all: cbn [fst hr_solar_use hr_wind_use hr_hydro_use hr_battery_discharge
         hr_battery_charge hr_battery_level hr_unmet_demand].
  all: name_quotients.
  all: repeat match goal with
              | |- _ /\ _ => split
              | |- 0 < _ -> _ => intro
              end.
  all: lra.
Qed.

(** ** The greedy loop *)

Lemma greedy_hour_fields (cap mr lvl : Q) (t : nat) (row : HourRecord) :
  let r := greedy_hour cap mr lvl t row in
  hr_hour (fst r) = t /\ hr_datetime (fst r) = datetime row /\
  hr_demand (fst r) = demand row /\ hr_price (fst r) = price row /\
  snd r = hr_battery_level (fst r).
Proof.
  unfold greedy_hour. cbv zeta.
  repeat match goal with
         | |- context [let '(_, _) := (if ?c then _ else _) in _] => destruct c
         end; cbn; repeat split; reflexivity.
Qed.

Lemma greedy_loop_length (cap mr : Q) (rows : list (nat * HourRecord)) :
  forall lvl, List.length (greedy_loop cap mr lvl rows) = List.length rows.
Proof.
  induction rows as [| [t row] rest IH]; intros lvl; cbn [greedy_loop].
  - reflexivity.
  - destruct (greedy_hour cap mr lvl t row) as [h lvl'].
    cbn [List.length]. now rewrite IH.
Qed.

Lemma greedy_loop_step (cap mr : Q) (rows : list (nat * HourRecord)) :
  forall lvl i h,
    nth_error (greedy_loop cap mr lvl rows) i = Some h ->
    exists t row,
      nth_error rows i = Some (t, row) /\
      h = fst (greedy_hour cap mr
                 (level_before lvl (greedy_loop cap mr lvl rows) i) t row).
Proof.
  induction rows as [| [t row] rest IH]; intros lvl i h Hnth.
  - destruct i; discriminate.
  - cbn [greedy_loop] in *.
    pose proof (greedy_hour_fields cap mr lvl t row) as (_ & _ & _ & _ & Hlvl).
    destruct (greedy_hour cap mr lvl t row) as [h0 lvl'] eqn:Estep.
    cbn [fst snd] in Hlvl. subst lvl'.
    destruct i as [| i].
    + cbn in Hnth. injection Hnth as <-.
      exists t, row. split; [reflexivity |].
      cbn [level_before]. now rewrite Estep.
    + cbn [nth_error] in Hnth.
      destruct (IH _ _ _ Hnth) as (t' & row' & Hrow & Hh).
      exists t', row'. split; [exact Hrow |].
      rewrite Hh at 1. f_equal. f_equal.
      destruct i as [| j]; [reflexivity |].
      cbn [level_before nth_error].
      destruct (nth_error (greedy_loop cap mr (hr_battery_level h0) rest) j) eqn:Ej;
        [reflexivity |].
      exfalso.
      apply nth_error_None in Ej.
      assert (Hsome : nth_error (greedy_loop cap mr (hr_battery_level h0) rest) (S j) <> None)
        by congruence.
      apply nth_error_Some in Hsome. lia.
Qed.

Lemma enumerate_nth {A : Type} (l : list A) (i : nat) (t : nat) (x : A) :
  nth_error (enumerate l) i = Some (t, x) -> t = i /\ nth_error l i = Some x.
Proof.
  unfold enumerate. intros H.
  assert (Hlen : (i < List.length (combine (seq 0 (List.length l)) l))%nat)
    by (apply nth_error_Some; congruence).
  rewrite length_combine, length_seq, Nat.min_id in Hlen.
  destruct (nth_error l i) as [y |] eqn:Ey;
    [| apply nth_error_None in Ey; lia].
  assert (Hs : nth_error (seq 0 (List.length l)) i = Some i).
  { rewrite nth_error_nth' with (d := O) by (rewrite length_seq; lia).
    now rewrite seq_nth. }
  pose proof (nth_error_nth (combine (seq 0 (List.length l)) l) i (O, x) H) as Hn.
  rewrite combine_nth in Hn by now rewrite length_seq.
  rewrite (nth_error_nth _ _ O Hs), (nth_error_nth _ _ x Ey) in Hn.
  injection Hn as -> ->. now split.
Qed.

Lemma greedy_level_invariant (cap mr init : Q) (rows : list (nat * HourRecord)) :
  (forall t row, In (t, row) rows -> nonneg_row row) ->
  0 <= mr -> 0 <= init -> init <= cap ->
  forall i, (i <= List.length rows)%nat ->
    0 <= level_before init (greedy_loop cap mr init rows) i /\
    level_before init (greedy_loop cap mr init rows) i <= cap.
Proof.
  intros Hrows Hmr H0 Hcap.
  induction i as [| i IH]; intros Hi.
  - cbn. split; assumption.
  - cbn [level_before].
    destruct (nth_error (greedy_loop cap mr init rows) i) as [h |] eqn:Eh.
    + destruct (greedy_loop_step _ _ _ _ _ _ Eh) as (t & row & Hrow & ->).
      destruct IH as [IH0 IHc]; [lia |].
      destruct (Hrows t row (nth_error_In _ _ Hrow)) as (Hd & Hs & Hw & Hh).
      pose proof (greedy_hour_ceilings cap mr _ t row Hd Hs Hw Hh Hmr IH0 IHc)
        as (_ & _ & _ & _ & _ & Hlev & _).
      exact Hlev.
    + split; assumption.
Qed.

(** ** Sums over the hours of a plan *)

Lemma fold_left_Qplus_acc (l : list Q) :
  forall a, fold_left Qplus l a == a + fold_left Qplus l 0.
Proof.
  induction l as [| x l IH]; intros a; cbn [fold_left].
  - lra.
  - rewrite (IH (a + x)), (IH (0 + x)). lra.
Qed.

Lemma series_sum_map (f : HourResult -> Q) (l : list HourResult) :
  series_sum (map f l) == sum_over f l.
Proof.
  unfold series_sum.
  induction l as [| h l IH]; cbn [map fold_left sum_over fold_right].
  - reflexivity.
  - rewrite fold_left_Qplus_acc. unfold sum_over in IH. rewrite IH. lra.
Qed.

Lemma series_mul_map (f g : HourResult -> Q) (l : list HourResult) :
  series_mul (map f l) (map g l) = map (fun h => f h * g h) l.
Proof.
  unfold series_mul.
  induction l as [| h l IH]; cbn [map combine]; [reflexivity |].
  cbn [fst snd]. now rewrite IH.
Qed.

Lemma series_add_map (f g : HourResult -> Q) (l : list HourResult) :
  series_add (map f l) (map g l) = map (fun h => f h + g h) l.
Proof.
  unfold series_add.
  induction l as [| h l IH]; cbn [map combine]; [reflexivity |].
  cbn [fst snd]. now rewrite IH.
Qed.

Lemma series_scale_map (f : HourResult -> Q) (k : Q) (l : list HourResult) :
  series_scale (map f l) k = map (fun h => f h * k) l.
Proof. unfold series_scale. now rewrite map_map. Qed.

Lemma sum_over_plus (f g : HourResult -> Q) (l : list HourResult) :
  sum_over (fun h => f h + g h) l == sum_over f l + sum_over g l.
Proof.
  induction l as [| h l IH]; cbn [sum_over fold_right].
  - lra.
  - unfold sum_over in IH. rewrite IH. lra.
Qed.

Lemma sum_over_ext (f g : HourResult -> Q) (l : list HourResult) :
  (forall h, f h == g h) -> sum_over f l == sum_over g l.
Proof.
  intros Hfg.
  induction l as [| h l IH]; cbn [sum_over fold_right].
  - reflexivity.
  - unfold sum_over in IH. rewrite IH, (Hfg h). reflexivity.
Qed.

Lemma column_nonempty (l : list HourResult) (name : string)
  (field : HourResult -> Q) :
  l <> [] -> column l name field = Ok (map field l).
Proof. destruct l; [congruence | reflexivity]. Qed.

Lemma frame_total_cost_ok (l : list HourResult) :
  l <> [] ->
  exists c, frame_total_cost l = Ok c /\ c == sum_over hour_cost_of l.
Proof.
  intros Hne. unfold frame_total_cost.
  rewrite !(column_nonempty l _ _ Hne). cbn [obind].
  eexists. split; [reflexivity |].
  rewrite !series_mul_map, !series_scale_map, !series_sum_map.
  unfold hour_cost_of. rewrite !sum_over_plus. reflexivity.
Qed.

Lemma frame_total_cost_empty : frame_total_cost [] = Raise (KeyError "solar_use").
Proof. reflexivity. Qed.

Lemma emission_factors_values : base_factors emission_factors.
Proof. repeat split; reflexivity. Qed.

Lemma greedy_emission_factors_values : base_factors greedy_emission_factors.
Proof. repeat split; reflexivity. Qed.

Lemma frame_fixed_emissions_ok (d : list (string * Q)) (l : list HourResult) :
  base_factors d ->
  l <> [] ->
  exists e,
    frame_fixed_emissions d l = Ok e /\
    e == sum_over hour_fixed_emissions_of l.
Proof.
  intros (Hs & Hw & Hh) Hne. unfold frame_fixed_emissions.
  rewrite !(column_nonempty l _ _ Hne). cbn [obind].
  eexists. split; [reflexivity |].
  rewrite Hs, Hw, Hh.
  rewrite !series_scale_map, !series_add_map, series_sum_map.
  reflexivity.
Qed.

Lemma frame_total_unmet_ok (l : list HourResult) :
  l <> [] ->
  exists u, frame_total_unmet l = Ok u /\ u == sum_over hr_unmet_demand l.
Proof.
  intros Hne. unfold frame_total_unmet.
  rewrite (column_nonempty l _ _ Hne). cbn [obind].
  eexists. split; [reflexivity |]. apply series_sum_map.
Qed.

Lemma iterrows_emissions_sum (l : list HourResult) :
  iterrows_emissions l == sum_over hour_varying_emissions_of l.
Proof.
  unfold iterrows_emissions.
  assert (G : forall a,
    fold_left
      (fun emissions row =>
         emissions
         + (hr_solar_use row
            * get_carbon_intensity (hour_of (hr_datetime row)) "solar"
            + hr_wind_use row
              * get_carbon_intensity (hour_of (hr_datetime row)) "wind"
            + hr_hydro_use row
              * get_carbon_intensity (hour_of (hr_datetime row)) "hydro"))
      l a == a + sum_over hour_varying_emissions_of l).
  { induction l as [| h l IH]; intros a; cbn [fold_left sum_over fold_right].
    - lra.
    - rewrite IH. unfold sum_over, hour_varying_emissions_of. lra. }
  rewrite G. lra.
Qed.

(** ** The greedy plan as a whole *)

Lemma greedy_hours_length (df : ForecastSeries) (cap init : Q) :
  List.length (greedy_hours df cap init) = List.length df.
Proof.
  unfold greedy_hours. rewrite greedy_loop_length.
  unfold enumerate. rewrite length_combine, length_seq. apply Nat.min_id.
Qed.

Lemma greedy_hours_nonempty (df : ForecastSeries) (cap init : Q) :
  df <> [] -> greedy_hours df cap init <> [].
Proof.
  intros Hne Hnil. apply (f_equal (@List.length _)) in Hnil.
  rewrite greedy_hours_length in Hnil. destruct df; [congruence | discriminate].
Qed.

Lemma greedy_hours_nth (df : ForecastSeries) (cap init : Q) (t : nat)
  (h : HourResult) :
  nth_error (greedy_hours df cap init) t = Some h ->
  exists row,
    nth_error df t = Some row /\
    h = fst (greedy_hour cap (cap * 0.2)
               (level_before init (greedy_hours df cap init) t) t row).
Proof.
  unfold greedy_hours. intros Hnth.
  destruct (greedy_loop_step _ _ _ _ _ _ Hnth) as (t' & row & Hrow & Hh).
  apply enumerate_nth in Hrow as [-> Hrow].
  exists row. split; assumption.
Qed.

(** On a nonempty series the greedy dispatcher returns its plan; on the
    empty series the totals raise. *)
Lemma greedy_energy_mix_ok (df : ForecastSeries) (cap init : Q) :
  df <> [] ->
  exists c e u,
    greedy_energy_mix df cap init
    = Ok {| status := "Greedy"; error := None; objective_value := None;
            hours := greedy_hours df cap init;
            total_cost := Finite c; total_emissions := Finite e;
            total_unmet := Finite u; days := None |} /\
    c == sum_over hour_cost_of (greedy_hours df cap init) /\
    e == sum_over hour_fixed_emissions_of (greedy_hours df cap init) /\
    u == sum_over hr_unmet_demand (greedy_hours df cap init).
Proof.
  intros Hne. pose proof (greedy_hours_nonempty df cap init Hne) as Hh.
  destruct (frame_total_cost_ok _ Hh) as (c & Ec & Hc).
  destruct (frame_fixed_emissions_ok _ _ greedy_emission_factors_values Hh)
    as (e & Ee & He).
  destruct (frame_total_unmet_ok _ Hh) as (u & Eu & Hu).
  exists c, e, u. unfold greedy_energy_mix.
  rewrite Ec, Ee, Eu. cbn [obind]. repeat split; assumption.
Qed.

Lemma greedy_energy_mix_empty (cap init : Q) :
  greedy_energy_mix [] cap init = Raise (KeyError "solar_use").
Proof. reflexivity. Qed.

(** ** Feasibility *)

Lemma holdsb_sound (tol : Q) (x : LpVariable -> Q) (c : LpConstraint) :
  holdsb tol x c = true -> holds tol x c.
Proof.
  unfold holdsb, holds. destruct (c_sense c); apply Qle_bool_imp_le.
Qed.

Lemma within_boundsb_sound (tol : Q) (x : LpVariable -> Q) (b : LpBound) :
  within_boundsb tol x b = true -> within_bounds tol x b.
Proof.
  unfold within_boundsb, within_bounds. intros H.
  apply andb_true_iff in H as [Hl Hu]. split.
  - destruct (lowBound b); [now apply Qle_bool_imp_le | exact I].
  - destruct (upBound b); [now apply Qle_bool_imp_le | exact I].
Qed.

Lemma feasibleb_sound (tol : Q) (x : LpVariable -> Q) (prob : LpProblem) :
  feasibleb tol x prob = true -> feasible tol x prob.
Proof.
  unfold feasibleb, feasible. intros H.
  apply andb_true_iff in H as [Hc Hb].
  rewrite forallb_forall in Hc, Hb. split; apply Forall_forall; intros y Hy.
  - apply holdsb_sound, Hc, Hy.
  - apply within_boundsb_sound, Hb, Hy.
Qed.

Lemma holds_unlabelled (tol : Q) (x : LpVariable -> Q) (c : LpConstraint) :
  holds tol x (unlabelled c) <-> holds tol x c.
Proof. reflexivity. Qed.

Lemma Forall_holds_unlabelled (tol : Q) (x : LpVariable -> Q)
  (l : list LpConstraint) :
  Forall (holds tol x) (map unlabelled l) <-> Forall (holds tol x) l.
Proof.
  rewrite Forall_map. split; apply Forall_impl; intros c; apply holds_unlabelled.
Qed.

(** Feasibility does not see the labels. *)
Lemma same_model_feasible (tol : Q) (x : LpVariable -> Q) (p q : LpProblem) :
  same_model p q -> (feasible tol x p <-> feasible tol x q).
Proof.
  intros (Hv & _ & Hc). unfold feasible.
  rewrite <- (Forall_holds_unlabelled tol x (lp_constraints p)).
  rewrite <- (Forall_holds_unlabelled tol x (lp_constraints q)).
  now rewrite Hv, Hc.
Qed.

Lemma hour_constraints_unlabelled (d1 b1 e1 d2 b2 e2 : string) (cap : Q)
  (t : nat) (row : HourRecord) :
  map unlabelled (hour_constraints d1 b1 e1 cap t row)
  = map unlabelled (hour_constraints d2 b2 e2 cap t row).
Proof. reflexivity. Qed.

Lemma map_flat_map_constraints (f g : nat * HourRecord -> list LpConstraint)
  (rows : list (nat * HourRecord)) :
  (forall tr, map unlabelled (f tr) = map unlabelled (g tr)) ->
  map unlabelled (flat_map f rows) = map unlabelled (flat_map g rows).
Proof.
  intros Hfg. induction rows as [| tr rows IH]; cbn [flat_map].
  - reflexivity.
  - now rewrite !map_app, Hfg, IH.
Qed.

(** The single-day model and the multi-day model without its terminal band
    are one model: same variables, objective and constraints, under
    different labels. *)
Lemma single_day_model_is_multiday_without_band (df : ForecastSeries)
  (cap init cw ew : Q) (tv : bool) :
  same_model (energy_mix_problem df cap init cw ew tv)
             (multiday_problem_without_band df cap init cw ew tv).
Proof.
  repeat split. cbn [lp_constraints energy_mix_problem
                       multiday_problem_without_band].
  unfold multiday_hourly_constraints. cbn [map]. f_equal.
  apply map_flat_map_constraints. intros tr.
  apply hour_constraints_unlabelled.
Qed.

(** The multi-day model is the single-day model plus the terminal band. *)
Lemma multiday_feasible_iff (x : LpVariable -> Q) (df : ForecastSeries)
  (cap init cw ew : Q) (tv : bool) :
  feasible 0 x (multiday_problem df cap init cw ew tv) <->
  feasible 0 x (energy_mix_problem df cap init cw ew tv) /\
  in_band cap (x (battery_level (List.length df))).
Proof.
  rewrite (same_model_feasible 0 x _ _
             (single_day_model_is_multiday_without_band df cap init cw ew tv)).
  unfold feasible, in_band.
  cbn [lp_constraints lp_variables multiday_problem
         multiday_problem_without_band].
  rewrite Forall_app. unfold terminal_band.
  rewrite !Forall_cons_iff, Forall_nil_iff.
  unfold holds; cbn [c_sense c_lhs c_rhs value].
  intuition lra.
Qed.

(** ** The rows of an extracted plan *)

Lemma extract_hours_length (x : LpVariable -> Q) (df : ForecastSeries) :
  List.length (extract_hours x df) = List.length df.
Proof.
  unfold extract_hours, enumerate.
  rewrite length_map, length_combine, length_seq. apply Nat.min_id.
Qed.

Lemma extract_hours_nonempty (x : LpVariable -> Q) (df : ForecastSeries) :
  df <> [] -> extract_hours x df <> [].
Proof.
  intros Hne Hnil. apply (f_equal (@List.length _)) in Hnil.
  rewrite extract_hours_length in Hnil. destruct df; [congruence | discriminate].
Qed.

Lemma extract_hours_nth (x : LpVariable -> Q) (df : ForecastSeries) (t : nat)
  (h : HourResult) :
  nth_error (extract_hours x df) t = Some h ->
  exists row, nth_error df t = Some row /\ h = hour_result x t row.
Proof.
  unfold extract_hours. intros Hnth.
  rewrite nth_error_map in Hnth.
  destruct (nth_error (enumerate df) t) as [[t' row] |] eqn:E; [| discriminate].
  apply enumerate_nth in E as [-> Hrow].
  injection Hnth as <-. exists row. now split.
Qed.

Lemma enumerate_In {A : Type} (l : list A) (t : nat) (a : A) :
  nth_error l t = Some a -> In (t, a) (enumerate l).
Proof.
  intros Hnth. unfold enumerate.
  assert (Hlt : (t < List.length l)%nat) by (apply nth_error_Some; congruence).
  assert (Hs : nth_error (seq 0 (List.length l)) t = Some t).
  { rewrite nth_error_nth' with (d := O) by (rewrite length_seq; lia).
    now rewrite seq_nth. }
  apply (nth_error_In _ t).
  rewrite nth_error_nth' with (d := (O, a))
    by (rewrite length_combine, length_seq; lia).
  rewrite combine_nth by now rewrite length_seq.
  now rewrite (nth_error_nth _ _ O Hs), (nth_error_nth _ _ a Hnth).
Qed.

(** Every constraint of hour [t] belongs to both models. *)
Lemma hour_constraints_in_single (df : ForecastSeries) (cap init cw ew : Q)
  (tv : bool) (t : nat) (row : HourRecord) (c : LpConstraint) :
  nth_error df t = Some row ->
  In c (hour_constraints "Demand_constraint_" "Battery_dynamics_"
          "No_simultaneous_" cap t row) ->
  In c (lp_constraints (energy_mix_problem df cap init cw ew tv)).
Proof.
  intros Hrow Hc. cbn [lp_constraints energy_mix_problem]. right.
  apply in_flat_map. exists (t, row). split; [now apply enumerate_In | exact Hc].
Qed.

Lemma hour_constraints_in_multiday (df : ForecastSeries) (cap init cw ew : Q)
  (tv : bool) (t : nat) (row : HourRecord) (c : LpConstraint) :
  nth_error df t = Some row ->
  In c (hour_constraints "Demand_" "Battery_" "No_simul_" cap t row) ->
  In c (lp_constraints (multiday_problem df cap init cw ew tv)).
Proof.
  intros Hrow Hc. cbn [lp_constraints multiday_problem].
  apply in_or_app. left. right.
  apply in_flat_map. exists (t, row). split; [now apply enumerate_In | exact Hc].
Qed.

(** ** Running the optimizers *)

Lemma is_optimal_false (s : LpStatus) :
  s <> LpStatusOptimal -> is_optimal s = false.
Proof. destruct s; [reflexivity | congruence | reflexivity ..]. Qed.

Lemma optimize_energy_mix_not_optimal (solve : LpProblem -> LpSolution)
  (df : ForecastSeries) (cap init cw ew : Q) (tv : bool)
  (log : list LpProblem) :
  let prob := energy_mix_problem df cap init cw ew tv in
  lp_status (solve prob) <> LpStatusOptimal ->
  optimize_energy_mix solve df cap init cw ew tv log
  = (Ok (failure "Optimization failed with status: " (lp_status (solve prob))),
     log ++ [prob]).
Proof.
  intros prob Hst. unfold optimize_energy_mix, bind, prob_solve.
  fold prob. now rewrite (is_optimal_false _ Hst).
Qed.

Lemma optimize_energy_mix_optimal (solve : LpProblem -> LpSolution)
  (df : ForecastSeries) (cap init cw ew : Q) (tv : bool)
  (log : list LpProblem) :
  let prob := energy_mix_problem df cap init cw ew tv in
  let plan_hours := extract_hours (varValue (solve prob)) df in
  lp_status (solve prob) = LpStatusOptimal ->
  df <> [] ->
  exists c e u,
    optimize_energy_mix solve df cap init cw ew tv log
    = (Ok {| status := "Optimal"; error := None;
             objective_value :=
               Some (value (varValue (solve prob)) (lp_objective prob));
             hours := plan_hours;
             total_cost := Finite c; total_emissions := Finite e;
             total_unmet := Finite u; days := None |},
       log ++ [prob]) /\
    c == sum_over hour_cost_of plan_hours /\
    e == sum_over hour_fixed_emissions_of plan_hours /\
    u == sum_over hr_unmet_demand plan_hours.
Proof.
  intros prob plan_hours Hst Hne.
  pose proof (extract_hours_nonempty (varValue (solve prob)) df Hne) as Hh.
  destruct (frame_total_cost_ok _ Hh) as (c & Ec & Hc).
  destruct (frame_fixed_emissions_ok _ _ emission_factors_values Hh)
    as (e & Ee & He).
  destruct (frame_total_unmet_ok _ Hh) as (u & Eu & Hu).
  exists c, e, u. split; [| repeat split; assumption].
  unfold optimize_energy_mix, bind, prob_solve, lift, ret.
  fold prob. rewrite Hst. cbn [is_optimal negb].
  fold plan_hours. unfold plan_hours at 1 2 3.
  rewrite Ec, Ee, Eu. reflexivity.
Qed.

Lemma optimize_energy_mix_empty (solve : LpProblem -> LpSolution)
  (cap init cw ew : Q) (tv : bool) (log : list LpProblem) :
  let prob := energy_mix_problem [] cap init cw ew tv in
  lp_status (solve prob) = LpStatusOptimal ->
  optimize_energy_mix solve [] cap init cw ew tv log
  = (Raise (KeyError "solar_use"), log ++ [prob]).
Proof.
  intros prob Hst. unfold optimize_energy_mix, bind, prob_solve, lift.
  fold prob. rewrite Hst. reflexivity.
Qed.

Lemma multiday_report_not_optimal (solve : LpProblem -> LpSolution)
  (prob : LpProblem) (df : ForecastSeries) (days_arg : nat) (tv : bool)
  (log : list LpProblem) :
  lp_status (solve prob) <> LpStatusOptimal ->
  multiday_solve_and_report solve prob df days_arg tv log
  = (Ok (failure "Multi-day optimization failed: " (lp_status (solve prob))),
     log ++ [prob]).
Proof.
  intros Hst. unfold multiday_solve_and_report, bind, prob_solve.
  now rewrite (is_optimal_false _ Hst).
Qed.

Lemma multiday_report_optimal (solve : LpProblem -> LpSolution)
  (prob : LpProblem) (df : ForecastSeries) (days_arg : nat) (tv : bool)
  (log : list LpProblem) :
  let plan_hours := extract_hours (varValue (solve prob)) df in
  lp_status (solve prob) = LpStatusOptimal ->
  df <> [] ->
  exists c e u,
    multiday_solve_and_report solve prob df days_arg tv log
    = (Ok {| status := "Optimal"; error := None;
             objective_value :=
               Some (value (varValue (solve prob)) (lp_objective prob));
             hours := plan_hours;
             total_cost := Finite c; total_emissions := Finite e;
             total_unmet := Finite u; days := Some days_arg |},
       log ++ [prob]) /\
    c == sum_over hour_cost_of plan_hours /\
    e == (if tv then sum_over hour_varying_emissions_of plan_hours
          else sum_over hour_fixed_emissions_of plan_hours) /\
    u == sum_over hr_unmet_demand plan_hours.
Proof.
  intros plan_hours Hst Hne.
  pose proof (extract_hours_nonempty (varValue (solve prob)) df Hne) as Hh.
  destruct (frame_total_cost_ok _ Hh) as (c & Ec & Hc).
  destruct (frame_fixed_emissions_ok _ _ emission_factors_values Hh)
    as (e & Ee & He).
  destruct (frame_total_unmet_ok _ Hh) as (u & Eu & Hu).
  exists c, (if tv then iterrows_emissions plan_hours else e), u.
  split; [| repeat split; try assumption;
            destruct tv; [apply iterrows_emissions_sum | exact He]].
  unfold multiday_solve_and_report, bind, prob_solve, lift, ret.
  rewrite Hst. cbn [is_optimal negb].
  fold plan_hours. unfold plan_hours at 1 2 3 4.
  rewrite Ec, Eu. destruct tv; [reflexivity |]. now rewrite Ee.
Qed.

Lemma multiday_report_empty (solve : LpProblem -> LpSolution)
  (prob : LpProblem) (days_arg : nat) (tv : bool) (log : list LpProblem) :
  lp_status (solve prob) = LpStatusOptimal ->
  multiday_solve_and_report solve prob [] days_arg tv log
  = (Raise (KeyError "solar_use"), log ++ [prob]).
Proof.
  intros Hst. unfold multiday_solve_and_report, bind, prob_solve, lift.
  rewrite Hst. reflexivity.
Qed.

Lemma status_eq_dec (s : LpStatus) :
  {s = LpStatusOptimal} + {s <> LpStatusOptimal}.
Proof. destruct s; (left; reflexivity) || (right; discriminate). Qed.

(** ** The carbon intensity lookup *)

Lemma base_emissions_unknown (source : string) :
  source <> "solar"%string -> source <> "wind"%string ->
  source <> "hydro"%string ->
  dict_get base_emissions source 0 = 0.
Proof.
  intros Hs Hw Hh. unfold dict_get, base_emissions. cbn [find fst snd].
  destruct (String.eqb_spec "solar" source) as [E | _]; [now subst |].
  destruct (String.eqb_spec "wind" source) as [E | _]; [now subst |].
  destruct (String.eqb_spec "hydro" source) as [E | _]; [now subst |].
  reflexivity.
Qed.

(** C10.  For every hour and every source other than solar, wind and hydro
    the lookup returns: the base factor it finds is the default 0, and the
    intensity, that factor times the band multiplier, is 0. *)
Theorem unknown_source_intensity_is_zero (hour : Z) (source : string) :
  source <> "solar"%string -> source <> "wind"%string ->
  source <> "hydro"%string ->
  dict_get base_emissions source 0 = 0 /\
  get_carbon_intensity hour source == 0.
Proof.
  intros Hs Hw Hh.
  pose proof (base_emissions_unknown source Hs Hw Hh) as Hbase.
  split; [exact Hbase |].
  unfold get_carbon_intensity. rewrite Hbase. lra.
Qed.

Lemma unknown_source_intensity_is_zero_witness :
  dict_get base_emissions "coal" 0 = 0 /\
  get_carbon_intensity 18 "coal" == 0.
Proof.
  apply (unknown_source_intensity_is_zero 18 "coal"); discriminate.
Defined.

(** ** The greedy dispatcher *)

(** C5.  On a series with nonnegative demand and availabilities and a
    battery whose initial charge lies in [0, capacity], the greedy plan
    has one record per hour and, in every hour: the level carried into the
    hour and the level reported after it lie in [0, capacity]; each source's
    reported use lies between 0 and its availability; charge and discharge
    lie between 0 and max_rate = 0.2 * capacity; and if the unmet demand is
    positive then every source is used at its availability and the discharge
    is min(max_rate, level carried into the hour).  (No plan is returned for
    the empty series only.) *)
Theorem greedy_never_exceeds_ceilings (df : ForecastSeries) (cap init : Q) :
  (forall row, In row df -> nonneg_row row) ->
  0 <= init -> init <= cap ->
  match greedy_energy_mix df cap init with
  | Ok plan =>
      List.length (hours plan) = List.length df /\
      forall t row h,
        nth_error df t = Some row -> nth_error (hours plan) t = Some h ->
        let level := level_before init (hours plan) t in
        (0 <= level /\ level <= cap) /\
        (0 <= hr_solar_use h /\ hr_solar_use h <= solar_available row) /\
        (0 <= hr_wind_use h /\ hr_wind_use h <= wind_available row) /\
        (0 <= hr_hydro_use h /\ hr_hydro_use h <= hydro_available row) /\
        (0 <= hr_battery_charge h /\ hr_battery_charge h <= cap * 0.2) /\
        (0 <= hr_battery_discharge h /\ hr_battery_discharge h <= cap * 0.2) /\
        (0 <= hr_battery_level h /\ hr_battery_level h <= cap) /\
        (0 < hr_unmet_demand h ->
         hr_solar_use h == solar_available row /\
         hr_wind_use h == wind_available row /\
         hr_hydro_use h == hydro_available row /\
         hr_battery_discharge h == Qmin (cap * 0.2) level)
  | Raise _ => df = []
  end.
Proof.
  intros Hrows H0 Hcap.
  destruct df as [| row0 df'] eqn:Edf; [reflexivity |]. rewrite <- Edf in *.
  assert (Hne : df <> []) by (rewrite Edf; discriminate).
  destruct (greedy_energy_mix_ok df cap init Hne) as (c & e & u & -> & _).
  cbn [hours]. split; [apply greedy_hours_length |].
  intros t row h Hrow Hh.
  set (level := level_before init (greedy_hours df cap init) t).
  destruct (greedy_hours_nth _ _ _ _ _ Hh) as (row' & Hrow' & Hstep).
  rewrite Hrow in Hrow'. injection Hrow' as <-.
  assert (Hmr : 0 <= cap * 0.2) by lra.
  assert (Hlevel : 0 <= level /\ level <= cap).
  { unfold level, greedy_hours.
    apply greedy_level_invariant; try assumption.
    - intros t' row' Hin. apply Hrows.
      destruct (In_nth_error _ _ Hin) as [i Hi].
      apply enumerate_nth in Hi as [_ Hi]. exact (nth_error_In _ _ Hi).
    - assert (t < List.length df)%nat by (apply nth_error_Some; congruence).
      unfold enumerate. rewrite length_combine, length_seq. lia. }
  split; [exact Hlevel |].
  destruct (Hrows row (nth_error_In _ _ Hrow)) as (Hd & Hs & Hw & Hy).
  destruct Hlevel as [Hl0 Hlc].
  pose proof (greedy_hour_ceilings cap (cap * 0.2) level t row
                Hd Hs Hw Hy Hmr Hl0 Hlc) as Hc.
  fold level in Hstep. rewrite <- Hstep in Hc. cbv zeta in Hc.
  destruct Hc as (Hc1 & Hc2 & Hc3 & Hc4 & Hc5 & Hc6 & _ & Hc8).
  repeat (split; [assumption |]). exact Hc8.
Qed.

Lemma series_empty_dec (df : ForecastSeries) : {df = []} + {df <> []}.
Proof. destruct df; [left; reflexivity | right; discriminate]. Qed.




(** C8.  Whenever the solver reports a status other than optimal, each
    optimizer returns a plan that carries the name of that status and a
    message naming it, has no per-hour records and infinite totals; the
    solver has been called once, on the model of the call, and not again. *)
Theorem non_optimal_status_is_terminal (solve : LpProblem -> LpSolution)
  (df : ForecastSeries) (days_arg : nat) (cap init cw ew : Q) (tv : bool)
  (log : list LpProblem) :
  (let prob := energy_mix_problem df cap init cw ew tv in
   let st := lp_status (solve prob) in
   st <> LpStatusOptimal ->
   exists plan,
     optimize_energy_mix solve df cap init cw ew tv log
     = (Ok plan, log ++ [prob]) /\
     status plan = LpStatus_name st /\
     error plan
     = Some ("Optimization failed with status: " ++ LpStatus_name st)%string /\
     hours plan = [] /\
     total_cost plan = Infinity /\ total_emissions plan = Infinity /\
     total_unmet plan = Infinity) /\
  (let prob := multiday_problem df cap init cw ew tv in
   let st := lp_status (solve prob) in
   st <> LpStatusOptimal ->
   exists plan,
     optimize_multiday_energy_mix solve df days_arg cap init cw ew tv log
     = (Ok plan, log ++ [prob]) /\
     status plan = LpStatus_name st /\
     error plan
     = Some ("Multi-day optimization failed: " ++ LpStatus_name st)%string /\
     hours plan = [] /\
     total_cost plan = Infinity /\ total_emissions plan = Infinity /\
     total_unmet plan = Infinity).
Proof.
  split; intros prob st Hst.
  - exists (failure "Optimization failed with status: " st).
    split; [| repeat split].
    apply optimize_energy_mix_not_optimal. exact Hst.
  - exists (failure "Multi-day optimization failed: " st).
    split; [| repeat split].
    apply multiday_report_not_optimal. exact Hst.
Qed.

(** C2, as the code has it.  Neither optimizer validates its series: for
    every series, well-formed or not, it builds the model of that series and
    calls the solver on it exactly once; a returned plan carries the
    solver's status, and the only exception is the [KeyError] of the totals
    of an empty series solved to optimality.  There is no invalid-input
    failure. *)
Theorem optimizer_solves_any_series (solve : LpProblem -> LpSolution)
  (df : ForecastSeries) (days_arg : nat) (cap init cw ew : Q) (tv : bool)
  (log : list LpProblem) :
  (let prob := energy_mix_problem df cap init cw ew tv in
   snd (optimize_energy_mix solve df cap init cw ew tv log) = log ++ [prob] /\
   match fst (optimize_energy_mix solve df cap init cw ew tv log) with
   | Ok plan => status plan = LpStatus_name (lp_status (solve prob))
   | Raise e =>
       e = KeyError "solar_use" /\ df = [] /\
       lp_status (solve prob) = LpStatusOptimal
   end) /\
  (let prob := multiday_problem df cap init cw ew tv in
   snd (optimize_multiday_energy_mix solve df days_arg cap init cw ew tv log)
   = log ++ [prob] /\
   match fst (optimize_multiday_energy_mix solve df days_arg cap init cw ew
                tv log) with
   | Ok plan => status plan = LpStatus_name (lp_status (solve prob))
   | Raise e =>
       e = KeyError "solar_use" /\ df = [] /\
       lp_status (solve prob) = LpStatusOptimal
   end).
Proof.
  split; intros prob.
  - destruct (status_eq_dec (lp_status (solve prob))) as [Hst | Hst].
    + destruct (series_empty_dec df) as [-> | Hne].
      * rewrite (optimize_energy_mix_empty solve cap init cw ew tv log Hst).
        cbn [fst snd]. repeat split. exact Hst.
      * destruct (optimize_energy_mix_optimal solve df cap init cw ew tv log
                    Hst Hne) as (c & e & u & -> & _).
        cbn [fst snd status]. fold prob. rewrite Hst. split; reflexivity.
    + rewrite (optimize_energy_mix_not_optimal solve df cap init cw ew tv log
                 Hst).
      cbn [fst snd]. split; reflexivity.
  - unfold optimize_multiday_energy_mix. fold prob.
    destruct (status_eq_dec (lp_status (solve prob))) as [Hst | Hst].
    + destruct (series_empty_dec df) as [E | Hne].
      * subst df.
        rewrite (multiday_report_empty solve prob days_arg tv log Hst).
        cbn [fst snd]. repeat split. exact Hst.
      * destruct (multiday_report_optimal solve prob df days_arg tv log
                    Hst Hne) as (c & e & u & -> & _).
        cbn [fst snd status]. rewrite Hst. split; reflexivity.
    + rewrite (multiday_report_not_optimal solve prob df days_arg tv log Hst).
      cbn [fst snd]. split; reflexivity.
Qed.

(** ** The price sweep *)

Lemma scenario_of_nonempty (df : ForecastSeries) (m : Q) :
  df <> [] -> scenario_of df m <> [].
Proof. destruct df; [congruence | discriminate]. Qed.

Lemma sweep_spec (solve : LpProblem -> LpSolution) (df : ForecastSeries)
  (cap init cw ew : Q) (tv : bool) :
  df <> [] ->
  forall ms acc log,
  exists res,
    sweep solve df cap init cw ew tv ms acc log
    = (Ok res, log ++ map (scenario_problem df cap init cw ew tv) ms) /\
    map sc_multiplier (scenarios res)
    = map sc_multiplier (scenarios acc) ++ ms /\
    map multiplier (optimized res)
    = map multiplier (optimized acc)
      ++ filter (scenario_optimal solve df cap init cw ew tv) ms /\
    map Some (greedy res)
    = map Some (greedy acc) ++ map (greedy_entry df cap init) ms.
Proof.
  intros Hne ms.
  induction ms as [| m rest IH]; intros acc log.
  - exists acc. cbn [sweep map filter]. unfold ret.
    rewrite !app_nil_r. repeat split.
  - cbn [sweep]. unfold bind at 1.
    pose proof (scenario_of_nonempty df m Hne) as Hsc.
    destruct (greedy_energy_mix_ok (scenario_of df m) cap init Hsc)
      as (gc & ge & gu & Eg & _).
    assert (Egreedy : greedy_entry df cap init m
                      = Some (entry_of m
                                {| status := "Greedy"; error := None;
                                   objective_value := None;
                                   hours := greedy_hours (scenario_of df m) cap init;
                                   total_cost := Finite gc;
                                   total_emissions := Finite ge;
                                   total_unmet := Finite gu; days := None |}))
      by (unfold greedy_entry; now rewrite Eg).
    destruct (status_eq_dec
                (lp_status (solve (scenario_problem df cap init cw ew tv m))))
      as [Hst | Hst].
    + destruct (optimize_energy_mix_optimal solve (scenario_of df m) cap init
                  cw ew tv log Hst Hsc) as (c & e & u & Eo & _).
      rewrite Eo. unfold bind, lift. rewrite Eg. cbn [error].
      match goal with
      | |- context [sweep _ _ _ _ _ _ _ rest ?a ?l] =>
          destruct (IH a l) as (res & Er & Hs & Ho & Hg)
      end.
      exists res. rewrite Er. cbn [scenarios optimized greedy] in Hs, Ho, Hg.
      rewrite !map_app in Hs, Ho, Hg. cbn [map sc_multiplier multiplier entry_of]
        in Hs, Ho, Hg.
      cbn [map filter]. unfold scenario_optimal at 1. fold (scenario_problem df cap init cw ew tv m).
      rewrite Hst. cbn [is_optimal].
      rewrite Hs, Ho, Hg, Egreedy, <- !app_assoc. repeat split.
    + rewrite (optimize_energy_mix_not_optimal solve (scenario_of df m) cap
                 init cw ew tv log Hst).
      unfold bind, lift. rewrite Eg. cbn [error failure].
      match goal with
      | |- context [sweep _ _ _ _ _ _ _ rest ?a ?l] =>
          destruct (IH a l) as (res & Er & Hs & Ho & Hg)
      end.
      exists res. rewrite Er. cbn [scenarios optimized greedy] in Hs, Ho, Hg.
      rewrite !map_app in Hs, Hg. cbn [map sc_multiplier multiplier entry_of]
        in Hs, Hg.
      cbn [map filter]. unfold scenario_optimal at 1. fold (scenario_problem df cap init cw ew tv m).
      rewrite (is_optimal_false _ Hst).
      rewrite Hs, Ho, Hg, Egreedy, <- !app_assoc. repeat split.
Qed.

(** On an empty series the first scenario ends the sweep: the optimizer
    raises KeyError when the solver reports optimal, and the greedy
    dispatcher raises it after an optimizer run that failed. *)
Lemma sweep_empty_aborts (solve : LpProblem -> LpSolution)
  (cap init cw ew : Q) (tv : bool) (m : Q) (rest : list Q)
  (acc : SensitivityResults) (log : list LpProblem) :
  sweep solve [] cap init cw ew tv (m :: rest) acc log
  = (Raise (KeyError "solar_use"),
     log ++ [scenario_problem [] cap init cw ew tv m]).
Proof.
  cbn [sweep]. unfold bind at 1. unfold scenario_problem.
  change (scenario_of [] m) with (@nil HourRecord).
  destruct (status_eq_dec
              (lp_status (solve (energy_mix_problem [] cap init cw ew tv))))
    as [Hst | Hst].
  - now rewrite (optimize_energy_mix_empty solve cap init cw ew tv log Hst).
  - rewrite (optimize_energy_mix_not_optimal solve [] cap init cw ew tv log
               Hst).
    unfold bind, lift. now rewrite greedy_energy_mix_empty.
Qed.

(** C9, as the code has it.  In a sweep over a nonempty series every
    scenario is run, whatever the outcome of the optimizer on the earlier
    ones: the solver is called once per multiplier, in order; there is one
    scenario record and one greedy entry per multiplier, the greedy entry
    being that of the greedy plan of the scenario; and the optimized list
    holds, in order, the entries of exactly the multipliers whose optimizer
    run was optimal.  In a sweep over an empty series the first scenario
    raises KeyError, whether its optimizer run failed or not, after one call
    of the solver: no entry is recorded and no later scenario is run. *)
Theorem sweep_survives_failed_scenarios (solve : LpProblem -> LpSolution)
  (df : ForecastSeries) (cap init cw ew : Q)
  (price_scenarios : option (list Q)) (tv : bool) (log : list LpProblem) :
  let ms := multipliers_of price_scenarios in
  (df <> [] ->
   exists res,
     run_price_sensitivity solve df cap init cw ew price_scenarios tv log
     = (Ok res, log ++ map (scenario_problem df cap init cw ew tv) ms) /\
     map sc_multiplier (scenarios res) = ms /\
     map multiplier (optimized res)
     = filter (scenario_optimal solve df cap init cw ew tv) ms /\
     map Some (greedy res) = map (greedy_entry df cap init) ms /\
     List.length (greedy res) = List.length ms) /\
  (df = [] ->
   forall m rest,
     ms = m :: rest ->
     run_price_sensitivity solve df cap init cw ew price_scenarios tv log
     = (Raise (KeyError "solar_use"),
        log ++ [scenario_problem df cap init cw ew tv m])).
Proof.
  intros ms. unfold run_price_sensitivity.
  fold (multipliers_of price_scenarios). fold ms. split.
  - intros Hne.
    destruct (sweep_spec solve df cap init cw ew tv Hne ms
                {| scenarios := []; optimized := []; greedy := [] |} log)
      as (res & Er & Hs & Ho & Hg).
    exists res. cbn in Hs, Ho, Hg. repeat split; try assumption.
    apply (f_equal (@List.length _)) in Hg. now rewrite !length_map in Hg.
  - intros -> m rest ->. apply sweep_empty_aborts.
Qed.


Lemma Qabs_le_0 (q : Q) : Qabs q <= 0 -> q == 0.
Proof. intros H. apply Qabs_Qle_condition in H. lra. Qed.

Lemma noon_values_feasible :
  feasible 0 noon_values (energy_mix_problem noon_series 500 250 0.7 0.3 true).
Proof. apply feasibleb_sound. vm_compute. reflexivity. Qed.

Lemma noon_values_optimal (x : LpVariable -> Q) :
  let prob := energy_mix_problem noon_series 500 250 0.7 0.3 true in
  feasible 0 x prob ->
  value noon_values (lp_objective prob) <= value x (lp_objective prob) /\
  (value x (lp_objective prob) <= value noon_values (lp_objective prob) ->
   x (solar_use 0%nat) == 50).
Proof.
  intros prob [Hc Hb].
  cbv [prob energy_mix_problem lp_constraints lp_variables noon_series
       enumerate List.length seq combine flat_map fst snd hour_constraints
       initial_level_constraint variables LpVariable_dicts map app Nat.add]
    in Hc, Hb.
  repeat match goal with
         | H : Forall _ (_ :: _) |- _ => apply Forall_cons_iff in H as [? H]
         | H : Forall _ [] |- _ => clear H
         end.
  unfold holds, within_bounds in *.
  cbn [c_sense c_lhs c_rhs value lowBound upBound b_var demand solar_available
       wind_available hydro_available] in *.
  repeat match goal with
         | H : Qabs _ <= 0 |- _ => apply Qabs_le_0 in H
         | H : _ /\ _ |- _ => destruct H
         end.
  cbv [prob energy_mix_problem lp_objective objective noon_series enumerate
       List.length seq combine fold_left fst snd hour_cost hour_emissions
       lpSum map value price datetime noon_values].
  change (hour_of 12) with 12%Z.
  replace (get_carbon_intensity 12 "solar") with (45 * 1.15) by reflexivity.
  replace (get_carbon_intensity 12 "wind") with (12 * 1.15) by reflexivity.
  replace (get_carbon_intensity 12 "hydro") with (24 * 1.15) by reflexivity.
  split; [| intros Hle]; lra.
Qed.

(** ** The objective is nonnegative on nonnegative values *)

Lemma value_fold_add_nonneg (x : LpVariable -> Q)
  (f : nat * HourRecord -> LpAffineExpression) (l : list (nat * HourRecord)) :
  (forall tr, In tr l -> 0 <= value x (f tr)) ->
  forall a, 0 <= value x a ->
            0 <= value x (fold_left (fun acc tr => EAdd acc (f tr)) l a).
Proof.
  induction l as [| tr l IH]; intros Hl a Ha; cbn [fold_left].
  - exact Ha.
  - apply IH.
    + intros tr' Hin. apply Hl. now right.
    + cbn [value]. pose proof (Hl tr (or_introl eq_refl)). lra.
Qed.

Lemma value_lpSum_nonneg (x : LpVariable -> Q) (l : list LpAffineExpression) :
  (forall e, In e l -> 0 <= value x e) -> 0 <= value x (lpSum l).
Proof.
  unfold lpSum.
  assert (G : forall a, 0 <= value x a ->
                        (forall e, In e l -> 0 <= value x e) ->
                        0 <= value x (fold_left EAdd l a)).
  { induction l as [| e l IH]; intros a Ha Hl; cbn [fold_left].
    - exact Ha.
    - apply IH.
      + cbn [value]. pose proof (Hl e (or_introl eq_refl)). lra.
      + intros e' Hin. apply Hl. now right. }
  intros Hl. apply G; [cbn; lra | exact Hl].
Qed.

Lemma get_carbon_intensity_nonneg (hour : Z) (source : string) :
  source = "solar"%string \/ source = "wind"%string \/
  source = "hydro"%string ->
  0 <= get_carbon_intensity hour source.
Proof.
  intros Hsrc. unfold get_carbon_intensity.
  assert (Hbase : 0 <= dict_get base_emissions source 0)
    by (destruct Hsrc as [-> | [-> | ->]]; vm_compute; discriminate).
  repeat match goal with
         | |- context [if ?c then _ else _] => destruct c
         end; nra.
Qed.

Lemma objective_nonneg (df : ForecastSeries) (cw ew : Q) (tv : bool)
  (x : LpVariable -> Q) :
  0 <= cw -> 0 <= ew ->
  (forall row, In row df -> 0 <= price row) ->
  (forall t, (t < List.length df)%nat ->
             0 <= x (solar_use t) /\ 0 <= x (wind_use t) /\
             0 <= x (hydro_use t) /\ 0 <= x (unmet_demand t)) ->
  0 <= value x (objective df cw ew tv).
Proof.
  intros Hcw Hew Hprice Hx. unfold objective. cbn [value].
  assert (Hrow : forall tr, In tr (enumerate df) ->
                            (fst tr < List.length df)%nat /\ In (snd tr) df).
  { intros [t row] Hin. destruct (In_nth_error _ _ Hin) as [i Hi].
    apply enumerate_nth in Hi as [-> Hi]. cbn [fst snd]. split.
    - apply nth_error_Some. congruence.
    - exact (nth_error_In _ _ Hi). }
  assert (Hcost : 0 <= value x
            (fold_left (fun acc tr => EAdd acc (hour_cost (fst tr) (snd tr)))
               (enumerate df) (EConst 0))).
  { apply value_fold_add_nonneg; [| cbn; lra].
    intros tr Hin. destruct (Hrow tr Hin) as [Ht Hr].
    destruct (Hx _ Ht) as (Hs & Hw & Hh & _).
    pose proof (Hprice _ Hr) as Hp.
    unfold hour_cost. cbn [value]. nra. }
  assert (Hem : 0 <= value x
            (fold_left
               (fun acc tr => EAdd acc (hour_emissions tv (fst tr) (snd tr)))
               (enumerate df) (EConst 0))).
  { apply value_fold_add_nonneg; [| cbn; lra].
    intros tr Hin. destruct (Hrow tr Hin) as [Ht _].
    destruct (Hx _ Ht) as (Hs & Hw & Hh & _).
    unfold hour_emissions. cbn [value].
    destruct emission_factors_values as (-> & -> & ->).
    pose proof (get_carbon_intensity_nonneg (hour_of (datetime (snd tr)))
                  "solar" (or_introl eq_refl)).
    pose proof (get_carbon_intensity_nonneg (hour_of (datetime (snd tr)))
                  "wind" (or_intror (or_introl eq_refl))).
    pose proof (get_carbon_intensity_nonneg (hour_of (datetime (snd tr)))
                  "hydro" (or_intror (or_intror eq_refl))).
    destruct tv; nra. }
  assert (Hun : 0 <= value x
            (lpSum (map (fun t => EVar (unmet_demand t))
                      (seq 0 (List.length df))))).
  { apply value_lpSum_nonneg. intros e Hin.
    apply in_map_iff in Hin as (t & <- & Ht). apply in_seq in Ht.
    cbn [value]. apply Hx. lia. }
  nra.
Qed.

(** The bounds of a model make the values of its hours nonnegative. *)
Lemma feasible_values_nonneg (x : LpVariable -> Q) (df : ForecastSeries)
  (cap init cw ew : Q) (tv : bool) (t : nat) :
  feasible 0 x (energy_mix_problem df cap init cw ew tv) ->
  (t < List.length df)%nat ->
  0 <= x (solar_use t) /\ 0 <= x (wind_use t) /\
  0 <= x (hydro_use t) /\ 0 <= x (unmet_demand t).
Proof.
  intros [_ Hb] Ht. cbn [lp_variables energy_mix_problem] in Hb.
  rewrite Forall_forall in Hb.
  assert (Hin : forall family,
             In (mkLpBound (family t) (Some 0) None)
                (LpVariable_dicts family (List.length df) (Some 0) None)).
  { intros family. unfold LpVariable_dicts. apply in_map_iff.
    exists t. split; [reflexivity | apply in_seq; lia]. }
  assert (Hlow : forall b, In b (variables (List.length df) cap) ->
                           lowBound b = Some 0 -> 0 <= x (b_var b)).
  { intros b Hbin Hl. destruct (Hb b Hbin) as [Hlo _].
    rewrite Hl in Hlo. lra. }
  unfold variables in Hlow.
  repeat split.
  - apply (Hlow (mkLpBound (solar_use t) (Some 0) None)); [| reflexivity].
    apply in_or_app. left. apply Hin.
  - apply (Hlow (mkLpBound (wind_use t) (Some 0) None)); [| reflexivity].
    apply in_or_app. right. apply in_or_app. left. apply Hin.
  - apply (Hlow (mkLpBound (hydro_use t) (Some 0) None)); [| reflexivity].
    do 2 (apply in_or_app; right). apply in_or_app. left. apply Hin.
  - apply (Hlow (mkLpBound (unmet_demand t) (Some 0) None)); [| reflexivity].
    do 6 (apply in_or_app; right). apply Hin.
Qed.

(** Values that satisfy a model with nonnegative prices and weights and
    have objective 0 are optimal. *)
Lemma zero_objective_is_optimal (x0 x : LpVariable -> Q) (df : ForecastSeries)
  (cap init cw ew : Q) (tv : bool) :
  0 <= cw -> 0 <= ew ->
  (forall row, In row df -> 0 <= price row) ->
  value x0 (objective df cw ew tv) == 0 ->
  feasible 0 x (energy_mix_problem df cap init cw ew tv) ->
  value x0 (objective df cw ew tv) <= value x (objective df cw ew tv).
Proof.
  intros Hcw Hew Hprice H0 Hfeas. rewrite H0.
  apply objective_nonneg; try assumption.
  intros t Ht. exact (feasible_values_nonneg x df cap init cw ew tv t Hfeas Ht).
Qed.

(** The solver answers used above for [idle_series] and [malformed_series]
    are optima of the single-day models. *)
Lemma idle_values_optimal (x : LpVariable -> Q) :
  feasible 0 x (energy_mix_problem (idle_series 48) 500 0 0.7 0.3 true) ->
  value idle_values (objective (idle_series 48) 0.7 0.3 true)
  <= value x (objective (idle_series 48) 0.7 0.3 true).
Proof.
  apply zero_objective_is_optimal; try lra.
  - intros row Hin. unfold idle_series in Hin.
    apply in_map_iff in Hin as (t & <- & _). cbn. lra.
  - vm_compute. reflexivity.
Qed.

Lemma absorb_values_optimal (x : LpVariable -> Q) :
  feasible 0 x (energy_mix_problem malformed_series 500 250 0.7 0.3 true) ->
  value absorb_values (objective malformed_series 0.7 0.3 true)
  <= value x (objective malformed_series 0.7 0.3 true).
Proof.
  apply zero_objective_is_optimal; try lra.
  - intros row [<- | [<- | []]]; cbn; lra.
  - vm_compute. reflexivity.
Qed.

(** ** The single-day optimizer reports fixed-factor emissions *)

(** Whatever the accounting mode of the call, the single-day optimizer
    reports the emissions of its plan at the fixed factors. *)
Lemma single_day_total_emissions_fixed (solve : LpProblem -> LpSolution)
  (df : ForecastSeries) (cap init cw ew : Q) (tv : bool)
  (log : list LpProblem) :
  lp_status (solve (energy_mix_problem df cap init cw ew tv))
  = LpStatusOptimal ->
  df <> [] ->
  exists plan,
    fst (optimize_energy_mix solve df cap init cw ew tv log) = Ok plan /\
    total_is (total_emissions plan)
      (sum_over hour_fixed_emissions_of (hours plan)).
Proof.
  intros Hst Hne.
  destruct (optimize_energy_mix_optimal solve df cap init cw ew tv log Hst Hne)
    as (c & e & u & -> & _ & He & _).
  eexists. split; [reflexivity | exact He].
Qed.

(** The multi-day optimizer reports them in the mode of the call. *)
Lemma multiday_total_emissions_follow_mode (solve : LpProblem -> LpSolution)
  (df : ForecastSeries) (days_arg : nat) (cap init cw ew : Q) (tv : bool)
  (log : list LpProblem) :
  lp_status (solve (multiday_problem df cap init cw ew tv))
  = LpStatusOptimal ->
  df <> [] ->
  exists plan,
    fst (optimize_multiday_energy_mix solve df days_arg cap init cw ew tv log)
    = Ok plan /\
    total_is (total_emissions plan)
      (if tv then sum_over hour_varying_emissions_of (hours plan)
       else sum_over hour_fixed_emissions_of (hours plan)).
Proof.
  intros Hst Hne. unfold optimize_multiday_energy_mix.
  destruct (multiday_report_optimal solve _ df days_arg tv log Hst Hne)
    as (c & e & u & -> & _ & He & _).
  eexists. split; [reflexivity | exact He].
Qed.

(** C1, at the input where the code departs from it.  The single-day
    optimizer is called with time-varying accounting on [noon_series]
    (capacity 500, initial charge 250, weights 0.7 / 0.3) and the solver
    reports the optimum: 50 of solar used at noon.  The plan is optimal and
    its total_emissions is 2250 = 50 * 45, the fixed-factor figure, while
    the time-varying figure of the same plan is 2587.5 = 50 * 45 * 1.15.
    The multi-day optimizer reports 2587.5 on the same input. *)
Theorem single_day_emissions_ignore_accounting_mode :
  match fst (optimize_energy_mix noon_solver noon_series 500 250 0.7 0.3
               true []),
        fst (optimize_multiday_energy_mix noon_solver noon_series 1 500 250
               0.7 0.3 true []) with
  | Ok plan, Ok multiday_plan =>
      status plan = "Optimal"%string /\
      total_is (total_emissions plan) 2250 /\
      sum_over hour_fixed_emissions_of (hours plan) == 2250 /\
      sum_over hour_varying_emissions_of (hours plan) == 2587.5 /\
      total_is (total_emissions multiday_plan) 2587.5
  | _, _ => False
  end.
Proof. vm_compute. repeat split. Qed.

(** C4, at the input where the code departs from it.  On [noon_series] with
    time-varying accounting, the single-day optimizer and the multi-day
    optimizer without its terminal band are given the same solver answer
    for their common model; their plans have the same hours, total cost and
    total unmet demand, but the total emissions are 2250 for the single-day
    plan and 2587.5 for the multi-day one. *)
Theorem single_day_and_multiday_plans_differ :
  match fst (optimize_energy_mix noon_solver noon_series 500 250 0.7 0.3
               true []),
        fst (optimize_multiday_without_band noon_solver noon_series 1 500 250
               0.7 0.3 true []) with
  | Ok single, Ok multi =>
      hours single = hours multi /\
      total_cost single = total_cost multi /\
      total_unmet single = total_unmet multi /\
      total_is (total_emissions single) 2250 /\
      total_is (total_emissions multi) 2587.5
  | _, _ => False
  end.
Proof. vm_compute. repeat split. Qed.

(** With fixed accounting the two optimizers read the same plan, totals
    included, off a common solver answer. *)
Lemma single_day_and_multiday_agree_on_fixed_accounting
  (solve : LpProblem -> LpSolution) (df : ForecastSeries) (days_arg : nat)
  (cap init cw ew : Q) (tv : bool) (log : list LpProblem) :
  let single_prob := energy_mix_problem df cap init cw ew tv in
  let multi_prob := multiday_problem_without_band df cap init cw ew tv in
  solve single_prob = solve multi_prob ->
  lp_status (solve single_prob) = LpStatusOptimal ->
  df <> [] ->
  exists single multi,
    fst (optimize_energy_mix solve df cap init cw ew tv log) = Ok single /\
    fst (optimize_multiday_without_band solve df days_arg cap init cw ew tv
           log) = Ok multi /\
    hours single = hours multi /\
    total_cost single = total_cost multi /\
    total_unmet single = total_unmet multi /\
    (tv = false -> total_emissions single = total_emissions multi).
Proof.
  intros single_prob multi_prob Hsame Hst Hne.
  pose proof (extract_hours_nonempty (varValue (solve single_prob)) df Hne)
    as Hh.
  destruct (frame_total_cost_ok _ Hh) as (c & Ec & _).
  destruct (frame_fixed_emissions_ok _ _ emission_factors_values Hh)
    as (e & Ee & _).
  destruct (frame_total_unmet_ok _ Hh) as (u & Eu & _).
  unfold optimize_energy_mix, optimize_multiday_without_band,
    multiday_solve_and_report, bind, prob_solve, lift, ret.
  fold single_prob multi_prob. rewrite <- Hsame, Hst. cbn [is_optimal negb].
  rewrite Ec, Ee, Eu.
  destruct tv.
  - do 2 eexists. cbn [fst]. repeat split. discriminate.
  - do 2 eexists. cbn [fst]. repeat split.
Qed.

(** ** The terminal band *)





(** ** Concrete runs *)

(** C2 as stated fails on the code.  [malformed_series] has decreasing
    timestamps, a negative demand, and 2 rows where the multi-day call asks
    for 3 days; both optimizers build its model, call the solver on it, and
    return the plan of the solver's answer with status Optimal and one
    record per row.  The answer used here satisfies both models. *)
Lemma malformed_series_is_optimized :
  map datetime malformed_series = [5; 3]%Z /\
  map demand malformed_series = [-10; 0] /\
  List.length malformed_series <> (3 * 24)%nat /\
  feasibleb 0 absorb_values
    (energy_mix_problem malformed_series 500 250 0.7 0.3 true) = true /\
  feasibleb 0 absorb_values
    (multiday_problem malformed_series 500 250 0.7 0.3 true) = true /\
  snd (optimize_energy_mix absorb_solver malformed_series 500 250 0.7 0.3
         true [])
  = [energy_mix_problem malformed_series 500 250 0.7 0.3 true] /\
  match fst (optimize_energy_mix absorb_solver malformed_series 500 250 0.7
               0.3 true []) with
  | Ok plan =>
      status plan = "Optimal"%string /\ error plan = None /\
      List.length (hours plan) = 2%nat
  | Raise _ => False
  end /\
  snd (optimize_multiday_energy_mix absorb_solver malformed_series 3 500 250
         0.7 0.3 true [])
  = [multiday_problem malformed_series 500 250 0.7 0.3 true] /\
  match fst (optimize_multiday_energy_mix absorb_solver malformed_series 3
               500 250 0.7 0.3 true []) with
  | Ok plan =>
      status plan = "Optimal"%string /\ error plan = None /\
      List.length (hours plan) = 2%nat
  | Raise _ => False
  end.
Proof.
  split; [reflexivity |]. split; [reflexivity |].
  split; [cbn; lia |].
  split; [vm_compute; reflexivity |]. split; [vm_compute; reflexivity |].
  split; [reflexivity |]. split; [vm_compute; repeat split |].
  split; [reflexivity |]. vm_compute; repeat split.
Qed.

(** No values satisfy the models of [impossible_series]: a solver can only
    report them infeasible. *)
Lemma impossible_series_infeasible (x : LpVariable -> Q) (tol : Q) :
  tol < 1 # 2 ->
  ~ feasible tol x (energy_mix_problem impossible_series 500 250 0.7 0.3 true).
Proof.
  intros Htol [Hc Hb].
  cbv [energy_mix_problem lp_constraints lp_variables impossible_series
       enumerate List.length seq combine flat_map fst snd hour_constraints
       initial_level_constraint variables LpVariable_dicts map app Nat.add]
    in Hc, Hb.
  apply Forall_cons_iff in Hb as [Hlow _].
  apply Forall_cons_iff in Hc as [_ Hc].
  apply Forall_cons_iff in Hc as [_ Hc].
  apply Forall_cons_iff in Hc as [Hcap _].
  unfold holds in Hcap. unfold within_bounds in Hlow.
  cbn [c_sense c_lhs c_rhs value lowBound upBound b_var solar_available]
    in Hcap, Hlow.
  destruct Hlow as [Hlow _]. lra.
Qed.

Lemma non_optimal_status_is_terminal_witness :
  lp_status (infeasible_solver
               (energy_mix_problem impossible_series 500 250 0.7 0.3 true))
  <> LpStatusOptimal /\
  exists plan,
    optimize_energy_mix infeasible_solver impossible_series 500 250 0.7 0.3
      true []
    = (Ok plan, [energy_mix_problem impossible_series 500 250 0.7 0.3 true]) /\
    status plan = "Infeasible"%string /\ hours plan = [].
Proof.
  split; [discriminate |].
  destruct (non_optimal_status_is_terminal infeasible_solver impossible_series
              1 500 250 0.7 0.3 true []) as [Hsingle _].
  destruct Hsingle as (plan & Hrun & Hstatus & _ & Hhours & _);
    [discriminate |].
  exists plan. split; [exact Hrun |]. split; [exact Hstatus | exact Hhours].
Defined.

Lemma greedy_never_exceeds_ceilings_witness :
  (forall row, In row mixed_series -> nonneg_row row) /\
  0 <= 250 /\ 250 <= 500 /\
  match greedy_energy_mix mixed_series 500 250 with
  | Ok plan => List.length (hours plan) = 3%nat
  | Raise _ => False
  end.
Proof.
  assert (Hrows : forall row, In row mixed_series -> nonneg_row row).
  { intros row [<- | [<- | [<- | []]]]; unfold nonneg_row; cbn; lra. }
  assert (H0 : 0 <= 250) by lra.
  assert (Hc : 250 <= 500) by lra.
  repeat (split; [assumption |]).
  pose proof (greedy_never_exceeds_ceilings mixed_series 500 250 Hrows H0 Hc)
    as H.
  destruct (greedy_energy_mix mixed_series 500 250) as [plan | e].
  - exact (proj1 H).
  - discriminate H.
Defined.


(** No values satisfy the model of any price scenario of
    [impossible_series]: the prices are not part of the constraints. *)
Lemma impossible_scenarios_infeasible (m : Q) (x : LpVariable -> Q) :
  ~ feasible 0 x (scenario_problem impossible_series 500 250 0.7 0.3 true m).
Proof.
  intros [Hc Hb].
  cbv [scenario_problem scenario_of energy_mix_problem lp_constraints
       lp_variables impossible_series
       enumerate List.length seq combine flat_map fst snd hour_constraints
       initial_level_constraint variables LpVariable_dicts map app Nat.add]
    in Hc, Hb.
  apply Forall_cons_iff in Hb as [Hlow _].
  apply Forall_cons_iff in Hc as [_ Hc].
  apply Forall_cons_iff in Hc as [_ Hc].
  apply Forall_cons_iff in Hc as [Hcap _].
  unfold holds in Hcap. unfold within_bounds in Hlow.
  cbn [c_sense c_lhs c_rhs value lowBound upBound b_var solar_available]
    in Hcap, Hlow.
  destruct Hlow as [Hlow _]. lra.
Qed.

(** C9 as stated fails on the code.  The sweep is called on the empty
    series with capacity 500 and initial charge 600.  No values satisfy the
    model of the first scenario (the initial level exceeds the capacity), the
    solver reports it infeasible and the optimizer returns its failure plan;
    the greedy run of that scenario then raises KeyError and the sweep ends
    with it: the solver has been called once, for the first of the five
    multipliers, and no greedy entry is returned. *)
Lemma failed_scenario_aborts_empty_sweep :
  (forall x,
      ~ feasible 0 x (scenario_problem [] 500 600 0.7 0.3 true 0.5)) /\
  optimize_energy_mix infeasible_solver (scenario_of [] 0.5) 500 600 0.7 0.3
    true []
  = (Ok (failure "Optimization failed with status: " LpStatusInfeasible),
     [scenario_problem [] 500 600 0.7 0.3 true 0.5]) /\
  greedy_energy_mix (scenario_of [] 0.5) 500 600
  = Raise (KeyError "solar_use") /\
  run_price_sensitivity infeasible_solver [] 500 600 0.7 0.3 None true []
  = (Raise (KeyError "solar_use"),
     [scenario_problem [] 500 600 0.7 0.3 true 0.5]).
Proof.
  split; [| split; [reflexivity | split; reflexivity]].
  intros x [Hc Hb].
  cbv [scenario_problem scenario_of energy_mix_problem lp_constraints
       lp_variables enumerate List.length seq combine flat_map fst snd
       initial_level_constraint variables LpVariable_dicts map app Nat.add]
    in Hc, Hb.
  apply Forall_cons_iff in Hc as [Hinit _].
  apply Forall_cons_iff in Hb as [Hlevel _].
  unfold holds in Hinit. unfold within_bounds in Hlevel.
  cbn [c_sense c_lhs c_rhs value lowBound upBound b_var] in Hinit, Hlevel.
  apply Qabs_Qle_condition in Hinit.
  destruct Hlevel as [_ Hup]. lra.
Qed.

Lemma sweep_survives_failed_scenarios_witness :
  (impossible_series <> [] /\
   (forall m x,
       ~ feasible 0 x
           (scenario_problem impossible_series 500 250 0.7 0.3 true m)) /\
   exists res,
     run_price_sensitivity infeasible_solver impossible_series 500 250 0.7
       0.3 None true []
     = (Ok res,
        map (scenario_problem impossible_series 500 250 0.7 0.3 true)
          [0.5; 0.75; 1.0; 1.25; 1.5]) /\
     map sc_multiplier (scenarios res) = [0.5; 0.75; 1.0; 1.25; 1.5] /\
     optimized res = [] /\
     List.length (greedy res) = 5%nat) /\
  run_price_sensitivity noon_solver [] 500 250 0.7 0.3 (Some [2])
    true []
  = (Raise (KeyError "solar_use"),
     [scenario_problem [] 500 250 0.7 0.3 true 2]).
Proof.
  split.
  - assert (Hne : impossible_series <> []) by discriminate.
    split; [exact Hne |].
    split; [exact impossible_scenarios_infeasible |].
    destruct (proj1 (sweep_survives_failed_scenarios infeasible_solver
                       impossible_series 500 250 0.7 0.3 None true []) Hne)
      as (res & Hrun & Hs & Ho & _ & Hlen).
    exists res. split; [exact Hrun |]. split; [exact Hs |].
    split; [| exact Hlen].
    cbn in Ho. destruct (optimized res); [reflexivity | discriminate Ho].
  - exact (proj2 (sweep_survives_failed_scenarios noon_solver [] 500
                    250 0.7 0.3 (Some [2]) true []) eq_refl 2 [] eq_refl).
Defined.

(* ================================================================== *)
(** * Further properties of the greedy dispatcher *)

Lemma greedy_hour_battery (cap mr lvl : Q) (t : nat) (row : HourRecord) :
  let h := fst (greedy_hour cap mr lvl t row) in
  hr_battery_level h
  == lvl - hr_battery_discharge h + hr_battery_charge h * 0.9 /\
  (hr_battery_discharge h == 0 \/ hr_battery_charge h == 0).
Proof.
  unfold greedy_hour, min3. cbv zeta.
  destruct row as [dt dem sa wa ha pr];
    cbn [demand solar_available wind_available hydro_available price datetime].
  greedy_split.
  all: cbn [fst hr_battery_level hr_battery_discharge hr_battery_charge].
  all: unfold efficiency.
  all: split; [lra | first [left; lra | right; lra]].
Qed.

Lemma greedy_hour_unmet (cap mr lvl : Q) (t : nat) (row : HourRecord) :
  0 <= solar_available row -> 0 <= wind_available row ->
  0 <= hydro_available row -> 0 <= mr -> 0 <= lvl ->
  let h := fst (greedy_hour cap mr lvl t row) in
  let supply :=
    solar_available row + wind_available row + hydro_available row
    + Qmin mr lvl in
  (demand row <= supply -> hr_unmet_demand h == 0) /\
  (supply < demand row -> hr_unmet_demand h == demand row - supply).
Proof.
  unfold greedy_hour, min3. cbv zeta.
  destruct row as [dt dem sa wa ha pr];
    cbn [demand solar_available wind_available hydro_available price datetime].
  intros Hsa Hwa Hha Hmr Hlvl.
  greedy_split.
  all: cbn [fst hr_unmet_demand].
  all: split; intro; lra.
Qed.

Lemma sum_over_snoc (f : HourResult -> Q) (l : list HourResult)
  (h : HourResult) :
  sum_over f (l ++ [h]) == sum_over f l + f h.
Proof.
  induction l as [| a l IH]; cbn [app sum_over fold_right].
  - lra.
  - unfold sum_over in IH. rewrite IH. lra.
Qed.

Lemma firstn_S_snoc {A : Type} (l : list A) (t : nat) (a : A) :
  nth_error l t = Some a -> firstn (S t) l = firstn t l ++ [a].
Proof.
  revert t. induction l as [| x l IH]; intros [| t] H; try discriminate.
  - cbn in H. injection H as ->. reflexivity.
  - cbn [nth_error] in H. cbn [firstn app]. f_equal. now apply IH.
Qed.

Lemma greedy_hours_step (df : ForecastSeries) (cap init : Q) (t : nat)
  (h : HourResult) :
  nth_error (greedy_hours df cap init) t = Some h ->
  hr_battery_level h
  == level_before init (greedy_hours df cap init) t
     - hr_battery_discharge h + hr_battery_charge h * 0.9 /\
  (hr_battery_discharge h == 0 \/ hr_battery_charge h == 0).
Proof.
  intros Hh. destruct (greedy_hours_nth _ _ _ _ _ Hh) as (row & _ & ->).
  apply greedy_hour_battery.
Qed.

Lemma greedy_hours_conservation (df : ForecastSeries) (cap init : Q) :
  forall t h,
    nth_error (greedy_hours df cap init) t = Some h ->
    hr_battery_level h
    == init + battery_net (firstn (S t) (greedy_hours df cap init)).
Proof.
  induction t as [| t IH]; intros h Hh;
    destruct (greedy_hours_step df cap init _ h Hh) as [Hdyn _];
    rewrite (firstn_S_snoc _ _ _ Hh); unfold battery_net;
    rewrite sum_over_snoc, Hdyn.
  - cbn [level_before firstn sum_over fold_right]. lra.
  - cbn [level_before].
    destruct (nth_error (greedy_hours df cap init) t) as [h' |] eqn:E.
    + rewrite (IH h' eq_refl). unfold battery_net. lra.
    + exfalso. apply nth_error_None in E.
      assert (nth_error (greedy_hours df cap init) (S t) <> None) by congruence.
      apply nth_error_Some in H. lia.
Qed.

Lemma greedy_levels_in_range (df : ForecastSeries) (cap init : Q) :
  (forall row, In row df -> nonneg_row row) ->
  0 <= init -> init <= cap ->
  forall t, (t <= List.length df)%nat ->
    0 <= level_before init (greedy_hours df cap init) t /\
    level_before init (greedy_hours df cap init) t <= cap.
Proof.
  intros Hrows H0 Hcap t Ht. unfold greedy_hours.
  apply greedy_level_invariant; try assumption; try lra.
  - intros t' row' Hin. apply Hrows.
    destruct (In_nth_error _ _ Hin) as [i Hi].
    apply enumerate_nth in Hi as [_ Hi]. exact (nth_error_In _ _ Hi).
  - unfold enumerate. rewrite length_combine, length_seq. lia.
Qed.

(** X1.  In every hour of every greedy plan the battery level after the hour
    is the level carried into it, less the discharge, plus 0.9 times the
    charge; the battery is never charged and discharged in the same hour;
    and the level after hour t is the initial charge plus the net intake of
    hours 0..t. *)
Theorem greedy_battery_accounting (df : ForecastSeries) (cap init : Q) :
  match greedy_energy_mix df cap init with
  | Ok plan =>
      forall t h,
        nth_error (hours plan) t = Some h ->
        hr_battery_level h
        == level_before init (hours plan) t
           - hr_battery_discharge h + hr_battery_charge h * 0.9 /\
        (hr_battery_discharge h == 0 \/ hr_battery_charge h == 0) /\
        hr_battery_level h == init + battery_net (firstn (S t) (hours plan))
  | Raise _ => df = []
  end.
Proof.
  destruct (series_empty_dec df) as [-> | Hne]; [reflexivity |].
  destruct (greedy_energy_mix_ok df cap init Hne) as (c & e & u & -> & _).
  cbn [hours]. intros t h Hh.
  destruct (greedy_hours_step df cap init t h Hh) as [Hdyn Hexcl].
  repeat split; try assumption.
  now apply greedy_hours_conservation.
Qed.

(** X2.  On a series with nonnegative availabilities and demand and an
    initial charge in [0, capacity], the unmet demand of every greedy hour
    is what the demand exceeds the hour's supply by, the supply being the
    three availabilities plus min(max_rate, level carried into the hour):
    zero when the demand is at most the supply, the difference otherwise. *)
Theorem greedy_unmet_is_shortfall (df : ForecastSeries) (cap init : Q) :
  (forall row, In row df -> nonneg_row row) ->
  0 <= init -> init <= cap ->
  match greedy_energy_mix df cap init with
  | Ok plan =>
      forall t row h,
        nth_error df t = Some row -> nth_error (hours plan) t = Some h ->
        let supply :=
          solar_available row + wind_available row + hydro_available row
          + Qmin (cap * 0.2) (level_before init (hours plan) t) in
        (demand row <= supply -> hr_unmet_demand h == 0) /\
        (supply < demand row -> hr_unmet_demand h == demand row - supply)
  | Raise _ => df = []
  end.
Proof.
  intros Hrows H0 Hcap.
  destruct (series_empty_dec df) as [-> | Hne]; [reflexivity |].
  pose proof (greedy_levels_in_range df cap init Hrows H0 Hcap)
    as Hlev.
  destruct (greedy_energy_mix_ok df cap init Hne) as (c & e & u & -> & _).
  cbn [hours]. intros t row h Hrow Hh.
  destruct (greedy_hours_nth _ _ _ _ _ Hh) as (row' & Hrow' & ->).
  rewrite Hrow in Hrow'. injection Hrow' as <-.
  destruct (Hrows row (nth_error_In _ _ Hrow)) as (_ & Hs & Hw & Hy).
  assert (Ht : (t <= List.length df)%nat).
  { assert (t < List.length df)%nat by (apply nth_error_Some; congruence). lia. }
  destruct (Hlev t Ht) as [Hl0 _].
  apply greedy_hour_unmet; try assumption. lra.
Qed.

(* ================================================================== *)
(** * The greedy plan as a point of the optimizer's model *)

Lemma Qabs_of_eq (a b : Q) : a == b -> Qabs (a - b) <= 0.
Proof. intros H. apply Qabs_Qle_condition. lra. Qed.

Lemma plan_values_level (init : Q) (hs : list HourResult) (t : nat) :
  (t <= List.length hs)%nat ->
  plan_values init hs (battery_level t) = level_before init hs t.
Proof.
  intros Ht. destruct t as [| t]; [reflexivity |].
  cbn [plan_values level_before].
  destruct (nth_error hs t) eqn:E; [reflexivity |].
  apply nth_error_None in E. lia.
Qed.

(** The facts about hour [t] of a greedy plan that the model asks for. *)
Lemma greedy_hour_in_model (df : ForecastSeries) (cap init : Q) (t : nat)
  (row : HourRecord) :
  (forall row, In row df -> nonneg_row row) ->
  0 <= init -> init <= cap ->
  nth_error df t = Some row ->
  exists h,
    nth_error (greedy_hours df cap init) t = Some h /\
    supplied h == demand row /\
    (0 <= hr_solar_use h /\ hr_solar_use h <= solar_available row) /\
    (0 <= hr_wind_use h /\ hr_wind_use h <= wind_available row) /\
    (0 <= hr_hydro_use h /\ hr_hydro_use h <= hydro_available row) /\
    (0 <= hr_battery_charge h /\ hr_battery_charge h <= cap * 0.2) /\
    (0 <= hr_battery_discharge h /\ hr_battery_discharge h <= cap * 0.2) /\
    hr_battery_charge h + hr_battery_discharge h <= cap * 0.2 /\
    (0 <= hr_battery_level h /\ hr_battery_level h <= cap) /\
    0 <= hr_unmet_demand h /\
    hr_battery_level h
    == level_before init (greedy_hours df cap init) t
       + hr_battery_charge h * 0.9 - hr_battery_discharge h.
Proof.
  intros Hrows H0 Hcap Hrow.
  assert (Hlt : (t < List.length df)%nat) by (apply nth_error_Some; congruence).
  destruct (nth_error (greedy_hours df cap init) t) as [h |] eqn:Eh;
    [| apply nth_error_None in Eh; rewrite greedy_hours_length in Eh; lia].
  exists h. split; [reflexivity |].
  destruct (greedy_hours_step df cap init t h Eh) as [Hdyn Hexcl].
  destruct (greedy_hours_nth _ _ _ _ _ Eh) as (row' & Hrow' & Hh).
  rewrite Hrow in Hrow'. injection Hrow' as <-.
  destruct (greedy_levels_in_range df cap init Hrows H0 Hcap t) as [Hl0 Hlc];
    [lia |].
  destruct (Hrows row (nth_error_In _ _ Hrow)) as (Hd & Hs & Hw & Hy).
  assert (Hmr : 0 <= cap * 0.2) by lra.
  pose proof (greedy_hour_ceilings cap (cap * 0.2) _ t row
                Hd Hs Hw Hy Hmr Hl0 Hlc) as Hc.
  pose proof (greedy_hour_balance cap (cap * 0.2)
                (level_before init (greedy_hours df cap init) t) t row) as Hb.
  rewrite <- Hh in Hc, Hb. cbv zeta in Hc, Hb.
  destruct Hc as (Hc1 & Hc2 & Hc3 & Hc4 & Hc5 & Hc6 & Hc7 & _).
  repeat (split; [first [exact Hb | assumption] |]).
  split; [destruct Hexcl; lra |].
  split; [assumption |]. split; [assumption | lra].
Qed.

Lemma in_LpVariable_dicts (family : nat -> LpVariable) (n : nat)
  (low up : option Q) (b : LpBound) :
  In b (LpVariable_dicts family n low up) ->
  exists t, (t < n)%nat /\ b = mkLpBound (family t) low up.
Proof.
  unfold LpVariable_dicts. intros Hin.
  apply in_map_iff in Hin as (t & <- & Ht). apply in_seq in Ht.
  exists t. split; [lia | reflexivity].
Qed.

Lemma greedy_plan_is_feasible_point (df : ForecastSeries)
  (cap init cw ew : Q) (tv : bool) :
  (forall row, In row df -> nonneg_row row) ->
  0 <= init -> init <= cap ->
  feasible 0 (plan_values init (greedy_hours df cap init))
    (energy_mix_problem df cap init cw ew tv).
Proof.
  intros Hrows H0 Hcap.
  set (hs := greedy_hours df cap init).
  assert (Hlen : List.length hs = List.length df) by apply greedy_hours_length.
  split.
  - cbn [lp_constraints energy_mix_problem]. apply Forall_cons.
    + unfold holds. cbn. apply Qabs_of_eq. reflexivity.
    + apply Forall_forall. intros c Hc.
      apply in_flat_map in Hc as ([t row] & Htr & Hc). cbn [fst snd] in Hc.
      destruct (In_nth_error _ _ Htr) as [i Hi].
      apply enumerate_nth in Hi as [-> Hrow].
      assert (Hlt : (i < List.length df)%nat)
        by (apply nth_error_Some; congruence).
      destruct (greedy_hour_in_model df cap init i row Hrows H0 Hcap Hrow)
        as (h & Hh & Hbal & Hs & Hw & Hy & Hch & Hdis & Hsum & Hlev & Hun
            & Hdyn).
      fold hs in Hh, Hdyn.
      assert (Hli : plan_values init hs (battery_level i)
                    = level_before init hs i)
        by (apply plan_values_level; lia).
      assert (Hli1 : plan_values init hs (battery_level (i + 1))
                     = hr_battery_level h)
        by (rewrite Nat.add_1_r; cbn [plan_values]; now rewrite Hh).
      unfold supplied in Hbal.
      cbn [hour_constraints In] in Hc.
      repeat destruct Hc as [<- | Hc]; try contradiction;
        unfold holds; cbn [c_sense c_lhs c_rhs value];
        rewrite ?Hli, ?Hli1; cbn [plan_values]; rewrite ?Hh;
        try apply Qabs_of_eq; lra.
  - cbn [lp_variables energy_mix_problem]. unfold variables.
    rewrite !Forall_app.
    assert (Hfield : forall (family : nat -> LpVariable) (f : HourResult -> Q),
               (forall t h, nth_error hs t = Some h ->
                            plan_values init hs (family t) = f h /\ 0 <= f h) ->
               Forall (within_bounds 0 (plan_values init hs))
                 (LpVariable_dicts family (List.length df) (Some 0) None)).
    { intros family f Hf. apply Forall_forall. intros b Hb.
      apply in_LpVariable_dicts in Hb as (t & Ht & ->).
      unfold within_bounds. cbn [lowBound upBound b_var]. split; [| exact I].
      destruct (nth_error hs t) as [h |] eqn:Eh;
        [| apply nth_error_None in Eh; lia].
      destruct (Hf t h Eh) as [-> Hnn]. lra. }
    assert (Hfact : forall t h, nth_error hs t = Some h ->
               0 <= hr_solar_use h /\ 0 <= hr_wind_use h /\
               0 <= hr_hydro_use h /\ 0 <= hr_battery_charge h /\
               0 <= hr_battery_discharge h /\ 0 <= hr_unmet_demand h).
    { intros t h Eh.
      assert (Hlt : (t < List.length df)%nat)
        by (rewrite <- Hlen; apply nth_error_Some; congruence).
      destruct (nth_error df t) as [row |] eqn:Erow;
        [| apply nth_error_None in Erow; lia].
      destruct (greedy_hour_in_model df cap init t row Hrows H0 Hcap Erow)
        as (h' & Hh' & _ & Hs & Hw & Hy & Hch & Hdis & _ & _ & Hun & _).
      fold hs in Hh'. rewrite Eh in Hh'. injection Hh' as <-.
      repeat split; tauto. }
    repeat split.
    + apply (Hfield solar_use hr_solar_use). intros t h Eh.
      cbn [plan_values]. rewrite Eh. split; [reflexivity | apply (Hfact t h Eh)].
    + apply (Hfield wind_use hr_wind_use). intros t h Eh.
      cbn [plan_values]. rewrite Eh. split; [reflexivity | apply (Hfact t h Eh)].
    + apply (Hfield hydro_use hr_hydro_use). intros t h Eh.
      cbn [plan_values]. rewrite Eh. split; [reflexivity | apply (Hfact t h Eh)].
    + apply (Hfield battery_charge hr_battery_charge). intros t h Eh.
      cbn [plan_values]. rewrite Eh. split; [reflexivity | apply (Hfact t h Eh)].
    + apply (Hfield battery_discharge hr_battery_discharge). intros t h Eh.
      cbn [plan_values]. rewrite Eh. split; [reflexivity | apply (Hfact t h Eh)].
    + apply Forall_forall. intros b Hb.
      apply in_LpVariable_dicts in Hb as (t & Ht & ->).
      unfold within_bounds. cbn [lowBound upBound b_var].
      rewrite plan_values_level by lia.
      destruct (greedy_levels_in_range df cap init Hrows H0 Hcap t) as [Hl0 Hlc];
        [lia |].
      fold hs in Hl0, Hlc. split; lra.
    + apply (Hfield unmet_demand hr_unmet_demand). intros t h Eh.
      cbn [plan_values]. rewrite Eh. split; [reflexivity | apply (Hfact t h Eh)].
Qed.

(* ================================================================== *)
(** * What every plan read off feasible values satisfies *)

Lemma single_day_is_dispatch_model (df : ForecastSeries) (cap init cw ew : Q)
  (tv : bool) :
  dispatch_model (energy_mix_problem df cap init cw ew tv) df cap init.
Proof.
  split; [reflexivity |]. split; [left; reflexivity |].
  exists "Demand_constraint_"%string, "Battery_dynamics_"%string,
    "No_simultaneous_"%string.
  intros t row c. apply hour_constraints_in_single.
Qed.

Lemma multiday_is_dispatch_model (df : ForecastSeries) (cap init cw ew : Q)
  (tv : bool) :
  dispatch_model (multiday_problem df cap init cw ew tv) df cap init.
Proof.
  split; [reflexivity |]. split.
  - cbn [lp_constraints multiday_problem]. apply in_or_app. left. left.
    reflexivity.
  - exists "Demand_"%string, "Battery_"%string, "No_simul_"%string.
    intros t row c. apply hour_constraints_in_multiday.
Qed.

(** The bounds of the variables of hour [t]. *)
Lemma feasible_bounds (tol : Q) (x : LpVariable -> Q) (prob : LpProblem)
  (df : ForecastSeries) (cap init : Q) :
  dispatch_model prob df cap init ->
  feasible tol x prob ->
  (forall t, (t < List.length df)%nat ->
     0 - tol <= x (solar_use t) /\ 0 - tol <= x (wind_use t) /\
     0 - tol <= x (hydro_use t) /\ 0 - tol <= x (battery_charge t) /\
     0 - tol <= x (battery_discharge t) /\ 0 - tol <= x (unmet_demand t)) /\
  (forall t, (t <= List.length df)%nat ->
     0 - tol <= x (battery_level t) /\ x (battery_level t) <= cap + tol).
Proof.
  intros (Hv & _ & _) [_ Hb]. rewrite Hv in Hb. unfold variables in Hb.
  rewrite !Forall_app in Hb.
  destruct Hb as (Hs & Hw & Hy & Hc & Hd & Hl & Hu).
  assert (Hlow : forall family n up t,
             Forall (within_bounds tol x)
               (LpVariable_dicts family n (Some 0) up) ->
             (t < n)%nat ->
             0 - tol <= x (family t) /\
             match up with Some u => x (family t) <= u + tol | None => True end).
  { intros family n up t HF Ht. rewrite Forall_forall in HF.
    apply (HF (mkLpBound (family t) (Some 0) up)).
    unfold LpVariable_dicts. apply in_map_iff. exists t.
    split; [reflexivity | apply in_seq; lia]. }
  split.
  - intros t Ht. repeat split.
    + apply (Hlow _ _ _ t Hs Ht).
    + apply (Hlow _ _ _ t Hw Ht).
    + apply (Hlow _ _ _ t Hy Ht).
    + apply (Hlow _ _ _ t Hc Ht).
    + apply (Hlow _ _ _ t Hd Ht).
    + apply (Hlow _ _ _ t Hu Ht).
  - intros t Ht. apply (Hlow battery_level _ (Some cap) t Hl). lia.
Qed.

(** The constraints of hour [t], read on the values. *)
Lemma feasible_hour (tol : Q) (x : LpVariable -> Q) (prob : LpProblem)
  (df : ForecastSeries) (cap init : Q) (t : nat) (row : HourRecord) :
  dispatch_model prob df cap init ->
  feasible tol x prob ->
  nth_error df t = Some row ->
  Qabs (x (solar_use t) + x (wind_use t) + x (hydro_use t)
        + x (battery_discharge t) - x (battery_charge t)
        + x (unmet_demand t) - demand row) <= tol /\
  x (solar_use t) <= solar_available row + tol /\
  x (wind_use t) <= wind_available row + tol /\
  x (hydro_use t) <= hydro_available row + tol /\
  Qabs (x (battery_level (t + 1))
        - (x (battery_level t) + x (battery_charge t) * 0.9
           - x (battery_discharge t))) <= tol /\
  x (battery_charge t) <= cap * 0.2 + tol /\
  x (battery_discharge t) <= cap * 0.2 + tol /\
  x (battery_charge t) + x (battery_discharge t) <= cap * 0.2 + tol.
Proof.
  intros (_ & _ & d & b & e & Hin) [Hc _] Hrow.
  rewrite Forall_forall in Hc.
  assert (H : forall c, In c (hour_constraints d b e cap t row) ->
                        holds tol x c)
    by (intros c Hcin; apply Hc; exact (Hin t row c Hrow Hcin)).
  cbn [hour_constraints In] in H.
  repeat split.
  - apply (H _ (or_introl eq_refl)).
  - apply (H _ (or_intror (or_introl eq_refl))).
  - apply (H _ (or_intror (or_intror (or_introl eq_refl)))).
  - apply (H _ (or_intror (or_intror (or_intror (or_introl eq_refl))))).
  - apply (H _ (or_intror (or_intror (or_intror (or_intror
                  (or_introl eq_refl)))))).
  - apply (H _ (or_intror (or_intror (or_intror (or_intror (or_intror
                  (or_introl eq_refl))))))).
  - apply (H _ (or_intror (or_intror (or_intror (or_intror (or_intror
                  (or_intror (or_introl eq_refl)))))))).
  - apply (H _ (or_intror (or_intror (or_intror (or_intror (or_intror
                  (or_intror (or_intror (or_introl eq_refl))))))))).
Qed.

Lemma feasible_initial (tol : Q) (x : LpVariable -> Q) (prob : LpProblem)
  (df : ForecastSeries) (cap init : Q) :
  dispatch_model prob df cap init ->
  feasible tol x prob ->
  Qabs (x (battery_level 0%nat) - init) <= tol.
Proof.
  intros (_ & Hi & _) [Hc _]. rewrite Forall_forall in Hc.
  exact (Hc _ Hi).
Qed.

(** The hours read off values that satisfy a dispatch model within [tol]
    respect every ceiling within [tol]. *)
Lemma extracted_plan_ceilings (tol : Q) (x : LpVariable -> Q)
  (prob : LpProblem) (df : ForecastSeries) (cap init : Q) :
  dispatch_model prob df cap init ->
  feasible tol x prob ->
  forall t row h,
    nth_error df t = Some row ->
    nth_error (extract_hours x df) t = Some h ->
    (0 - tol <= hr_solar_use h /\ hr_solar_use h <= solar_available row + tol) /\
    (0 - tol <= hr_wind_use h /\ hr_wind_use h <= wind_available row + tol) /\
    (0 - tol <= hr_hydro_use h /\ hr_hydro_use h <= hydro_available row + tol) /\
    (0 - tol <= hr_battery_charge h /\ hr_battery_charge h <= cap * 0.2 + tol) /\
    (0 - tol <= hr_battery_discharge h /\
     hr_battery_discharge h <= cap * 0.2 + tol) /\
    hr_battery_charge h + hr_battery_discharge h <= cap * 0.2 + tol /\
    (0 - tol <= hr_battery_level h /\ hr_battery_level h <= cap + tol) /\
    0 - tol <= hr_unmet_demand h /\
    demand row - solar_available row - wind_available row
    - hydro_available row - cap * 0.2 - tol * 6
    <= hr_unmet_demand h.
Proof.
  intros Hm Hf t row h Hrow Hh.
  destruct (extract_hours_nth _ _ _ _ Hh) as (row' & Hrow' & ->).
  rewrite Hrow in Hrow'. injection Hrow' as <-.
  assert (Ht : (t < List.length df)%nat) by (apply nth_error_Some; congruence).
  destruct (feasible_bounds tol x prob df cap init Hm Hf) as [Hb Hl].
  destruct (Hb t Ht) as (Hs & Hw & Hy & Hc & Hd & Hu).
  destruct (Hl (t + 1)%nat) as [Hl0 Hl1]; [lia |].
  destruct (feasible_hour tol x prob df cap init t row Hm Hf Hrow)
    as (Hbal & Hsa & Hwa & Hya & _ & Hcr & Hdr & Hex).
  apply Qabs_Qle_condition in Hbal.
  cbn [hour_result hr_solar_use hr_wind_use hr_hydro_use hr_battery_charge
       hr_battery_discharge hr_battery_level hr_unmet_demand].
  repeat split; try assumption; lra.
Qed.

Lemma level_before_extract (x : LpVariable -> Q) (df : ForecastSeries)
  (t : nat) :
  (t <= List.length df)%nat ->
  level_before (x (battery_level 0%nat)) (extract_hours x df) t
  = x (battery_level t).
Proof.
  intros Ht. destruct t as [| t]; [reflexivity |]. cbn [level_before].
  destruct (nth_error (extract_hours x df) t) as [h |] eqn:E.
  - destruct (extract_hours_nth _ _ _ _ E) as (row & _ & ->).
    cbn [hr_battery_level hour_result]. now rewrite Nat.add_1_r.
  - apply nth_error_None in E. rewrite extract_hours_length in E. lia.
Qed.

Lemma level_before_init_eq (a b : Q) (hs : list HourResult) (t : nat) :
  a == b -> level_before a hs t == level_before b hs t.
Proof.
  intros Hab. destruct t as [| t]; cbn [level_before]; [exact Hab |].
  destruct (nth_error hs t); [reflexivity | exact Hab].
Qed.

Lemma extracted_plan_dynamics (x : LpVariable -> Q) (prob : LpProblem)
  (df : ForecastSeries) (cap init : Q) :
  dispatch_model prob df cap init ->
  feasible 0 x prob ->
  forall t h,
    nth_error (extract_hours x df) t = Some h ->
    hr_battery_level h
    == level_before init (extract_hours x df) t
       + hr_battery_charge h * 0.9 - hr_battery_discharge h.
Proof.
  intros Hm Hf t h Hh.
  destruct (extract_hours_nth _ _ _ _ Hh) as (row & Hrow & ->).
  assert (Ht : (t < List.length df)%nat) by (apply nth_error_Some; congruence).
  destruct (feasible_hour 0 x prob df cap init t row Hm Hf Hrow)
    as (_ & _ & _ & _ & Hdyn & _).
  pose proof (feasible_initial 0 x prob df cap init Hm Hf) as Hinit.
  apply Qabs_le_0 in Hdyn. apply Qabs_le_0 in Hinit.
  assert (Hi : x (battery_level 0%nat) == init) by lra.
  rewrite <- (level_before_init_eq _ _ (extract_hours x df) t Hi).
  rewrite level_before_extract by lia.
  cbn [hour_result hr_battery_level hr_battery_charge hr_battery_discharge].
  lra.
Qed.

(** Hour-by-hour battery dynamics add up to conservation over the plan. *)
Lemma conservation_of_dynamics (init : Q) (hs : list HourResult) :
  (forall t h,
      nth_error hs t = Some h ->
      hr_battery_level h
      == level_before init hs t
         + hr_battery_charge h * 0.9 - hr_battery_discharge h) ->
  forall t h,
    nth_error hs t = Some h ->
    hr_battery_level h == init + battery_net (firstn (S t) hs).
Proof.
  intros Hdyn. induction t as [| t IH]; intros h Hh;
    rewrite (firstn_S_snoc _ _ _ Hh); unfold battery_net;
    rewrite sum_over_snoc, (Hdyn _ _ Hh).
  - cbn [level_before firstn sum_over fold_right]. lra.
  - cbn [level_before].
    destruct (nth_error hs t) as [h' |] eqn:E.
    + rewrite (IH h' eq_refl). unfold battery_net. lra.
    + exfalso. apply nth_error_None in E.
      assert (H : nth_error hs (S t) <> None) by congruence.
      apply nth_error_Some in H. lia.
Qed.

(** X3.  When the solver's values satisfy the model within [tol] and the
    status is optimal, the plan either optimizer returns respects every
    per-hour ceiling within [tol]: each source's use lies between 0 and its
    availability, charge, discharge and their sum lie between 0 and
    max_rate = 0.2 * capacity, the battery level lies in [0, capacity] and
    the unmet demand is nonnegative; and the unmet demand is at least the
    demand less the three availabilities and max_rate (less 6 tol). *)
Theorem optimizer_plan_respects_ceilings (solve : LpProblem -> LpSolution)
  (df : ForecastSeries) (days_arg : nat) (cap init cw ew tol : Q) (tv : bool)
  (log : list LpProblem) (multiday : bool) :
  let prob :=
    if multiday then multiday_problem df cap init cw ew tv
    else energy_mix_problem df cap init cw ew tv in
  let result :=
    if multiday
    then optimize_multiday_energy_mix solve df days_arg cap init cw ew tv log
    else optimize_energy_mix solve df cap init cw ew tv log in
  df <> [] ->
  lp_status (solve prob) = LpStatusOptimal ->
  feasible tol (varValue (solve prob)) prob ->
  exists plan,
    fst result = Ok plan /\
    forall t row h,
      nth_error df t = Some row -> nth_error (hours plan) t = Some h ->
      (0 - tol <= hr_solar_use h /\
       hr_solar_use h <= solar_available row + tol) /\
      (0 - tol <= hr_wind_use h /\ hr_wind_use h <= wind_available row + tol) /\
      (0 - tol <= hr_hydro_use h /\
       hr_hydro_use h <= hydro_available row + tol) /\
      (0 - tol <= hr_battery_charge h /\
       hr_battery_charge h <= cap * 0.2 + tol) /\
      (0 - tol <= hr_battery_discharge h /\
       hr_battery_discharge h <= cap * 0.2 + tol) /\
      hr_battery_charge h + hr_battery_discharge h <= cap * 0.2 + tol /\
      (0 - tol <= hr_battery_level h /\ hr_battery_level h <= cap + tol) /\
      0 - tol <= hr_unmet_demand h /\
      demand row - solar_available row - wind_available row
      - hydro_available row - cap * 0.2 - tol * 6
      <= hr_unmet_demand h.
Proof.
  intros prob result Hne Hst Hf. destruct multiday; subst prob result.
  - unfold optimize_multiday_energy_mix.
    destruct (multiday_report_optimal solve _ df days_arg tv log Hst Hne)
      as (c & e & u & -> & _).
    eexists. split; [reflexivity |]. cbn [hours].
    apply (extracted_plan_ceilings tol _ _ df cap init
             (multiday_is_dispatch_model df cap init cw ew tv) Hf).
  - destruct (optimize_energy_mix_optimal solve df cap init cw ew tv log
                Hst Hne) as (c & e & u & -> & _).
    eexists. split; [reflexivity |]. cbn [hours].
    apply (extracted_plan_ceilings tol _ _ df cap init
             (single_day_is_dispatch_model df cap init cw ew tv) Hf).
Qed.

(** X4.  When the solver's values satisfy the model exactly and the status
    is optimal, the plan either optimizer returns keeps the battery's books:
    the level after each hour is the level carried into it (the initial
    charge for the first hour) plus 0.9 times the charge less the discharge,
    and the level after hour t is the initial charge plus the net intake of
    hours 0..t. *)
Theorem optimizer_battery_accounting (solve : LpProblem -> LpSolution)
  (df : ForecastSeries) (days_arg : nat) (cap init cw ew : Q) (tv : bool)
  (log : list LpProblem) (multiday : bool) :
  let prob :=
    if multiday then multiday_problem df cap init cw ew tv
    else energy_mix_problem df cap init cw ew tv in
  let result :=
    if multiday
    then optimize_multiday_energy_mix solve df days_arg cap init cw ew tv log
    else optimize_energy_mix solve df cap init cw ew tv log in
  df <> [] ->
  lp_status (solve prob) = LpStatusOptimal ->
  feasible 0 (varValue (solve prob)) prob ->
  exists plan,
    fst result = Ok plan /\
    forall t h,
      nth_error (hours plan) t = Some h ->
      hr_battery_level h
      == level_before init (hours plan) t
         + hr_battery_charge h * 0.9 - hr_battery_discharge h /\
      hr_battery_level h == init + battery_net (firstn (S t) (hours plan)).
Proof.
  intros prob result Hne Hst Hf.
  assert (Hboth : forall p,
             dispatch_model p df cap init ->
             feasible 0 (varValue (solve p)) p ->
             forall t h,
               nth_error (extract_hours (varValue (solve p)) df) t = Some h ->
               hr_battery_level h
               == level_before init (extract_hours (varValue (solve p)) df) t
                  + hr_battery_charge h * 0.9 - hr_battery_discharge h /\
               hr_battery_level h
               == init + battery_net
                           (firstn (S t)
                              (extract_hours (varValue (solve p)) df))).
  { intros p Hm Hfp t h Hh.
    pose proof (extracted_plan_dynamics _ p df cap init Hm Hfp) as Hdyn.
    split; [exact (Hdyn t h Hh) |].
    exact (conservation_of_dynamics init _ Hdyn t h Hh). }
  destruct multiday; subst prob result.
  - unfold optimize_multiday_energy_mix.
    destruct (multiday_report_optimal solve _ df days_arg tv log Hst Hne)
      as (c & e & u & -> & _).
    eexists. split; [reflexivity |]. cbn [hours].
    apply Hboth; [apply multiday_is_dispatch_model | exact Hf].
  - destruct (optimize_energy_mix_optimal solve df cap init cw ew tv log
                Hst Hne) as (c & e & u & -> & _).
    eexists. split; [reflexivity |]. cbn [hours].
    apply Hboth; [apply single_day_is_dispatch_model | exact Hf].
Qed.

(* ================================================================== *)
(** * The objective and the reported totals *)

Lemma value_fold_add_sum (x : LpVariable -> Q)
  (f : nat * HourRecord -> LpAffineExpression) (g : HourResult -> Q)
  (l : list (nat * HourRecord)) :
  (forall tr, value x (f tr) == g (hour_result x (fst tr) (snd tr))) ->
  forall a,
    value x (fold_left (fun acc tr => EAdd acc (f tr)) l a)
    == value x a
       + sum_over g (map (fun tr => hour_result x (fst tr) (snd tr)) l).
Proof.
  intros Hfg. induction l as [| tr l IH]; intros a;
    cbn [fold_left map sum_over fold_right].
  - lra.
  - rewrite IH. cbn [value]. rewrite Hfg. unfold sum_over. lra.
Qed.

Lemma value_lpSum_unmet (x : LpVariable -> Q) (l : list (nat * HourRecord)) :
  value x (lpSum (map (fun t => EVar (unmet_demand t)) (map fst l)))
  == sum_over hr_unmet_demand
       (map (fun tr => hour_result x (fst tr) (snd tr)) l).
Proof.
  unfold lpSum.
  assert (G : forall a,
             value x (fold_left EAdd
                        (map (fun t => EVar (unmet_demand t)) (map fst l)) a)
             == value x a
                + sum_over hr_unmet_demand
                    (map (fun tr => hour_result x (fst tr) (snd tr)) l)).
  { induction l as [| tr l IH]; intros a;
      cbn [fold_left map sum_over fold_right].
    - lra.
    - rewrite IH. cbn [value hour_result hr_unmet_demand].
      unfold sum_over. lra. }
  rewrite G. cbn [value]. lra.
Qed.

Lemma enumerate_fst {A : Type} (l : list A) :
  map fst (enumerate l) = seq 0 (List.length l).
Proof.
  unfold enumerate.
  assert (G : forall (l : list A) (s : list nat),
             List.length s = List.length l -> map fst (combine s l) = s).
  { clear l. induction l as [| a l IH]; intros [| n s] H; try discriminate;
      [reflexivity |].
    cbn [combine map fst]. f_equal. apply IH. now injection H. }
  apply G. apply length_seq.
Qed.

(** The objective the model minimizes is, on any values, the weighted sum
    of the totals of the plan read off those values: total cost at the
    fixed cost factors, emissions in the mode of the call priced at 0.1, and
    unmet demand at the penalty 10000. *)
Lemma objective_is_weighted_totals (x : LpVariable -> Q) (df : ForecastSeries)
  (cw ew : Q) (tv : bool) :
  value x (objective df cw ew tv)
  == weighted_objective cw ew tv (extract_hours x df).
Proof.
  unfold objective, weighted_objective, extract_hours. cbn [value].
  rewrite <- enumerate_fst, value_lpSum_unmet.
  rewrite (value_fold_add_sum x _ hour_cost_of).
  2:{ intros tr. reflexivity. }
  rewrite (value_fold_add_sum x _ (mode_emissions_of tv)).
  2:{ intros tr. unfold hour_emissions, mode_emissions_of,
        hour_varying_emissions_of, hour_fixed_emissions_of.
      destruct emission_factors_values as (Hs & Hw & Hh).
      destruct tv; cbn [value hour_result hr_solar_use hr_wind_use
                          hr_hydro_use hr_datetime];
        rewrite ?Hs, ?Hw, ?Hh; reflexivity. }
  cbn [value]. lra.
Qed.

(** X5.  The objective value either optimizer reports is the weighted sum
    of the plan's cost, emissions in the mode of the call, and unmet demand:
    cost_weight * cost + emission_weight * 0.1 * emissions + 10000 * unmet.
    For the multi-day optimizer, and for the single-day optimizer under
    fixed accounting, these are the totals the plan reports. *)
Theorem objective_value_is_weighted_totals (solve : LpProblem -> LpSolution)
  (df : ForecastSeries) (days_arg : nat) (cap init cw ew : Q) (tv : bool)
  (log : list LpProblem) (multiday : bool) :
  let prob :=
    if multiday then multiday_problem df cap init cw ew tv
    else energy_mix_problem df cap init cw ew tv in
  let result :=
    if multiday
    then optimize_multiday_energy_mix solve df days_arg cap init cw ew tv log
    else optimize_energy_mix solve df cap init cw ew tv log in
  df <> [] ->
  lp_status (solve prob) = LpStatusOptimal ->
  exists plan v c e u,
    fst result = Ok plan /\
    objective_value plan = Some v /\
    v == weighted_objective cw ew tv (hours plan) /\
    total_cost plan = Finite c /\ total_emissions plan = Finite e /\
    total_unmet plan = Finite u /\
    (multiday = true \/ tv = false ->
     v == c * cw + e * ew * 0.1 + u * 10000).
Proof.
  intros prob result Hne Hst. destruct multiday; subst prob result.
  - unfold optimize_multiday_energy_mix.
    destruct (multiday_report_optimal solve _ df days_arg tv log Hst Hne)
      as (c & e & u & -> & Hc & He & Hu).
    do 5 eexists. cbn [fst objective_value hours total_cost total_emissions
                        total_unmet lp_objective multiday_problem].
    repeat (split; [reflexivity |]).
    split; [apply objective_is_weighted_totals |].
    repeat (split; [reflexivity |]).
    intros _. rewrite objective_is_weighted_totals.
    unfold weighted_objective, mode_emissions_of. rewrite Hc, Hu, He.
    destruct tv; reflexivity.
  - destruct (optimize_energy_mix_optimal solve df cap init cw ew tv log
                Hst Hne) as (c & e & u & -> & Hc & He & Hu).
    do 5 eexists. cbn [fst objective_value hours total_cost total_emissions
                        total_unmet lp_objective energy_mix_problem].
    repeat (split; [reflexivity |]).
    split; [apply objective_is_weighted_totals |].
    repeat (split; [reflexivity |]).
    intros [Hm | ->]; [discriminate |].
    rewrite objective_is_weighted_totals.
    unfold weighted_objective, mode_emissions_of. rewrite Hc, Hu, He.
    reflexivity.
Qed.

(* ================================================================== *)
(** * The optimizer against the greedy baseline *)

(** Reading the greedy plan's values back off the model gives the greedy
    plan. *)
Lemma greedy_plan_round_trip (df : ForecastSeries) (cap init : Q) :
  extract_hours (plan_values init (greedy_hours df cap init)) df
  = greedy_hours df cap init.
Proof.
  apply nth_error_ext. intros t.
  set (hs := greedy_hours df cap init).
  destruct (nth_error hs t) as [h |] eqn:Eh.
  - destruct (greedy_hours_nth _ _ _ _ _ Eh) as (row & Hrow & Hh).
    unfold extract_hours. rewrite nth_error_map.
    pose proof (enumerate_In df t row Hrow) as Hin.
    destruct (nth_error (enumerate df) t) as [[t' row'] |] eqn:E.
    + apply enumerate_nth in E as [-> Hrow']. rewrite Hrow in Hrow'.
      injection Hrow' as <-. cbn [option_map fst snd]. f_equal.
      pose proof (greedy_hour_fields cap (cap * 0.2)
                    (level_before init hs t) t row) as Hf.
      cbv zeta in Hf. fold hs in Hh. rewrite <- Hh in Hf.
      destruct Hf as (H1 & H2 & H3 & H4 & _).
      unfold hour_result. rewrite Nat.add_1_r. cbn [plan_values].
      rewrite Eh, <- H1, <- H2, <- H3, <- H4. destruct h; reflexivity.
    + apply nth_error_None in E. unfold enumerate in E.
      rewrite length_combine, length_seq, Nat.min_id in E.
      assert (t < List.length df)%nat by (apply nth_error_Some; congruence).
      lia.
  - apply nth_error_None. rewrite extract_hours_length.
    apply nth_error_None in Eh. unfold hs in Eh.
    now rewrite greedy_hours_length in Eh.
Qed.

(** X6.  On a series with nonnegative demand and availabilities and an
    initial charge in [0, capacity], when the solver's answer for the
    single-day model is optimal (it satisfies the model and no values that
    do have a smaller objective), the objective value of the optimizer's
    plan is at most the weighted objective of the greedy plan of the same
    inputs: the optimizer is never worse than the greedy baseline on the
    measure it minimizes. *)
Theorem optimizer_never_worse_than_greedy (solve : LpProblem -> LpSolution)
  (df : ForecastSeries) (cap init cw ew : Q) (tv : bool)
  (log : list LpProblem) :
  let prob := energy_mix_problem df cap init cw ew tv in
  (forall row, In row df -> nonneg_row row) ->
  0 <= init -> init <= cap ->
  df <> [] ->
  lp_status (solve prob) = LpStatusOptimal ->
  lp_optimal (varValue (solve prob)) prob ->
  exists plan greedy_plan v,
    fst (optimize_energy_mix solve df cap init cw ew tv log) = Ok plan /\
    greedy_energy_mix df cap init = Ok greedy_plan /\
    objective_value plan = Some v /\
    v <= weighted_objective cw ew tv (hours greedy_plan).
Proof.
  intros prob Hrows H0 Hcap Hne Hst [_ Hmin].
  destruct (optimize_energy_mix_optimal solve df cap init cw ew tv log
              Hst Hne) as (c & e & u & -> & _).
  destruct (greedy_energy_mix_ok df cap init Hne) as (gc & ge & gu & -> & _).
  do 3 eexists. cbn [fst objective_value hours].
  repeat (split; [reflexivity |]).
  pose proof (Hmin _ (greedy_plan_is_feasible_point df cap init cw ew tv
                        Hrows H0 Hcap)) as Hle.
  cbn [lp_objective prob energy_mix_problem] in Hle |- *.
  rewrite (objective_is_weighted_totals
             (plan_values init (greedy_hours df cap init))) in Hle.
  now rewrite greedy_plan_round_trip in Hle.
Qed.

(* ================================================================== *)
(** * When the terminal band is out of reach *)

Lemma Qnat_S (n : nat) : Qnat (S n) == Qnat n + 1.
Proof.
  unfold Qnat. rewrite Nat2Z.inj_succ. unfold Z.succ.
  rewrite inject_Z_plus. reflexivity.
Qed.

(** In one hour the battery level rises by at most 0.9 * max_rate and falls
    by at most max_rate. *)
Lemma feasible_level_reach (x : LpVariable -> Q) (prob : LpProblem)
  (df : ForecastSeries) (cap init : Q) :
  dispatch_model prob df cap init ->
  feasible 0 x prob ->
  forall t, (t <= List.length df)%nat ->
    x (battery_level t) <= init + cap * 0.18 * Qnat t /\
    init - cap * 0.2 * Qnat t <= x (battery_level t).
Proof.
  intros Hm Hf.
  pose proof (feasible_initial 0 x prob df cap init Hm Hf) as Hinit.
  apply Qabs_le_0 in Hinit.
  destruct (feasible_bounds 0 x prob df cap init Hm Hf) as [Hb _].
  induction t as [| t IH]; intros Ht.
  - unfold Qnat. cbn [Z.of_nat]. change (inject_Z 0) with 0. lra.
  - destruct IH as [IHu IHl]; [lia |].
    destruct (nth_error df t) as [row |] eqn:Erow;
      [| apply nth_error_None in Erow; lia].
    destruct (feasible_hour 0 x prob df cap init t row Hm Hf Erow)
      as (_ & _ & _ & _ & Hdyn & Hc & Hd & _).
    apply Qabs_le_0 in Hdyn. rewrite Nat.add_1_r in Hdyn.
    destruct (Hb t) as (_ & _ & _ & Hc0 & Hd0 & _); [lia |].
    rewrite Qnat_S. split; lra.
Qed.

(** X8.  When the battery cannot reach the terminal band within the horizon
    -- initial + 0.18 * capacity * H below 0.2 * capacity, or
    initial - 0.2 * capacity * H above 0.8 * capacity -- no values satisfy
    the multi-day model, whatever the forecast; a solver that reports
    optimal only for values satisfying the model then makes the multi-day
    optimizer return its failure plan. *)
Theorem multiday_fails_when_band_out_of_reach
  (solve : LpProblem -> LpSolution) (df : ForecastSeries) (days_arg : nat)
  (cap init cw ew : Q) (tv : bool) (log : list LpProblem) :
  let prob := multiday_problem df cap init cw ew tv in
  let H := Qnat (List.length df) in
  init + cap * 0.18 * H < cap * 0.2 \/ cap * 0.8 < init - cap * 0.2 * H ->
  (forall x, ~ feasible 0 x prob) /\
  ((lp_status (solve prob) = LpStatusOptimal ->
    feasible 0 (varValue (solve prob)) prob) ->
   exists plan,
     fst (optimize_multiday_energy_mix solve df days_arg cap init cw ew tv log)
     = Ok plan /\
     error plan <> None /\ hours plan = [] /\ total_cost plan = Infinity).
Proof.
  intros prob H Hreach.
  assert (Hno : forall x, ~ feasible 0 x prob).
  { intros x Hf.
    destruct (feasible_level_reach x prob df cap init
                (multiday_is_dispatch_model df cap init cw ew tv) Hf
                (List.length df) (le_n _)) as [Hu Hl].
    apply multiday_feasible_iff in Hf as [_ [Hb1 Hb2]].
    fold H in Hu, Hl. destruct Hreach; lra. }
  split; [exact Hno |].
  intros Hsound.
  assert (Hst : lp_status (solve prob) <> LpStatusOptimal)
    by (intros Hopt; exact (Hno _ (Hsound Hopt))).
  unfold optimize_multiday_energy_mix. fold prob.
  rewrite (multiday_report_not_optimal solve prob df days_arg tv log Hst).
  eexists. split; [reflexivity |]. cbn. repeat split. discriminate.
Qed.

Lemma multiday_fails_when_band_out_of_reach_witness :
  (0 + 500 * 0.18 * Qnat (List.length noon_series) < 500 * 0.2 \/
   500 * 0.8 < 0 - 500 * 0.2 * Qnat (List.length noon_series)) /\
  (forall x, ~ feasible 0 x (multiday_problem noon_series 500 0 0.7 0.3 true)).
Proof.
  assert (Hreach : 0 + 500 * 0.18 * Qnat (List.length noon_series) < 500 * 0.2 \/
                   500 * 0.8 < 0 - 500 * 0.2 * Qnat (List.length noon_series))
    by (left; vm_compute; reflexivity).
  split; [exact Hreach |].
  exact (proj1 (multiday_fails_when_band_out_of_reach infeasible_solver
                  noon_series 1 500 0 0.7 0.3 true [] Hreach)).
Defined.

(* ================================================================== *)
(** * The greedy dispatcher across price scenarios *)

Lemma greedy_hour_scenario (cap mr lvl m : Q) (t : nat) (row : HourRecord) :
  greedy_hour cap mr lvl t (scenario_row m row)
  = (scale_hour_price m (fst (greedy_hour cap mr lvl t row)),
     snd (greedy_hour cap mr lvl t row)).
Proof.
  unfold greedy_hour, scenario_row. cbv zeta.
  cbn [demand solar_available wind_available hydro_available price datetime].
  repeat match goal with
         | |- context [let '(_, _) := (if ?c then _ else _) in _] => destruct c
         end; reflexivity.
Qed.

Lemma greedy_loop_scenario (cap mr m : Q) (rows : list (nat * HourRecord)) :
  forall lvl,
    greedy_loop cap mr lvl
      (map (fun tr => (fst tr, scenario_row m (snd tr))) rows)
    = map (scale_hour_price m) (greedy_loop cap mr lvl rows).
Proof.
  induction rows as [| [t row] rows IH]; intros lvl; cbn [map greedy_loop];
    [reflexivity |].
  cbn [fst snd]. rewrite greedy_hour_scenario.
  destruct (greedy_hour cap mr lvl t row) as [h lvl']. cbn [fst snd map].
  now rewrite IH.
Qed.

Lemma enumerate_map {A B : Type} (f : A -> B) (l : list A) :
  enumerate (map f l) = map (fun tr => (fst tr, f (snd tr))) (enumerate l).
Proof.
  unfold enumerate. rewrite length_map.
  generalize (seq 0 (List.length l)) as s.
  induction l as [| a l IH]; intros [| n s]; cbn [map combine]; try reflexivity.
  cbn [fst snd]. now rewrite IH.
Qed.

Lemma greedy_hours_scenario (df : ForecastSeries) (cap init m : Q) :
  greedy_hours (scenario_of df m) cap init
  = map (scale_hour_price m) (greedy_hours df cap init).
Proof.
  unfold greedy_hours, scenario_of.
  change (fun row => {| datetime := datetime row; demand := demand row;
                        solar_available := solar_available row;
                        wind_available := wind_available row;
                        hydro_available := hydro_available row;
                        price := price row * m |})
    with (scenario_row m).
  rewrite enumerate_map. apply greedy_loop_scenario.
Qed.

Lemma sum_over_map (f : HourResult -> Q) (g : HourResult -> HourResult)
  (l : list HourResult) :
  sum_over f (map g l) = sum_over (fun h => f (g h)) l.
Proof.
  induction l as [| h l IH]; cbn [map sum_over fold_right]; [reflexivity |].
  unfold sum_over in IH. now rewrite IH.
Qed.

Lemma sum_over_scale (f : HourResult -> Q) (k : Q) (l : list HourResult) :
  sum_over (fun h => f h * k) l == sum_over f l * k.
Proof.
  induction l as [| h l IH]; cbn [sum_over fold_right].
  - lra.
  - unfold sum_over in IH. rewrite IH. lra.
Qed.

Lemma scaled_plan_totals (m : Q) (l : list HourResult) :
  sum_over hour_cost_of (map (scale_hour_price m) l)
  == sum_over hour_cost_of l * m /\
  sum_over hour_fixed_emissions_of (map (scale_hour_price m) l)
  == sum_over hour_fixed_emissions_of l /\
  sum_over hr_unmet_demand (map (scale_hour_price m) l)
  == sum_over hr_unmet_demand l.
Proof.
  rewrite !sum_over_map. repeat split; try reflexivity.
  rewrite <- sum_over_scale. apply sum_over_ext. intros h.
  unfold hour_cost_of, scale_hour_price. cbn. lra.
Qed.



(* ================================================================== *)
(** * The elasticity of a sweep *)

Lemma Qeq_bool_false (a b : Q) : ~ a == b -> Qeq_bool a b = false.
Proof.
  intros H. destruct (Qeq_bool a b) eqn:E; [| reflexivity].
  apply Qeq_bool_eq in E. contradiction.
Qed.

Lemma Qnat_pos (n : nat) : (0 < n)%nat -> 0 < Qnat n.
Proof.
  intros H. unfold Qnat. change 0 with (inject_Z 0).
  rewrite <- Zlt_Qlt. lia.
Qed.

Lemma fold_np_add_ones (l : list float64) :
  Forall (fun x => float_is x 1) l ->
  forall a, float_is (fold_left np_add l (Real a)) (a + Qnat (List.length l)).
Proof.
  induction 1 as [| x l Hx _ IH]; intros a; cbn [fold_left List.length].
  - cbn [float_is]. unfold Qnat. cbn [Z.of_nat]. change (inject_Z 0) with 0.
    lra.
  - destruct x as [q |]; [| contradiction]. cbn [float_is] in Hx.
    cbn [np_add].
    specialize (IH (a + q)).
    destruct (fold_left np_add l (Real (a + q))) as [s |]; [| contradiction].
    cbn [float_is] in IH |- *. rewrite IH, Hx, Qnat_S. lra.
Qed.

Lemma np_mean_ones (l : list float64) :
  l <> [] -> Forall (fun x => float_is x 1) l -> float_is (np_mean l) 1.
Proof.
  intros Hne Hall. unfold np_mean.
  pose proof (fold_np_add_ones l Hall 0) as H.
  destruct (fold_left np_add l (Real 0)) as [s |]; [| contradiction].
  cbn [float_is] in H |- *. rewrite H.
  assert (Hpos : 0 < Qnat (List.length l))
    by (apply Qnat_pos; destruct l; [congruence | cbn; lia]).
  field. lra.
Qed.

(** On entries whose cost is proportional to their multiplier, every
    elasticity of the loop is 1. *)
Lemma elasticities_proportional (C : Q) (data : list Entry) :
  ~ C == 0 ->
  Forall (proportional_cost C) data ->
  Forall (fun e => ~ multiplier e == 0) data ->
  consecutive_distinct (map multiplier data) ->
  exists es,
    elasticities data = Returns es /\
    List.length es = (List.length data - 1)%nat /\
    Forall (fun x => float_is x 1) es.
Proof.
  intros HC.
  induction data as [| prev rest IH]; intros Hprop Hnz Hdist.
  - exists []. repeat split. constructor.
  - destruct rest as [| curr rest'].
    + exists []. repeat split. constructor.
    + cbn [map] in Hdist. destruct Hdist as [Hne Hdist].
      inversion Hprop as [| ? ? (p & Ep & Hp) Hprop']; subst.
      inversion Hnz as [| ? ? Hmp Hnz']; subst.
      destruct (IH Hprop' Hnz' Hdist) as (es & Ees & Hlen & Hall).
      inversion Hprop' as [| ? ? (c & Ec & Hc) _]; subst.
      inversion Hnz' as [| ? ? Hmc _]; subst.
      cbn [elasticities] in Ees |- *.
      rewrite (Qeq_bool_false _ _ Hmp), Ees.
      assert (Hpc : ~ (multiplier curr - multiplier prev) / multiplier prev
                      == 0).
      { intros H0.
        assert (Hz : multiplier curr - multiplier prev == 0).
        { rewrite <- (Qmult_div_r (multiplier curr - multiplier prev)
                        (multiplier prev) Hmp), H0. ring. }
        apply Hne. lra. }
      rewrite (Qeq_bool_false _ _ Hpc). cbn [negb].
      eexists. split; [reflexivity |]. split.
      * cbn [List.length] in Hlen |- *. lia.
      * constructor; [| exact Hall].
        rewrite Ep, Ec. unfold cost_change_of.
        assert (Hp0 : ~ p == 0) by (rewrite Hp; intros H0; nra).
        rewrite (Qeq_bool_false _ _ Hp0). cbn [elasticity_of float_is].
        rewrite Hc, Hp. field. repeat split; try assumption.
        intros H0. apply Hne. lra.
Qed.

Lemma greedy_entry_proportional (df : ForecastSeries) (cap init m : Q) :
  df <> [] ->
  exists e,
    greedy_entry df cap init m = Some e /\
    multiplier e = m /\
    proportional_cost (sum_over hour_cost_of (greedy_hours df cap init)) e.
Proof.
  intros Hne.
  destruct (greedy_energy_mix_ok (scenario_of df m) cap init
              (scenario_of_nonempty df m Hne))
    as (c' & e' & u' & E & Hc' & _).
  unfold greedy_entry. rewrite E. eexists. split; [reflexivity |].
  split; [reflexivity |].
  exists c'. cbn [entry_of entry_total_cost total_cost multiplier].
  split; [reflexivity |].
  rewrite Hc', greedy_hours_scenario.
  destruct (scaled_plan_totals m (greedy_hours df cap init)) as (-> & _).
  ring.
Qed.

Lemma entries_of_map_Some (f : Q -> option Entry) (P : Entry -> Prop)
  (ms : list Q) :
  (forall m, exists e, f m = Some e /\ multiplier e = m /\ P e) ->
  forall l, map Some l = map f ms ->
            map multiplier l = ms /\ Forall P l.
Proof.
  intros Hf. induction ms as [| m ms IH]; intros [| e l] H; try discriminate.
  - split; [reflexivity | constructor].
  - cbn [map] in H. injection H as He Hl.
    destruct (Hf m) as (e' & Ee' & Hm & HP). rewrite Ee' in He.
    injection He as ->. destruct (IH l Hl) as [IHm IHP].
    cbn [map]. rewrite Hm, IHm. split; [reflexivity |].
    constructor; assumption.
Qed.

(** What the report of a sweep over a nonempty series holds. *)
Lemma sweep_report (solve : LpProblem -> LpSolution) (df : ForecastSeries)
  (cap init cw ew : Q) (scen : option (list Q)) (tv : bool)
  (log : list LpProblem) :
  df <> [] ->
  exists res,
    fst (run_price_sensitivity solve df cap init cw ew scen tv log) = Ok res /\
    map multiplier (greedy res) = multipliers_of scen /\
    Forall (proportional_cost (sum_over hour_cost_of (greedy_hours df cap init)))
      (greedy res) /\
    map multiplier (optimized res)
    = filter (scenario_optimal solve df cap init cw ew tv)
        (multipliers_of scen).
Proof.
  intros Hne. unfold run_price_sensitivity. fold (multipliers_of scen).
  destruct (sweep_spec solve df cap init cw ew tv Hne (multipliers_of scen)
              {| scenarios := []; optimized := []; greedy := [] |} log)
    as (res & Er & _ & Ho & Hg).
  exists res. rewrite Er. cbn [fst]. split; [reflexivity |].
  cbn [optimized greedy map app] in Ho, Hg.
  destruct (entries_of_map_Some (greedy_entry df cap init) _
              (multipliers_of scen)
              (fun m => greedy_entry_proportional df cap init m Hne)
              (greedy res) Hg) as [Hm HP].
  repeat split; assumption.
Qed.

Lemma elasticities_zero_multiplier (pre : list Entry) :
  forall a b post,
    multiplier a == 0 ->
    elasticities (pre ++ a :: b :: post) = Raises ZeroDivisionError.
Proof.
  induction pre as [| p pre IH]; intros a b post Ha.
  - cbn [app elasticities]. apply Qeq_eq_bool in Ha. now rewrite Ha.
  - specialize (IH a b post Ha).
    cbn [app]. destruct (pre ++ a :: b :: post) as [| c rest] eqn:E;
      [destruct pre; discriminate |].
    cbn [elasticities] in IH |- *.
    destruct (Qeq_bool (multiplier p) 0); [reflexivity |].
    now rewrite IH.
Qed.

(** X10.  The greedy strategy has unit price elasticity.  For a sweep over a
    nonempty series with at least two multipliers, none of them zero, no two
    neighbours equal, and a base greedy cost that is not zero,
    calculate_elasticity of the report for 'greedy' returns 1. *)
Theorem greedy_elasticity_is_one (solve : LpProblem -> LpSolution)
  (df : ForecastSeries) (cap init cw ew : Q) (scen : option (list Q))
  (tv : bool) (log : list LpProblem) :
  let ms := multipliers_of scen in
  df <> [] ->
  (2 <= List.length ms)%nat ->
  (forall m, In m ms -> ~ m == 0) ->
  consecutive_distinct ms ->
  ~ sum_over hour_cost_of (greedy_hours df cap init) == 0 ->
  exists res x,
    fst (run_price_sensitivity solve df cap init cw ew scen tv log) = Ok res /\
    calculate_elasticity res "greedy" = Returns x /\
    float_is x 1.
Proof.
  intros ms Hne Hlen Hnz Hdist HC.
  destruct (sweep_report solve df cap init cw ew scen tv log Hne)
    as (res & Hres & Hm & HP & _).
  fold ms in Hm.
  assert (Hnz' : Forall (fun e => ~ multiplier e == 0) (greedy res)).
  { apply Forall_forall. intros e He. apply Hnz. rewrite <- Hm.
    now apply in_map. }
  rewrite <- Hm in Hdist.
  destruct (elasticities_proportional _ (greedy res) HC HP Hnz' Hdist)
    as (es & Ees & Hes & Hall).
  assert (Hl : List.length (greedy res) = List.length ms)
    by (rewrite <- Hm; now rewrite length_map).
  exists res. unfold calculate_elasticity. cbn [String.eqb Ascii.eqb Bool.eqb].
  unfold elasticity_of_entries. rewrite Ees.
  destruct (Nat.ltb_spec (List.length (greedy res)) 2) as [Hlt | _]; [lia |].
  destruct es as [| x es]; [cbn [List.length] in Hes; lia |].
  eexists. split; [exact Hres |]. split; [reflexivity |].
  apply np_mean_ones; [discriminate | exact Hall].
Qed.

Lemma greedy_elasticity_is_one_witness :
  exists res x,
    fst (run_price_sensitivity noon_solver mixed_series 500 250 0.7 0.3 None
           true []) = Ok res /\
    calculate_elasticity res "greedy" = Returns x /\
    float_is x 1.
Proof.
  apply (greedy_elasticity_is_one noon_solver mixed_series 500 250 0.7 0.3
           None true []).
  - discriminate.
  - cbn. lia.
  - intros m Hin. cbn in Hin.
    repeat destruct Hin as [<- | Hin]; try contradiction;
      intros H; vm_compute in H; discriminate H.
  - cbn. repeat split; intros H; vm_compute in H; discriminate H.
  - intros H. vm_compute in H. discriminate H.
Defined.

(** X11.  Edge cases of calculate_elasticity on the report of a sweep over a
    nonempty series.  If fewer than two scenarios were solved to optimal
    status, the elasticity of 'optimized' is 0.0.  If a multiplier that is
    not the last one is zero, asking for 'greedy' raises
    ZeroDivisionError.  A strategy other than 'optimized', 'greedy' and
    'scenarios' raises KeyError. *)
Theorem elasticity_edge_cases (solve : LpProblem -> LpSolution)
  (df : ForecastSeries) (cap init cw ew : Q) (scen : option (list Q))
  (tv : bool) (log : list LpProblem) :
  let ms := multipliers_of scen in
  df <> [] ->
  exists res,
    fst (run_price_sensitivity solve df cap init cw ew scen tv log) = Ok res /\
    ((List.length (filter (scenario_optimal solve df cap init cw ew tv) ms)
      < 2)%nat ->
     calculate_elasticity res "optimized" = Returns (Real 0)) /\
    (forall pre z b post,
        ms = pre ++ z :: b :: post -> z == 0 ->
        calculate_elasticity res "greedy" = Raises ZeroDivisionError) /\
    (forall strategy,
        strategy <> "optimized"%string -> strategy <> "greedy"%string ->
        strategy <> "scenarios"%string ->
        calculate_elasticity res strategy = Raises (Exn (KeyError strategy))).
Proof.
  intros ms Hne.
  destruct (sweep_report solve df cap init cw ew scen tv log Hne)
    as (res & Hres & Hm & _ & Ho).
  fold ms in Hm, Ho.
  exists res. split; [exact Hres |]. split; [| split].
  - intros Hlt. unfold calculate_elasticity.
    cbn [String.eqb Ascii.eqb Bool.eqb]. unfold elasticity_of_entries.
    rewrite <- Ho, length_map in Hlt.
    apply Nat.ltb_lt in Hlt. now rewrite Hlt.
  - intros pre z b post Hms Hz. unfold calculate_elasticity.
    cbn [String.eqb Ascii.eqb Bool.eqb]. unfold elasticity_of_entries.
    rewrite Hms in Hm.
    assert (Hsplit : exists pre' a' b' post',
               greedy res = pre' ++ a' :: b' :: post' /\ multiplier a' = z).
    { clear - Hm. revert Hm. generalize (greedy res) as l.
      induction pre as [| p pre IH]; intros l Hm.
      - destruct l as [| a' [| b' post']]; try discriminate.
        cbn [app map] in Hm. injection Hm as Ha _ _.
        exists [], a', b', post'. split; [reflexivity | exact Ha].
      - destruct l as [| p' l]; [discriminate |].
        cbn [app map] in Hm. injection Hm as _ Hm.
        destruct (IH l Hm) as (pre' & a' & b' & post' & -> & Ha).
        exists (p' :: pre'), a', b', post'. split; [reflexivity | exact Ha]. }
    destruct Hsplit as (pre' & a' & b' & post' & Hg & Ha).
    rewrite Hg.
    rewrite elasticities_zero_multiplier by (rewrite Ha; exact Hz).
    rewrite length_app. cbn [List.length].
    destruct (Nat.ltb_spec (List.length pre' + S (S (List.length post'))) 2);
      [lia | reflexivity].
  - intros strategy H1 H2 H3. unfold calculate_elasticity.
    destruct (String.eqb_spec strategy "optimized"); [contradiction |].
    destruct (String.eqb_spec strategy "greedy"); [contradiction |].
    destruct (String.eqb_spec strategy "scenarios"); [contradiction |].
    reflexivity.
Qed.

Lemma elasticity_edge_cases_witness :
  exists res,
    fst (run_price_sensitivity infeasible_solver mixed_series 500 250 0.7 0.3
           (Some [0; 1]) true []) = Ok res /\
    calculate_elasticity res "optimized" = Returns (Real 0) /\
    calculate_elasticity res "greedy" = Raises ZeroDivisionError.
Proof.
  destruct (elasticity_edge_cases infeasible_solver mixed_series 500 250 0.7
              0.3 (Some [0; 1]) true [])
    as (res & Hres & Hopt & Hzero & _); [discriminate |].
  exists res. split; [exact Hres |]. split.
  - apply Hopt. cbn. lia.
  - apply (Hzero [] 0 1 []); reflexivity.
Defined.

(* ================================================================== *)
(** * Forecasts *)

Lemma for_each_spec {A B : Type} (f : A -> result B) (l : list A) :
  forall out, for_each f l = Returns out ->
              Forall2 (fun a b => f a = Returns b) l out.
Proof.
  induction l as [| a l IH]; intros out H; cbn [for_each] in H.
  - injection H as <-. constructor.
  - unfold rbind in H. destruct (f a) as [b |] eqn:Ea; [| discriminate].
    destruct (for_each f l) as [bs |]; [| discriminate].
    injection H as <-. constructor; [exact Ea | now apply IH].
Qed.

Lemma for_each_returns {A B : Type} (f : A -> result B) (l : list A) :
  (forall a, In a l -> exists b, f a = Returns b) ->
  exists out, for_each f l = Returns out.
Proof.
  induction l as [| a l IH]; intros H; cbn [for_each].
  - now exists [].
  - destruct (H a (or_introl eq_refl)) as [b ->].
    destruct IH as [bs ->]; [intros a' Ha'; apply H; now right |].
    now exists (b :: bs).
Qed.

Lemma for_each_raises {A B : Type} (f : A -> result B) (l : list A)
  (e : exception) :
  for_each f l = Raises e -> exists a, In a l /\ f a = Raises e.
Proof.
  induction l as [| a l IH]; intros H; cbn [for_each] in H; [discriminate |].
  unfold rbind in H. destruct (f a) as [b |] eqn:Ea.
  - destruct (for_each f l) as [bs |]; [discriminate |].
    destruct (IH H) as (a' & Hin & Ha'). exists a'. split; [now right | exact Ha'].
  - injection H as <-. exists a. split; [now left | exact Ea].
Qed.

Lemma in_tail {A : Type} (n : nat) (l : list A) (a : A) :
  In a (tail n l) -> In a l.
Proof.
  unfold tail. intros H.
  rewrite <- (firstn_skipn (List.length l - n) l). apply in_or_app. now right.
Qed.

Lemma in_at_hour (h : Z) (df : ForecastSeries) (row : HourRecord) :
  In row (at_hour h df) -> In row df.
Proof. unfold at_hour. intros H. now apply filter_In in H. Qed.

Lemma last_timestamp_nonempty (df : ForecastSeries) :
  df <> [] ->
  exists row, nth_error df (List.length df - 1) = Some row /\
              last_timestamp df = Returns (datetime row).
Proof.
  intros Hne. unfold last_timestamp.
  destruct (nth_error df (List.length df - 1)) as [row |] eqn:E.
  - now exists row.
  - apply nth_error_None in E. destruct df; [congruence | cbn in E; lia].
Qed.

Lemma last_timestamp_empty : last_timestamp [] = Raises IndexError.
Proof. reflexivity. Qed.

(** ** Averages and smoothing stay within the range of their values *)

Lemma fold_sum_bounds (lo hi : Q) (l : list Q) :
  (forall v, In v l -> lo <= v /\ v <= hi) ->
  forall a,
    a + lo * Qnat (List.length l) <= fold_left Qplus l a /\
    fold_left Qplus l a <= a + hi * Qnat (List.length l).
Proof.
  induction l as [| v l IH]; intros Hl a; cbn [fold_left List.length].
  - unfold Qnat. cbn [Z.of_nat]. change (inject_Z 0) with 0. lra.
  - destruct (Hl v (or_introl eq_refl)) as [Hlo Hhi].
    destruct (IH (fun v' Hv' => Hl v' (or_intror Hv')) (a + v)) as [I1 I2].
    rewrite Qnat_S. split; lra.
Qed.

Lemma mean_bounds (lo hi : Q) (l : list Q) :
  l <> [] ->
  (forall v, In v l -> lo <= v /\ v <= hi) ->
  lo <= mean l /\ mean l <= hi.
Proof.
  intros Hne Hl. unfold mean.
  destruct (fold_sum_bounds lo hi l Hl 0) as [I1 I2].
  assert (Hpos : 0 < Qnat (List.length l))
    by (apply Qnat_pos; destruct l; [congruence | cbn; lia]).
  split.
  - apply Qle_shift_div_l; [exact Hpos | lra].
  - apply Qle_shift_div_r; [exact Hpos | lra].
Qed.

Lemma smooth_bounds (lo hi : Q) (l : list Q) :
  l <> [] ->
  (forall v, In v l -> lo <= v /\ v <= hi) ->
  lo <= smooth l /\ smooth l <= hi.
Proof.
  intros Hne Hl. unfold smooth.
  assert (Hrev : forall v, In v (rev l) -> lo <= v /\ v <= hi)
    by (intros v Hv; apply Hl; now apply in_rev).
  destruct (rev l) as [| latest earlier] eqn:E.
  - apply (f_equal (@rev Q)) in E. rewrite rev_involutive in E.
    cbn in E. congruence.
  - assert (H0 : lo <= latest /\ latest <= hi) by (apply Hrev; now left).
    assert (Hearlier : forall v, In v earlier -> lo <= v /\ v <= hi)
      by (intros v Hv; apply Hrev; now right).
    clear E Hrev. revert latest H0.
    induction earlier as [| v earlier IH]; intros s Hs; cbn [fold_left].
    + exact Hs.
    + apply IH.
      * intros v' Hv'. apply Hearlier. now right.
      * destruct (Hearlier v (or_introl eq_refl)). unfold alpha. lra.
Qed.

(** Every data column of a row built by [forecast_row] is [col] of that
    column. *)
Lemma forecast_row_column (ts : Z) (col : (HourRecord -> Q) -> Q)
  (f : HourRecord -> Q) :
  In f data_columns -> f (forecast_row ts col) = col f.
Proof.
  intros Hin. cbn in Hin.
  repeat destruct Hin as [<- | Hin]; try contradiction; reflexivity.
Qed.

Lemma with_datetime_column (ts : Z) (row : HourRecord) (f : HourRecord -> Q) :
  In f data_columns -> f (with_datetime ts row) = f row.
Proof.
  intros Hin. cbn in Hin.
  repeat destruct Hin as [<- | Hin]; try contradiction; reflexivity.
Qed.

Lemma hourly_average_row_bounds (source : ForecastSeries) (ts : Z)
  (row : HourRecord) (f : HourRecord -> Q) (lo hi : Q) :
  In f data_columns ->
  (forall r, In r source -> lo <= f r /\ f r <= hi) ->
  hourly_average_row source ts = Returns row ->
  datetime row = ts /\ lo <= f row /\ f row <= hi.
Proof.
  intros Hf Hsrc H. unfold hourly_average_row in H.
  destruct (at_hour (hour_of ts) source) as [| g0 group] eqn:E;
    [discriminate |].
  injection H as <-. split; [reflexivity |].
  rewrite (forecast_row_column _ _ f Hf).
  apply mean_bounds; [discriminate |].
  intros v Hv. change (In v (map f (g0 :: group))) in Hv.
  apply in_map_iff in Hv as (r & <- & Hr).
  apply Hsrc. apply (in_at_hour (hour_of ts)). rewrite E. exact Hr.
Qed.

Lemma smoothed_row_bounds (df : ForecastSeries) (ts : Z)
  (f : HourRecord -> Q) (lo hi : Q) :
  df <> [] ->
  In f data_columns ->
  (forall r, In r df -> lo <= f r /\ f r <= hi) ->
  datetime (smoothed_row df ts) = ts /\
  lo <= f (smoothed_row df ts) /\ f (smoothed_row df ts) <= hi.
Proof.
  intros Hne Hf Hdf. unfold smoothed_row. split; [reflexivity |].
  rewrite (forecast_row_column _ _ f Hf).
  set (hd := match tail 7 (at_hour (hour_of ts) df) with
             | [] => at_hour (hour_of ts) df
             | _ :: _ => tail 7 (at_hour (hour_of ts) df)
             end).
  assert (Hhd : forall r, In r hd -> In r df).
  { intros r Hr. unfold hd in Hr.
    destruct (tail 7 (at_hour (hour_of ts) df)) eqn:E.
    - now apply in_at_hour in Hr.
    - rewrite <- E in Hr. apply in_tail in Hr. now apply in_at_hour in Hr. }
  destruct (map f hd) as [| v vs] eqn:E.
  - apply mean_bounds.
    + destruct df; [congruence | discriminate].
    + intros v Hv. apply in_map_iff in Hv as (r & <- & Hr). now apply Hdf.
  - apply smooth_bounds; [discriminate |].
    intros v' Hv'. rewrite <- E in Hv'.
    apply in_map_iff in Hv' as (r & <- & Hr). apply Hdf. now apply Hhd.
Qed.

Lemma Forall2_nth_error {A B : Type} (R : A -> B -> Prop) (l : list A)
  (l' : list B) :
  Forall2 R l l' ->
  forall i a, nth_error l i = Some a ->
              exists b, nth_error l' i = Some b /\ R a b.
Proof.
  induction 1 as [| a0 b0 l l' HR _ IH]; intros i a Hi.
  - destruct i; discriminate.
  - destruct i as [| i]; cbn [nth_error] in *.
    + injection Hi as <-. now exists b0.
    + now apply IH.
Qed.

Lemma Forall2_map_eq {A B C : Type} (R : A -> B -> Prop) (g : A -> C)
  (h : B -> C) (l : list A) (l' : list B) :
  (forall a b, R a b -> h b = g a) ->
  Forall2 R l l' -> map h l' = map g l.
Proof.
  intros HR. induction 1 as [| a b l l' Hab _ IH]; cbn [map];
    [reflexivity |].
  now rewrite (HR a b Hab), IH.
Qed.

Lemma enumerate_snd {A : Type} (l : list A) : map snd (enumerate l) = l.
Proof.
  unfold enumerate.
  assert (G : forall (l : list A) (s : list nat),
             List.length s = List.length l -> map snd (combine s l) = l).
  { clear l. induction l as [| a l IH]; intros [| n s] H; try discriminate;
      [reflexivity |].
    cbn [combine map snd]. f_equal. apply IH. now injection H. }
  apply G. apply length_seq.
Qed.

Lemma length_date_range (last : Z) (n : nat) :
  List.length (date_range last n) = n.
Proof. unfold date_range. now rewrite length_map, length_seq. Qed.

Lemma nth_date_range (last : Z) (n i : nat) :
  (i < n)%nat ->
  nth_error (date_range last n) i = Some (last + 1 + Z.of_nat i)%Z.
Proof.
  intros Hi. unfold date_range. rewrite nth_error_map.
  rewrite nth_error_seq. destruct (Nat.ltb_spec i n); [reflexivity | lia].
Qed.

Lemma method_cases (method : string) :
  known_method method \/
  (String.eqb method "last_day" = false /\
   String.eqb method "average" = false /\
   String.eqb method "moving_average" = false /\
   String.eqb method "exponential_smoothing" = false).
Proof.
  unfold known_method.
  destruct (String.eqb_spec method "last_day"); [tauto |].
  destruct (String.eqb_spec method "average"); [tauto |].
  destruct (String.eqb_spec method "moving_average"); [tauto |].
  destruct (String.eqb_spec method "exponential_smoothing"); [tauto |].
  right. repeat split.
Qed.

(** X12.  forecast_next_24h rejects what it cannot forecast from: an empty
    history raises IndexError under each of the four methods, and a method
    other than the four raises ValueError naming it, whatever the history. *)
Theorem forecast_rejects_bad_input (df : ForecastSeries) (method : string)
  (window forecast_hours : nat) :
  (known_method method ->
   forecast_next_24h [] method window forecast_hours = Raises IndexError) /\
  (~ known_method method ->
   forecast_next_24h df method window forecast_hours
   = Raises (ValueError ("Unknown forecasting method: " ++ method))).
Proof.
  split.
  - intros [-> | [-> | [-> | ->]]]; reflexivity.
  - intros Hun. destruct (method_cases method) as [Hk | (E1 & E2 & E3 & E4)];
      [contradiction |].
    unfold forecast_next_24h. now rewrite E1, E2, E3, E4.
Qed.

Lemma forecast_rejects_bad_input_witness :
  forecast_next_24h [] "average" 3 24 = Raises IndexError /\
  forecast_next_24h mixed_series "arima" 3 24
  = Raises (ValueError "Unknown forecasting method: arima").
Proof.
  destruct (forecast_rejects_bad_input mixed_series "average" 3 24)
    as [Hempty _].
  destruct (forecast_rejects_bad_input mixed_series "arima" 3 24)
    as [_ Hunknown].
  split.
  - apply Hempty. right. left. reflexivity.
  - apply Hunknown.
    intros [H | [H | [H | H]]]; discriminate H.
Defined.

(** How each method computes a forecast that it returns. *)
Lemma forecast_returns_inv (df : ForecastSeries) (method : string)
  (window forecast_hours : nat) (out : ForecastSeries) :
  forecast_next_24h df method window forecast_hours = Returns out ->
  exists lastrow,
    nth_error df (List.length df - 1) = Some lastrow /\
    let stamps := date_range (datetime lastrow) forecast_hours in
    (method = "last_day"%string /\
     Forall2
       (fun its row =>
          exists r, In r df /\ row = with_datetime (snd its) r)
       (enumerate stamps) out) \/
    ((method = "average"%string \/ method = "moving_average"%string) /\
     Forall2
       (fun ts row =>
          hourly_average_row (averaged_frame method window df) ts
          = Returns row)
       stamps out) \/
    (method = "exponential_smoothing"%string /\
     Forall2 (fun ts row => row = smoothed_row df ts) stamps out).
Proof.
  intros H. unfold forecast_next_24h in H.
  assert (Hlast : forall k,
             (last <- last_timestamp df ;; k last)%result = Returns out ->
             exists lastrow,
               nth_error df (List.length df - 1) = Some lastrow /\
               k (datetime lastrow) = Returns out).
  { intros k Hk. unfold last_timestamp in Hk.
    destruct (nth_error df (List.length df - 1)) as [row |];
      [| discriminate].
    exists row. split; [reflexivity | exact Hk]. }
  destruct (String.eqb_spec method "last_day") as [-> | _].
  { apply Hlast in H as (lastrow & Hrow & H). exists lastrow.
    split; [exact Hrow |]. left. split; [reflexivity |].
    apply for_each_spec in H. revert H. apply Forall2_impl.
    intros [i ts] row Hr.
    destruct (List.length _) eqn:El in Hr; [discriminate |].
    destruct (nth_error _ _) as [r |] eqn:Er in Hr; [| discriminate].
    injection Hr as <-. exists r. split; [| reflexivity].
    apply nth_error_In in Er. now apply in_tail in Er. }
  destruct (String.eqb_spec method "average") as [-> | _].
  { apply Hlast in H as (lastrow & Hrow & H). exists lastrow.
    split; [exact Hrow |]. right. left. split; [now left |].
    apply for_each_spec in H. exact H. }
  destruct (String.eqb_spec method "moving_average") as [-> | _].
  { apply Hlast in H as (lastrow & Hrow & H). exists lastrow.
    split; [exact Hrow |]. right. left. split; [now right |].
    apply for_each_spec in H. exact H. }
  destruct (String.eqb_spec method "exponential_smoothing") as [-> | _];
    [| discriminate].
  apply Hlast in H as (lastrow & Hrow & H). exists lastrow.
  split; [exact Hrow |]. right. right. split; [reflexivity |].
  apply for_each_spec in H. revert H. apply Forall2_impl.
  intros ts row Hr. now injection Hr.
Qed.

(** X13.  Whatever the method, a forecast that is returned has exactly
    forecast_hours rows, and its timestamps are the hours that follow the
    last timestamp of the history, one by one. *)
Theorem forecast_has_the_requested_shape (df : ForecastSeries)
  (method : string) (window forecast_hours : nat) (out : ForecastSeries) :
  forecast_next_24h df method window forecast_hours = Returns out ->
  exists lastrow,
    nth_error df (List.length df - 1) = Some lastrow /\
    List.length out = forecast_hours /\
    map datetime out = date_range (datetime lastrow) forecast_hours.
Proof.
  intros H.
  destruct (forecast_returns_inv df method window forecast_hours out H)
    as (lastrow & Hrow & Hcases).
  exists lastrow. split; [exact Hrow |].
  assert (Hmap : map datetime out
                 = date_range (datetime lastrow) forecast_hours).
  { cbv zeta in Hcases. destruct Hcases as [[_ HF] | [[_ HF] | [_ HF]]].
    - rewrite (Forall2_map_eq _ snd datetime _ _
                 (fun its row (Hr : exists r, In r df /\
                                               row = with_datetime (snd its) r) =>
                    match Hr with
                    | ex_intro _ r (conj _ E) => f_equal datetime E
                    end) HF).
      apply enumerate_snd.
    - rewrite (Forall2_map_eq _ (fun ts => ts) datetime _ _) with (2 := HF).
      + apply map_id.
      + intros ts row Hr. unfold hourly_average_row in Hr.
        destruct (at_hour _ _); [discriminate |]. now injection Hr as <-.
    - rewrite (Forall2_map_eq _ (fun ts => ts) datetime _ _) with (2 := HF).
      + apply map_id.
      + intros ts row ->. reflexivity. }
  split; [| exact Hmap].
  apply (f_equal (@List.length _)) in Hmap.
  now rewrite length_map, length_date_range in Hmap.
Qed.

Lemma forecast_has_the_requested_shape_witness :
  exists out,
    forecast_next_24h mixed_series "last_day" 3 5 = Returns out /\
    List.length out = 5%nat /\
    map datetime out = [3; 4; 5; 6; 7]%Z.
Proof.
  destruct (forecast_next_24h mixed_series "last_day" 3 5) as [out | e] eqn:E;
    [| vm_compute in E; discriminate E].
  exists out. split; [reflexivity |].
  destruct (forecast_has_the_requested_shape mixed_series "last_day" 3 5 out E)
    as (lastrow & Hrow & Hlen & Hmap).
  split; [exact Hlen |].
  rewrite Hmap. cbn in Hrow. injection Hrow as <-. reflexivity.
Defined.

Lemma length_tail {A : Type} (n : nat) (l : list A) :
  List.length (tail n l) = Nat.min n (List.length l).
Proof. unfold tail. rewrite length_skipn. lia. Qed.

Lemma nth_error_tail {A : Type} (n : nat) (l : list A) (i : nat) :
  nth_error (tail n l) i = nth_error l (List.length l - n + i).
Proof. unfold tail. apply nth_error_skipn. Qed.

Lemma enumerate_nth_some {A : Type} (l : list A) (i : nat) (a : A) :
  nth_error l i = Some a -> nth_error (enumerate l) i = Some (i, a).
Proof.
  intros H.
  assert (Hlt : (i < List.length l)%nat) by (apply nth_error_Some; congruence).
  destruct (nth_error (enumerate l) i) as [[j b] |] eqn:E.
  - apply enumerate_nth in E as [-> Hb]. congruence.
  - apply nth_error_None in E. unfold enumerate in E.
    rewrite length_combine, length_seq, Nat.min_id in E. lia.
Qed.

(** X14.  On a nonempty history the last_day method always returns.  With
    p = min(forecast_hours, len(history)), forecast row i carries the
    timestamp of the i-th hour after the history and the data of history row
    len - p + (i mod p): the last p rows, repeated in order. *)
Theorem last_day_repeats_the_pattern (df : ForecastSeries)
  (window forecast_hours : nat) :
  df <> [] ->
  let p := Nat.min forecast_hours (List.length df) in
  exists out lastrow,
    forecast_next_24h df "last_day" window forecast_hours = Returns out /\
    nth_error df (List.length df - 1) = Some lastrow /\
    List.length out = forecast_hours /\
    forall i, (i < forecast_hours)%nat ->
      exists r,
        nth_error df (List.length df - p + i mod p) = Some r /\
        nth_error out i
        = Some (with_datetime (datetime lastrow + 1 + Z.of_nat i)%Z r).
Proof.
  intros Hne p.
  destruct (last_timestamp_nonempty df Hne) as (lastrow & Hrow & Hlast).
  assert (Hlen : List.length (tail p df) = p)
    by (rewrite length_tail; unfold p; lia).
  assert (Hdf : (0 < List.length df)%nat)
    by (destruct df; [congruence | cbn; lia]).
  set (body := fun its : nat * Z =>
         let '(i, ts) := its in
         match List.length (tail p df) with
         | O => Raises ZeroDivisionError
         | S _ =>
             match nth_error (tail p df) (i mod List.length (tail p df)) with
             | Some row => Returns (with_datetime ts row)
             | None => Raises IndexError
             end
         end).
  assert (Hbody : forall i ts,
             (i < forecast_hours)%nat ->
             exists r,
               nth_error df (List.length df - p + i mod p) = Some r /\
               body (i, ts) = Returns (with_datetime ts r)).
  { intros i ts Hi. unfold body.
    assert (Hp : (0 < p)%nat) by (unfold p; lia).
    assert (Hple : (p <= List.length df)%nat) by (unfold p; lia).
    destruct (List.length (tail p df)) as [| n] eqn:El; [lia |].
    replace (S n) with p by lia.
    rewrite nth_error_tail.
    assert (Hmod : (i mod p < p)%nat) by (apply Nat.mod_upper_bound; lia).
    destruct (nth_error df (List.length df - p + i mod p)) as [r |] eqn:E.
    - exists r. split; reflexivity.
    - apply nth_error_None in E. lia. }
  assert (Hrun : exists out,
             for_each body
               (enumerate (date_range (datetime lastrow) forecast_hours))
             = Returns out).
  { apply for_each_returns. intros [i ts] Hin.
    destruct (In_nth_error _ _ Hin) as [j Hj].
    apply enumerate_nth in Hj as [Hij Hj]. subst j.
    assert (Hi : (i < forecast_hours)%nat).
    { rewrite <- (length_date_range (datetime lastrow) forecast_hours).
      apply nth_error_Some. congruence. }
    destruct (Hbody i ts Hi) as (r & _ & ->). now eexists. }
  destruct Hrun as [out Hout].
  exists out, lastrow.
  assert (Hret : forecast_next_24h df "last_day" window forecast_hours
                 = Returns out).
  { unfold forecast_next_24h. cbn [String.eqb Ascii.eqb Bool.eqb].
    fold p. rewrite Hlast. cbn [rbind]. exact Hout. }
  split; [exact Hret |]. split; [exact Hrow |].
  apply for_each_spec in Hout.
  split.
  - apply Forall2_length in Hout. rewrite <- Hout.
    unfold enumerate. rewrite length_combine, length_seq, Nat.min_id.
    apply length_date_range.
  - intros i Hi.
    pose proof (enumerate_nth_some _ i _
                  (nth_date_range (datetime lastrow) forecast_hours i Hi))
      as Hin.
    destruct (Forall2_nth_error _ _ _ Hout i _ Hin) as (row & Hrow' & Hb).
    destruct (Hbody i (datetime lastrow + 1 + Z.of_nat i)%Z Hi)
      as (r & Hr & Er).
    exists r. split; [exact Hr |]. rewrite Hrow'. congruence.
Qed.

Lemma last_day_repeats_the_pattern_witness :
  mixed_series <> [] /\
  exists out,
    forecast_next_24h mixed_series "last_day" 3 5 = Returns out /\
    List.length out = 5%nat.
Proof.
  assert (Hne : mixed_series <> []) by discriminate.
  split; [exact Hne |].
  destruct (last_day_repeats_the_pattern mixed_series 3 5 Hne)
    as (out & lastrow & Hret & _ & Hlen & _).
  exists out. split; assumption.
Defined.

Lemma Forall2_In_r {A B : Type} (R : A -> B -> Prop) (l : list A)
  (l' : list B) (b : B) :
  Forall2 R l l' -> In b l' -> exists a, In a l /\ R a b.
Proof.
  induction 1 as [| a0 b0 l l' HR _ IH]; intros Hin; [contradiction |].
  destruct Hin as [<- | Hin].
  - exists a0. split; [now left | exact HR].
  - destruct (IH Hin) as (a & Ha & HRa). exists a. split; [now right | exact HRa].
Qed.

Lemma Forall2_In_l {A B : Type} (R : A -> B -> Prop) (l : list A)
  (l' : list B) (a : A) :
  Forall2 R l l' -> In a l -> exists b, In b l' /\ R a b.
Proof.
  induction 1 as [| a0 b0 l l' HR _ IH]; intros Hin; [contradiction |].
  destruct Hin as [<- | Hin].
  - exists b0. split; [now left | exact HR].
  - destruct (IH Hin) as (b & Hb & HRb). exists b. split; [now right | exact HRb].
Qed.

Lemma column_upper_bound (f : HourRecord -> Q) (df : ForecastSeries) :
  exists hi, forall r, In r df -> f r <= hi.
Proof.
  induction df as [| r df [hi Hhi]].
  - exists 0. intros r [].
  - exists (Qmax (f r) hi). intros r' [<- | Hr'].
    + apply Q.le_max_l.
    + eapply Qle_trans; [apply Hhi, Hr' | apply Q.le_max_r].
Qed.

Lemma in_averaged_frame (method : string) (window : nat)
  (df : ForecastSeries) (r : HourRecord) :
  In r (averaged_frame method window df) -> In r df.
Proof.
  unfold averaged_frame. destruct (String.eqb method "average");
    [trivial | apply in_tail].
Qed.

Lemma forecast_in_range (df : ForecastSeries) (method : string)
  (window forecast_hours : nat) (out : ForecastSeries)
  (f : HourRecord -> Q) (lo hi : Q) :
  forecast_next_24h df method window forecast_hours = Returns out ->
  In f data_columns ->
  (forall r, In r df -> lo <= f r /\ f r <= hi) ->
  forall row, In row out -> lo <= f row /\ f row <= hi.
Proof.
  intros H Hf Hdf row Hrow.
  destruct (forecast_returns_inv df method window forecast_hours out H)
    as (lastrow & Hlast & Hcases).
  assert (Hne : df <> []) by (intros ->; destruct (0 - 1)%nat; discriminate).
  cbv zeta in Hcases. destruct Hcases as [[_ HF] | [[_ HF] | [_ HF]]];
    destruct (Forall2_In_r _ _ _ row HF Hrow) as (a & _ & Ha).
  - destruct Ha as (r & Hr & ->). rewrite (with_datetime_column _ _ f Hf).
    now apply Hdf.
  - apply (hourly_average_row_bounds _ a row f lo hi Hf) in Ha; [tauto |].
    intros r Hr. apply Hdf. now apply in_averaged_frame in Hr.
  - subst row. now apply smoothed_row_bounds.
Qed.

(** X15.  A forecast never leaves the range of its history: under every
    method, each of the five data columns of each forecast row lies between
    any lower and upper bound of that column over the history.  So the
    forecast of a history with nonnegative demand, availabilities and
    prices has nonnegative demand, availabilities and prices. *)
Theorem forecast_stays_in_range (df : ForecastSeries) (method : string)
  (window forecast_hours : nat) (out : ForecastSeries) :
  forecast_next_24h df method window forecast_hours = Returns out ->
  (forall f lo hi,
      In f data_columns ->
      (forall r, In r df -> lo <= f r /\ f r <= hi) ->
      forall row, In row out -> lo <= f row /\ f row <= hi) /\
  ((forall r, In r df -> nonneg_row r /\ 0 <= price r) ->
   forall row, In row out -> nonneg_row row /\ 0 <= price row).
Proof.
  intros H. split.
  - intros f lo hi. now apply forecast_in_range with (1 := H).
  - intros Hdf row Hrow.
    assert (Hcol : forall f, In f data_columns ->
                             (forall r, In r df -> 0 <= f r) -> 0 <= f row).
    { intros f Hf Hnn. destruct (column_upper_bound f df) as [hi Hhi].
      apply (forecast_in_range df method window forecast_hours out f 0 hi H Hf);
        [| exact Hrow].
      intros r Hr. split; [now apply Hnn | now apply Hhi]. }
    unfold nonneg_row. repeat split.
    + apply (Hcol demand); [cbn; tauto |]. intros r Hr. apply (Hdf r Hr).
    + apply (Hcol solar_available); [cbn; tauto |].
      intros r Hr. apply (Hdf r Hr).
    + apply (Hcol wind_available); [cbn; tauto |].
      intros r Hr. apply (Hdf r Hr).
    + apply (Hcol hydro_available); [cbn; tauto |].
      intros r Hr. apply (Hdf r Hr).
    + apply (Hcol price); [cbn; tauto |]. intros r Hr. apply (Hdf r Hr).
Qed.

Lemma forecast_stays_in_range_witness :
  exists out,
    forecast_next_24h mixed_series "exponential_smoothing" 3 4 = Returns out /\
    forall row, In row out -> nonneg_row row /\ 0 <= price row.
Proof.
  destruct (forecast_next_24h mixed_series "exponential_smoothing" 3 4)
    as [out | e] eqn:E; [| vm_compute in E; discriminate E].
  exists out. split; [reflexivity |].
  apply (proj2 (forecast_stays_in_range mixed_series "exponential_smoothing"
                  3 4 out E)).
  intros r [<- | [<- | [<- | []]]]; unfold nonneg_row; cbn; lra.
Defined.

Lemma for_each_raises_the_only_error {A B : Type} (f : A -> result B)
  (l : list A) (e0 : exception) (a : A) :
  (forall a' e, f a' = Raises e -> e = e0) ->
  In a l -> f a = Raises e0 ->
  for_each f l = Raises e0.
Proof.
  intros Honly Hin Ha.
  destruct (for_each f l) as [out | e] eqn:E.
  - apply for_each_spec in E.
    destruct (Forall2_In_l _ _ _ a E Hin) as (b & _ & Hb). congruence.
  - destruct (for_each_raises f l e E) as (a' & _ & Ha').
    now rewrite (Honly a' e Ha').
Qed.

Lemma hourly_average_row_cases (source : ForecastSeries) (ts : Z) :
  (at_hour (hour_of ts) source <> [] /\
   exists row, hourly_average_row source ts = Returns row) \/
  (at_hour (hour_of ts) source = [] /\
   hourly_average_row source ts = Raises IndexError).
Proof.
  unfold hourly_average_row.
  destruct (at_hour (hour_of ts) source) as [| r g].
  - right. split; reflexivity.
  - left. split; [discriminate | now eexists].
Qed.

(** X16.  On a nonempty history the exponential_smoothing method always
    returns.  The average and moving_average methods return exactly when
    every forecast hour of day occurs in the frame they average (the whole
    history, or its last window * 24 rows); if some forecast hour of day
    does not occur there, they raise IndexError. *)
Theorem forecast_needs_every_hour_of_day (df : ForecastSeries)
  (window forecast_hours : nat) :
  df <> [] ->
  exists lastrow,
    nth_error df (List.length df - 1) = Some lastrow /\
    let stamps := date_range (datetime lastrow) forecast_hours in
    (exists out,
        forecast_next_24h df "exponential_smoothing" window forecast_hours
        = Returns out) /\
    forall method,
      method = "average"%string \/ method = "moving_average"%string ->
      let source := averaged_frame method window df in
      ((forall ts, In ts stamps -> at_hour (hour_of ts) source <> []) ->
       exists out,
         forecast_next_24h df method window forecast_hours = Returns out) /\
      (forall ts,
          In ts stamps -> at_hour (hour_of ts) source = [] ->
          forecast_next_24h df method window forecast_hours
          = Raises IndexError).
Proof.
  intros Hne.
  destruct (last_timestamp_nonempty df Hne) as (lastrow & Hrow & Hlast).
  exists lastrow. split; [exact Hrow |]. cbv zeta. split.
  - unfold forecast_next_24h. cbn [String.eqb Ascii.eqb Bool.eqb].
    rewrite Hlast. cbn [rbind]. apply for_each_returns.
    intros ts _. now eexists.
  - intros method Hm.
    assert (Hrun : forecast_next_24h df method window forecast_hours
                   = for_each
                       (hourly_average_row (averaged_frame method window df))
                       (date_range (datetime lastrow) forecast_hours)).
    { unfold forecast_next_24h, averaged_frame.
      destruct Hm as [-> | ->]; cbn [String.eqb Ascii.eqb Bool.eqb];
        rewrite Hlast; reflexivity. }
    rewrite Hrun. split.
    + intros Hall. apply for_each_returns. intros ts Hts.
      destruct (hourly_average_row_cases (averaged_frame method window df) ts)
        as [[_ Hret] | [Hnil _]]; [exact Hret |].
      exfalso. exact (Hall ts Hts Hnil).
    + intros ts Hts Hnil.
      apply (for_each_raises_the_only_error _ _ IndexError ts); [| exact Hts |].
      * intros ts' e He.
        destruct (hourly_average_row_cases
                    (averaged_frame method window df) ts')
          as [[_ [row Hret]] | [_ Hraise]]; congruence.
      * destruct (hourly_average_row_cases
                    (averaged_frame method window df) ts)
          as [[Hnn _] | [_ Hraise]]; [contradiction | exact Hraise].
Qed.

Lemma forecast_needs_every_hour_of_day_witness :
  mixed_series <> [] /\
  forecast_next_24h mixed_series "average" 3 24 = Raises IndexError.
Proof.
  assert (Hne : mixed_series <> []) by discriminate.
  split; [exact Hne |].
  destruct (forecast_needs_every_hour_of_day mixed_series 3 24 Hne)
    as (lastrow & Hrow & _ & Havg).
  cbn in Hrow. injection Hrow as <-.
  apply (proj2 (Havg "average"%string (or_introl eq_refl)) 3%Z).
  - vm_compute. left. reflexivity.
  - reflexivity.
Defined.

(* ================================================================== *)
(** * Carbon intensities *)

Lemma base_emissions_values :
  dict_get base_emissions "solar" 0 = 45 /\
  dict_get base_emissions "wind" 0 = 12 /\
  dict_get base_emissions "hydro" 0 = 24.
Proof. repeat split; reflexivity. Qed.

(** X17.  For every integer hour, in or out of 0..23, the intensities of the
    three sources lie between 0.85 and 1.25 times their base factors
    45 / 12 / 24 and are ordered wind <= hydro <= solar; the lookup does not
    reduce the hour modulo 24: every hour below 0 or from 21 on gets the
    late-evening multiplier 0.95. *)
Theorem carbon_intensity_range (hour : Z) :
  (45 * 0.85 <= get_carbon_intensity hour "solar" /\
   get_carbon_intensity hour "solar" <= 45 * 1.25) /\
  (12 * 0.85 <= get_carbon_intensity hour "wind" /\
   get_carbon_intensity hour "wind" <= 12 * 1.25) /\
  (24 * 0.85 <= get_carbon_intensity hour "hydro" /\
   get_carbon_intensity hour "hydro" <= 24 * 1.25) /\
  (get_carbon_intensity hour "wind" <= get_carbon_intensity hour "hydro" /\
   get_carbon_intensity hour "hydro" <= get_carbon_intensity hour "solar") /\
  ((hour < 0 \/ 21 <= hour)%Z ->
   get_carbon_intensity hour "solar" == 45 * 0.95 /\
   get_carbon_intensity hour "wind" == 12 * 0.95 /\
   get_carbon_intensity hour "hydro" == 24 * 0.95).
Proof.
  unfold get_carbon_intensity.
  destruct base_emissions_values as (-> & -> & ->).
  destruct ((0 <=? hour) && (hour <? 6))%Z eqn:E1;
    [apply andb_true_iff in E1 as [A B]; apply Z.leb_le in A;
     apply Z.ltb_lt in B; repeat split; try lra; intros; lia |].
  destruct ((6 <=? hour) && (hour <? 9))%Z eqn:E2;
    [apply andb_true_iff in E2 as [A B]; apply Z.leb_le in A;
     apply Z.ltb_lt in B; repeat split; try lra; intros; lia |].
  destruct ((9 <=? hour) && (hour <? 17))%Z eqn:E3;
    [apply andb_true_iff in E3 as [A B]; apply Z.leb_le in A;
     apply Z.ltb_lt in B; repeat split; try lra; intros; lia |].
  destruct ((17 <=? hour) && (hour <? 21))%Z eqn:E4;
    [apply andb_true_iff in E4 as [A B]; apply Z.leb_le in A;
     apply Z.ltb_lt in B; repeat split; try lra; intros; lia |].
  repeat split; lra.
Qed.

(** X18.  get_all_carbon_intensities(hours) has max(hours, 0) rows; row i
    holds the hour of day i mod 24, which lies in 0..23, and the three
    intensities looked up at that hour of day; so the table repeats with
    period 24. *)
Theorem all_carbon_intensities_are_periodic (hours : Z) :
  let table := get_all_carbon_intensities hours in
  List.length table = Z.to_nat (Z.max hours 0) /\
  (forall i row,
      nth_error table i = Some row ->
      ci_hour row = (Z.of_nat i mod 24)%Z /\
      (0 <= ci_hour row < 24)%Z /\
      solar_intensity row = get_carbon_intensity (ci_hour row) "solar" /\
      wind_intensity row = get_carbon_intensity (ci_hour row) "wind" /\
      hydro_intensity row = get_carbon_intensity (ci_hour row) "hydro") /\
  (forall i, (Z.of_nat i + 24 < hours)%Z ->
             nth_error table (i + 24) = nth_error table i /\
             nth_error table i <> None).
Proof.
  intros table. unfold table, get_all_carbon_intensities.
  split; [rewrite length_map, length_seq; lia |]. split.
  - intros i row Hrow. rewrite nth_error_map, nth_error_seq in Hrow.
    destruct (Nat.ltb_spec i (Z.to_nat hours)); [| discriminate].
    cbn [option_map Nat.add] in Hrow. injection Hrow as <-.
    cbn [ci_hour solar_intensity wind_intensity hydro_intensity].
    repeat split; apply Z.mod_pos_bound; lia.
  - intros i Hi. rewrite !nth_error_map, !nth_error_seq.
    destruct (Nat.ltb_spec (i + 24) (Z.to_nat hours)); [| lia].
    destruct (Nat.ltb_spec i (Z.to_nat hours)); [| lia].
    cbn [option_map Nat.add]. split; [| discriminate].
    assert (E : (Z.of_nat (i + 24) mod 24 = Z.of_nat i mod 24)%Z).
    { rewrite Nat2Z.inj_add. change (Z.of_nat 24) with (1 * 24)%Z.
      apply Z.mod_add. lia. }
    now rewrite E.
Qed.

(* ================================================================== *)
(** * Uncertainty bounds *)

(** X19.  add_forecast_uncertainty keeps the rows of the forecast, in order,
    and centres the bounds of each quantity on its forecast: lower + upper
    is twice the value.  For a nonnegative fraction and a row with
    nonnegative quantities the bounds bracket the forecast,
    lower <= value <= upper, for demand and the three availabilities. *)
Theorem uncertainty_bounds_bracket_the_forecast (forecast_df : ForecastSeries)
  (uncertainty : Q) :
  map u_row (add_forecast_uncertainty forecast_df uncertainty) = forecast_df /\
  forall u, In u (add_forecast_uncertainty forecast_df uncertainty) ->
    let row := u_row u in
    (demand_lower u + demand_upper u == 2 * demand row /\
     solar_available_lower u + solar_available_upper u
     == 2 * solar_available row /\
     wind_available_lower u + wind_available_upper u
     == 2 * wind_available row /\
     hydro_available_lower u + hydro_available_upper u
     == 2 * hydro_available row) /\
    (0 <= uncertainty -> nonneg_row row ->
     (demand_lower u <= demand row /\ demand row <= demand_upper u) /\
     (solar_available_lower u <= solar_available row /\
      solar_available row <= solar_available_upper u) /\
     (wind_available_lower u <= wind_available row /\
      wind_available row <= wind_available_upper u) /\
     (hydro_available_lower u <= hydro_available row /\
      hydro_available row <= hydro_available_upper u)).
Proof.
  unfold add_forecast_uncertainty. split.
  - rewrite map_map. cbn [u_row]. apply map_id.
  - intros u Hu. apply in_map_iff in Hu as (row & <- & _).
    cbn [u_row demand_lower demand_upper solar_available_lower
         solar_available_upper wind_available_lower wind_available_upper
         hydro_available_lower hydro_available_upper].
    split; [repeat split; ring |].
    intros Hun (Hd & Hs & Hw & Hh). repeat split; nra.
Qed.

Lemma uncertainty_bounds_bracket_the_forecast_witness :
  0 <= 0.1 /\ Forall nonneg_row mixed_series /\
  Forall (fun u => demand_lower u <= demand (u_row u) /\
                   demand (u_row u) <= demand_upper u)
         (add_forecast_uncertainty mixed_series 0.1).
Proof.
  assert (Hnn : Forall nonneg_row mixed_series)
    by (repeat constructor; cbn; lra).
  split; [lra | split; [exact Hnn |]].
  apply Forall_forall. intros u Hu.
  destruct (uncertainty_bounds_bracket_the_forecast mixed_series 0.1)
    as [Hrows Hb].
  destruct (Hb u Hu) as [_ Hbr].
  apply Hbr.
  - lra.
  - rewrite Forall_forall in Hnn. apply Hnn.
    rewrite <- Hrows. now apply in_map.
Defined.

(* ================================================================== *)
(** * The price of the terminal band *)

(** X20.  The terminal band never lowers the objective: when the solver's
    answers for the single-day and the multi-day model of the same inputs
    are both optimal, the objective value of the single-day plan is at most
    that of the multi-day plan. *)
Theorem terminal_band_never_lowers_the_objective
  (solve : LpProblem -> LpSolution) (df : ForecastSeries) (days_arg : nat)
  (cap init cw ew : Q) (tv : bool) (log log' : list LpProblem) :
  let single_prob := energy_mix_problem df cap init cw ew tv in
  let multi_prob := multiday_problem df cap init cw ew tv in
  df <> [] ->
  lp_status (solve single_prob) = LpStatusOptimal ->
  lp_status (solve multi_prob) = LpStatusOptimal ->
  lp_optimal (varValue (solve single_prob)) single_prob ->
  lp_optimal (varValue (solve multi_prob)) multi_prob ->
  exists single multi v w,
    fst (optimize_energy_mix solve df cap init cw ew tv log) = Ok single /\
    fst (optimize_multiday_energy_mix solve df days_arg cap init cw ew tv log')
    = Ok multi /\
    objective_value single = Some v /\ objective_value multi = Some w /\
    v <= w.
Proof.
  intros single_prob multi_prob Hne Hs Hm [_ Hmin] [Hfeas _].
  destruct (optimize_energy_mix_optimal solve df cap init cw ew tv log Hs Hne)
    as (c & e & u & -> & _).
  unfold optimize_multiday_energy_mix. fold multi_prob.
  destruct (multiday_report_optimal solve multi_prob df days_arg tv log' Hm Hne)
    as (c' & e' & u' & -> & _).
  do 4 eexists. cbn [fst objective_value].
  repeat (split; [reflexivity |]).
  apply multiday_feasible_iff in Hfeas as [Hfs _].
  exact (Hmin _ Hfs).
Qed.

(* ================================================================== *)
(** * Instances *)

Lemma mixed_series_nonneg : forall row, In row mixed_series -> nonneg_row row.
Proof.
  intros row [<- | [<- | [<- | []]]]; unfold nonneg_row; cbn; lra.
Defined.

Lemma noon_series_nonneg : forall row, In row noon_series -> nonneg_row row.
Proof. intros row [<- | []]; unfold nonneg_row; cbn; lra. Defined.

Lemma noon_values_lp_optimal :
  lp_optimal noon_values (energy_mix_problem noon_series 500 250 0.7 0.3 true).
Proof.
  split; [exact noon_values_feasible |].
  intros y Hy. exact (proj1 (noon_values_optimal y Hy)).
Defined.

Lemma noon_values_lp_optimal_multiday :
  lp_optimal noon_values (multiday_problem noon_series 500 250 0.7 0.3 true).
Proof.
  split; [apply feasibleb_sound; vm_compute; reflexivity |].
  intros y Hy. apply multiday_feasible_iff in Hy as [Hy _].
  exact (proj1 (noon_values_optimal y Hy)).
Defined.

Lemma greedy_unmet_is_shortfall_witness :
  match greedy_energy_mix mixed_series 500 250 with
  | Ok plan =>
      forall h, nth_error (hours plan) 0 = Some h -> hr_unmet_demand h == 100
  | Raise _ => False
  end.
Proof.
  pose proof (greedy_unmet_is_shortfall mixed_series 500 250
                mixed_series_nonneg ltac:(lra) ltac:(lra)) as H.
  destruct (greedy_energy_mix mixed_series 500 250) as [plan | e];
    [| discriminate H].
  intros h Eh.
  destruct (H 0%nat _ h eq_refl Eh) as [_ Hshort].
  cbn [level_before demand solar_available wind_available hydro_available]
    in Hshort.
  rewrite Hshort; vm_compute; reflexivity.
Defined.


Lemma optimizer_plan_respects_ceilings_witness :
  exists plan,
    fst (optimize_multiday_energy_mix noon_solver noon_series 1 500 250 0.7
           0.3 true []) = Ok plan /\
    forall h, nth_error (hours plan) 0 = Some h ->
              hr_solar_use h <= 150 + (1 # 1000000).
Proof.
  destruct (optimizer_plan_respects_ceilings noon_solver noon_series 1 500 250
              0.7 0.3 (1 # 1000000) true [] true)
    as (plan & Hplan & Hc).
  - discriminate.
  - reflexivity.
  - apply feasibleb_sound. vm_compute. reflexivity.
  - exists plan. split; [exact Hplan |].
    intros h Hh. exact (proj2 (proj1 (Hc 0%nat _ h eq_refl Hh))).
Defined.

Lemma optimizer_battery_accounting_witness :
  exists plan,
    fst (optimize_energy_mix noon_solver noon_series 500 250 0.7 0.3 true [])
    = Ok plan /\
    forall h, nth_error (hours plan) 0 = Some h ->
              hr_battery_level h
              == 250 + hr_battery_charge h * 0.9 - hr_battery_discharge h.
Proof.
  destruct (optimizer_battery_accounting noon_solver noon_series 1 500 250
              0.7 0.3 true [] false)
    as (plan & Hplan & Hc).
  - discriminate.
  - reflexivity.
  - exact noon_values_feasible.
  - exists plan. split; [exact Hplan |].
    intros h Hh. exact (proj1 (Hc 0%nat h Hh)).
Defined.

Lemma objective_value_is_weighted_totals_witness :
  exists plan v,
    fst (optimize_multiday_energy_mix noon_solver noon_series 1 500 250 0.7
           0.3 true []) = Ok plan /\
    objective_value plan = Some v /\
    v == weighted_objective 0.7 0.3 true (hours plan).
Proof.
  destruct (objective_value_is_weighted_totals noon_solver noon_series 1 500
              250 0.7 0.3 true [] true)
    as (plan & v & c & e & u & Hplan & Hv & Hw & _).
  - discriminate.
  - reflexivity.
  - exists plan, v. repeat split; assumption.
Defined.

Lemma optimizer_never_worse_than_greedy_witness :
  exists plan greedy_plan v,
    fst (optimize_energy_mix noon_solver noon_series 500 250 0.7 0.3 true [])
    = Ok plan /\
    greedy_energy_mix noon_series 500 250 = Ok greedy_plan /\
    objective_value plan = Some v /\
    v <= weighted_objective 0.7 0.3 true (hours greedy_plan).
Proof.
  apply (optimizer_never_worse_than_greedy noon_solver noon_series 500 250
           0.7 0.3 true []).
  - exact noon_series_nonneg.
  - lra.
  - lra.
  - discriminate.
  - reflexivity.
  - exact noon_values_lp_optimal.
Defined.

Lemma terminal_band_never_lowers_the_objective_witness :
  exists single multi v w,
    fst (optimize_energy_mix noon_solver noon_series 500 250 0.7 0.3 true [])
    = Ok single /\
    fst (optimize_multiday_energy_mix noon_solver noon_series 1 500 250 0.7
           0.3 true []) = Ok multi /\
    objective_value single = Some v /\ objective_value multi = Some w /\
    v <= w.
Proof.
  apply (terminal_band_never_lowers_the_objective noon_solver noon_series 1
           500 250 0.7 0.3 true [] []).
  - discriminate.
  - reflexivity.
  - reflexivity.
  - exact noon_values_lp_optimal.
  - exact noon_values_lp_optimal_multiday.
Defined.

Lemma carbon_intensity_range_witness :
  get_carbon_intensity 27 "solar" == 45 * 0.95 /\
  get_carbon_intensity (-1) "wind" == 12 * 0.95.
Proof.
  destruct (carbon_intensity_range 27) as (_ & _ & _ & _ & H27).
  destruct (carbon_intensity_range (-1)) as (_ & _ & _ & _ & Hm1).
  split.
  - apply H27. right. lia.
  - apply Hm1. left. lia.
Defined.

Lemma all_carbon_intensities_are_periodic_witness :
  nth_error (get_all_carbon_intensities 48) (3 + 24)
  = nth_error (get_all_carbon_intensities 48) 3.
Proof.
  destruct (all_carbon_intensities_are_periodic 48) as (_ & _ & Hper).
  apply (Hper 3%nat). cbn. lia.
Defined.

(* ================================================================== *)
(** * The greedy totals and the number types of the frame *)

(** ** On floats the typed operations are the float operations *)













(** ** The columns of a plan with float uses *)









Lemma typed_greedy_energy_mix_empty (cap init : Q) :
  Typed.greedy_energy_mix [] cap init = Raise (KeyError "solar_use").
Proof. reflexivity. Qed.



